(** * rylone: hexagonal-grid coverage of a rate-limited search API

    A shallow embedding of the core of the repository (the TypeScript
    modules [hexagonSplitter], [hexagonCoverage], [apiQuotaManager],
    [rateLimiter], [yelpSearch], [hexagonProcessor] and the [clear_history]
    action of the API route), followed by the properties of its
    specification.

    Conventions of the embedding.
    - A JavaScript [number] that holds a count or a grid resolution is a [Z];
      one that holds a length, an area or a coordinate is a rational [Q],
      [NaN] and the infinities are left out.  Where a product of doubles
      decides between outcomes (the risk levels of the quota manager, the
      80% rule of the processor) the product is rounded as the machine
      rounds it, see [Double]; elsewhere exact arithmetic stands for the
      arithmetic of the source.
    - A call that can throw returns an [outcome]: [Returns v] or
      [Throws msg]; [try]/[catch] is a match on it.
    - The libraries the source imports (h3-js, turf) and the remote search
      API are collaborators: they are the fields of a class, and every
      property is proved for all their behaviours.
    - [console.log] and friends are not modelled. *)

From Stdlib Require Import ZArith QArith Qround Qminmax Qabs Qpower Lia Lqa.
From stdpp Require Import gmap strings list fin_maps pretty.
From Equations Require Import Equations.

Local Open Scope string_scope.
Local Open Scope Z_scope.

(** ** Results of calls that may throw *)

Inductive outcome (A : Type) : Type :=
| Returns (v : A)
| Throws (message : string).
Arguments Returns {A} v.
Arguments Throws {A} message.

Definition bind_outcome {A B} (o : outcome A) (k : A -> outcome B) : outcome B :=
  match o with
  | Returns v => k v
  | Throws m => Throws m
  end.

#[global] Instance outcome_ret : MRet outcome := fun A v => Returns v.
#[global] Instance outcome_bind : MBind outcome :=
  fun A B k o => bind_outcome o k.

(** [xs.map(f)] where [f] may throw: the first exception aborts the map. *)
Fixpoint map_outcome {A B} (f : A -> outcome B) (xs : list A) : outcome (list B) :=
  match xs with
  | [] => Returns []
  | x :: rest =>
      y ← f x ;
      ys ← map_outcome f rest ;
      Returns (y :: ys)
  end.

Definition returned {A} (o : outcome A) : bool :=
  match o with Returns _ => true | Throws _ => false end.

(** ** Double-precision numbers *)

Module Double.

(** Nearest integer, ties to the even one. *)
Definition roundEven (x : Q) : Z :=
  let f := Qfloor x in
  match (x - inject_Z f ?= 1 # 2)%Q with
  | Lt => f
  | Gt => f + 1
  | Eq => if Z.even f then f else f + 1
  end.

(** [floor (log2 x)] of a positive rational. *)
Definition ilog2 (x : Q) : Z :=
  let k := Z.log2 (Qnum x) - Z.log2 (Z.pos (Qden x)) in
  if Qle_bool (2 ^ k) x then k else k - 1.

(** The exponent of the unit in the last place: 53 significant bits, and
    no exponent below that of the subnormal numbers. *)
Definition exponent (x : Q) : Z := Z.max (ilog2 x - 52) (-1074).

Definition roundPositive (x : Q) : Q :=
  let e := exponent x in
  (inject_Z (roundEven (x / 2 ^ e)) * 2 ^ e)%Q.

(** The double nearest to a rational: round to nearest, ties to even
    (overflow to an infinity is left out).  A decimal literal of the source
    is the rounding of its value: [0.8] is [round (8 # 10)]. *)
Definition round (x : Q) : Q :=
  let x := Qred x in
  match (x ?= 0)%Q with
  | Eq => 0%Q
  | Gt => Qred (roundPositive x)
  | Lt => Qred (- roundPositive (- x))
  end.

(** [a * b] on doubles. *)
Definition mul (a b : Q) : Q := round (a * b).

End Double.

(** ** The grid-indexing collaborator (h3-js) and the distance library (turf) *)

(** A two-element array of numbers.  [h3.cellToLatLng] returns
    [[lat, lng]]. *)
Definition LatLng : Type := (Q * Q)%type.

(** [h3.cellToBoundary(h3Id, true)] returns its vertices in GeoJSON order,
    [[lng, lat]], the first vertex repeated at the end. *)
Definition LngLat : Type := (Q * Q)%type.
Definition longitude (position : LngLat) : Q := fst position.
Definition latitude (position : LngLat) : Q := snd position.

Class H3 : Type := {
  cellToLatLng : string -> outcome LatLng;
  (** [h3.cellToBoundary(h3Id, true)] *)
  cellToBoundary : string -> outcome (list LngLat);
  cellArea : string -> outcome Q;            (* km2 *)
  cellToChildren : string -> Z -> outcome (list string);
}.

(** The third argument of [turf.distance]: the source passes the bare
    string ['meters']; turf reads the unit from an options object,
    [{ units: 'meters' }], and measures in kilometres without one. *)
Inductive DistanceArgument : Type :=
| BareString (s : string)
| Options (units : string).

Class Turf : Type := {
  (** [turf.distance(turf.point(from), turf.point(to), argument)]; a turf
      point is [[lng, lat]]. *)
  distance : LngLat -> LngLat -> DistanceArgument -> outcome Q;
}.

(** [Number.prototype.toFixed], and the conversion of a number to a string
    inside a template literal: an integer below [2^53] in absolute value
    is written with all its digits. *)
Class NumberFormat : Type := {
  toFixed : Q -> nat -> string;
  numberToString : Q -> string;
  numberToString_integer (x : Q) (n : Z) :
    (x == inject_Z n)%Q -> Z.abs n < 2 ^ 53 -> numberToString x = pretty n;
}.

(** [Math.round]: the nearest integer, halves rounded up. *)
Definition Math_round (x : Q) : Q := inject_Z (Qfloor (x + (1 # 2))%Q).

(** [Math.pow] on integers: the power itself where it is a double (for
    base 7, up to the exponent 18), and the nearest double otherwise. *)
Definition Math_pow (base exponent : Z) : Q :=
  Double.round (if 0 <=? exponent then inject_Z (base ^ exponent)
                else / inject_Z (base ^ (- exponent)))%Q.

(** [a > b] on numbers. *)
Definition Qgtb (a b : Q) : bool := negb (Qle_bool a b).

(** ** hexagonSplitter.ts *)

Module HexagonSplitter.

Record SplitHexagon : Type := {
  h3Id : string;
  parentH3Id : string;
  resolution : Z;
  center : LatLng;
  status : string;
}.

Record HexagonSplitResult : Type := {
  originalHexagon : string;
  splitHexagons : list SplitHexagon;
  totalSubHexagons : Z;
  splitReason : string;
  estimatedCoverage : string;
}.

Definition detectDenseHexagon (total : Z) : bool := 240 <? total.

Section WithGrid.
Context {grid : H3} {format : NumberFormat}.

Definition calculateCoverageImprovement (currentRes targetRes : Z) : string :=
  let resolutionDiff := targetRes - currentRes in
  let estimatedHexagons := Math_pow 7 resolutionDiff in
  let improvement :=
    if Qle_bool 49 estimatedHexagons then "excellent"
    else if Qle_bool 7 estimatedHexagons then "good"
    else if Qle_bool 2 estimatedHexagons then "moderate"
    else "minimal" in
  improvement +:+ " (" +:+ numberToString estimatedHexagons +:+ "x more hexagons)".

(** The body of the [try] block of [splitHexagon]. *)
Definition splitHexagon_body (h3Id : string) (currentResolution targetResolution : Z)
  : outcome HexagonSplitResult :=
  if targetResolution <=? currentResolution then
    Throws "Target resolution must be higher than current resolution"
  else
    childHexagons ← cellToChildren h3Id targetResolution ;
    splitHexagons ← map_outcome (fun childId =>
        center ← cellToLatLng childId ;
        Returns {| h3Id := childId;
                   parentH3Id := h3Id;
                   resolution := targetResolution;
                   center := center;
                   status := "queued" |}) childHexagons ;
    let coverageImprovement :=
      calculateCoverageImprovement currentResolution targetResolution in
    Returns {| originalHexagon := h3Id;
               splitHexagons := splitHexagons;
               totalSubHexagons := Z.of_nat (length childHexagons);
               splitReason := "Dense hexagon with >240 businesses - split for better coverage";
               estimatedCoverage := coverageImprovement |}.

Definition splitHexagon (h3Id : string) (currentResolution targetResolution : Z)
  : outcome HexagonSplitResult :=
  match splitHexagon_body h3Id currentResolution targetResolution with
  | Returns result => Returns result
  | Throws message => Throws ("Failed to split hexagon " +:+ h3Id +:+ ": " +:+ message)
  end.
End WithGrid.

Definition validateSplitConfiguration (currentResolution targetResolution : Z) : bool :=
  if targetResolution <=? currentResolution then false
  else if 2 <? targetResolution - currentResolution then false
  else if 12 <? targetResolution then false
  else true.

(** *** mergeSubHexagonResults *)

Record Business : Type := { id : string }.

Record SubResult : Type := {
  sub_h3Id : string;
  businesses : list Business;
  total : Z;
}.

(** One line of [subHexagonStatus]: the template
    [`${h3Id}: ${status} (${total} businesses)`]. *)
Definition statusLine (r : SubResult) : string :=
  let status := if 240 <? total r then "dense" else "fetched" in
  sub_h3Id r +:+ ": " +:+ status +:+ " (" +:+ pretty (total r) +:+ " businesses)".

Record MergeResult : Type := {
  totalBusinesses : Z;
  uniqueBusinesses : list Business;
  coverageStatus : string;
  subHexagonStatus : list string;
}.

(** The inner loop: [businessIds] is the [Set], [allBusinesses] the array. *)
Definition addUnique (acc : gset string * list Business) (business : Business)
  : gset string * list Business :=
  let '(businessIds, allBusinesses) := acc in
  if decide (id business ∈ businessIds) then acc
  else ({[id business]} ∪ businessIds, (allBusinesses ++ [business])%list).

Record MergeLoop : Type := {
  loop_total : Z;
  loop_status : list string;
  loop_seen : gset string * list Business;
}.

Definition mergeStep (st : MergeLoop) (result : SubResult) : MergeLoop :=
  {| loop_total := loop_total st + total result;
     loop_status := (loop_status st ++ [statusLine result])%list;
     loop_seen := foldl addUnique (loop_seen st) (businesses result) |}.

Definition mergeSubHexagonResults (originalH3Id : string) (splitResults : list SubResult)
  : MergeResult :=
  let st := foldl mergeStep
              {| loop_total := 0; loop_status := []; loop_seen := (∅, []) |}
              splitResults in
  let coverageStatus := "complete" in
  let coverageStatus :=
    if existsb (fun r => 240 <? total r) splitResults
    then "partial-dense" else coverageStatus in
  let coverageStatus :=
    if existsb (fun r => total r =? 0) splitResults
    then "partial-empty" else coverageStatus in
  {| totalBusinesses := loop_total st;
     uniqueBusinesses := snd (loop_seen st);
     coverageStatus := coverageStatus;
     subHexagonStatus := loop_status st |}.

End HexagonSplitter.

(** ** hexagonCoverage.ts *)

Module HexagonCoverage.

Record SearchPoint : Type := {
  lat : Q;
  lng : Q;
  radius : Q;
  type : string;
  description : string;
}.

Record HexagonCoverage : Type := {
  h3Id : string;
  center : LatLng;
  searchPoints : list SearchPoint;
  totalRadius : Q;
  coverageStrategy : string;
}.

Section WithCollaborators.
Context {grid : H3} {turf : Turf} {format : NumberFormat}.

(** The call in the loop of [calculateOptimalRadius]:
    [turf.distance(turf.point([center[1], center[0]]),
                   turf.point([corner[1], corner[0]]), 'meters')]. *)
Definition cornerDistance (center : LatLng) (corner : LngLat) : outcome Q :=
  distance (snd center, fst center) (snd corner, fst corner) (BareString "meters").

(** The [for (const corner of boundary)] loop of [calculateOptimalRadius]. *)
Fixpoint farthestCorner (center : LatLng) (boundary : list LngLat) (maxDistance : Q)
  : outcome Q :=
  match boundary with
  | [] => Returns maxDistance
  | corner :: rest =>
      d ← cornerDistance center corner ;
      farthestCorner center rest (Qmax maxDistance d)
  end.

Definition calculateOptimalRadius (center : LatLng) (boundary : list LngLat) : Q :=
  match farthestCorner center boundary 0%Q with
  | Returns maxDistance =>
      let estimatedInradius := 1060%Q in
      let safeRadius := Qmin (maxDistance * (9 # 10))%Q (estimatedInradius * (11 # 10))%Q in
      Math_round safeRadius
  | Throws _ => 1060%Q
  end.

(** A corner probe reads index 0 of a boundary entry as its [lat] and
    index 1 as its [lng]. *)
Definition generateCornerSearches (center : LatLng) (boundary : list LngLat)
    (primaryRadius : Q) (maxCorners : nat) : list SearchPoint :=
  let estimatedInradius := 1060%Q in
  let maxSafeRadius := (estimatedInradius * (9 # 10))%Q in
  let cornerRadius := Qmin (primaryRadius * (6 # 10))%Q maxSafeRadius in
  let cornersToUse := Nat.min maxCorners (length boundary) in
  imap (fun i corner =>
          {| lat := fst corner;
             lng := snd corner;
             radius := cornerRadius;
             type := "corner";
             description := "Corner " +:+ pretty (i + 1)%nat +:+ " coverage point" |})
       (take cornersToUse boundary).

(** [boundary[(i + 1) % boundary.length]] is always in range inside the
    loop; the default of [nth] is never used. *)
Definition generateEdgeSearches (center : LatLng) (boundary : list LngLat)
    (primaryRadius : Q) (maxEdges : nat) : list SearchPoint :=
  let estimatedInradius := 1060%Q in
  let maxSafeRadius := (estimatedInradius * (9 # 10))%Q in
  let edgeRadius := Qmin (primaryRadius * (8 # 10))%Q maxSafeRadius in
  let edgesToUse := Nat.min maxEdges (length boundary) in
  imap (fun i currentCorner =>
          let nextCorner := nth ((i + 1) mod length boundary) boundary (0, 0)%Q in
          let midLat := ((fst currentCorner + fst nextCorner) / 2)%Q in
          let midLng := ((snd currentCorner + snd nextCorner) / 2)%Q in
          {| lat := midLat;
             lng := midLng;
             radius := edgeRadius;
             type := "edge";
             description := "Edge " +:+ pretty (i + 1)%nat +:+ " midpoint coverage" |})
       (take edgesToUse boundary).

Definition calculateHexagonArea (h3Id : string) : Q :=
  match cellArea h3Id with
  | Returns area => area
  | Throws _ => 0%Q
  end.

Definition primaryProbe (center : LatLng) (optimizedRadius : Q) : SearchPoint :=
  {| lat := fst center;
     lng := snd center;
     radius := optimizedRadius;
     type := "primary";
     description := "Center point with H3-optimized "
                      +:+ toFixed (optimizedRadius / 1000)%Q 1 +:+ "km radius" |}.

Definition generateAdaptiveSearchPoints (center : LatLng) (boundary : list LngLat)
    (primaryRadius hexagonArea : Q) : list SearchPoint :=
  let optimizedRadius := primaryRadius in
  let searchPoints := [primaryProbe center optimizedRadius] in
  if Qgtb hexagonArea 8 then
    let cornerPoints := generateCornerSearches center boundary optimizedRadius 3 in
    let edgePoints := generateEdgeSearches center boundary optimizedRadius 2 in
    (searchPoints ++ cornerPoints ++ edgePoints)%list
  else if Qgtb hexagonArea 3 then
    let cornerPoints := generateCornerSearches center boundary optimizedRadius 2 in
    (searchPoints ++ cornerPoints)%list
  else
    searchPoints.

(** The [try] block of [generateSearchPoints]. *)
Definition generateSearchPoints_body (h3Id : string) : outcome HexagonCoverage :=
  center ← cellToLatLng h3Id ;
  boundary ← cellToBoundary h3Id ;
  let primaryRadius := calculateOptimalRadius center boundary in
  let optimizedRadius := primaryRadius in
  let hexagonArea := calculateHexagonArea h3Id in
  let searchPoints :=
    generateAdaptiveSearchPoints center boundary optimizedRadius hexagonArea in
  Returns {| h3Id := h3Id;
             center := center;
             searchPoints := searchPoints;
             totalRadius := optimizedRadius;
             coverageStrategy := "adaptive-coverage-optimized" |}.

Definition generateSearchPoints (h3Id : string) : outcome HexagonCoverage :=
  match generateSearchPoints_body h3Id with
  | Returns coverage => Returns coverage
  | Throws _ => Throws ("Failed to generate search points for hexagon " +:+ h3Id)
  end.

Definition isType (t : string) (p : SearchPoint) : bool :=
  bool_decide (type p = t).

Definition validateCoverage (hexagonCoverage : HexagonCoverage) : bool :=
  let searchPoints := searchPoints hexagonCoverage in
  if (length searchPoints =? 0)%nat then false
  else
    match find (isType "primary") searchPoints with
    | None => false
    | Some primaryPoint =>
        let cornerPoints := List.filter (isType "corner") searchPoints in
        let hexagonArea := calculateHexagonArea (h3Id hexagonCoverage) in
        if Qgtb hexagonArea 10 && (length cornerPoints <? 2)%nat then false
        else true
    end.
End WithCollaborators.

End HexagonCoverage.

(** ** apiQuotaManager.ts *)

Module APIQuotaManager.

Record QuotaEstimate : Type := {
  estimatedCalls : Q;
  currentDailyUsage : Z;
  remainingQuota : Z;
  canProcessRequest : bool;
  riskLevel : string;
  recommendations : list string;
}.

(** The private fields of the class; time stamps are milliseconds. *)
Record APIQuotaManager : Type := {
  dailyUsage : Z;
  lastReset : Z;
  dailyLimit : Z;
  perSecondLimit : Z;
  currentSecondUsage : Z;
  lastSecondReset : Z;
}.

(** [new APIQuotaManager(dailyLimit, perSecondLimit)] at time [now]. *)
Definition new (now dailyLimit perSecondLimit : Z) : APIQuotaManager :=
  {| dailyUsage := 0; lastReset := now;
     dailyLimit := dailyLimit; perSecondLimit := perSecondLimit;
     currentSecondUsage := 0; lastSecondReset := now |}.

Definition resetDailyCounter (now : Z) (q : APIQuotaManager) : APIQuotaManager :=
  {| dailyUsage := 0; lastReset := now;
     dailyLimit := dailyLimit q; perSecondLimit := perSecondLimit q;
     currentSecondUsage := currentSecondUsage q; lastSecondReset := lastSecondReset q |}.

Definition resetPerSecondCounter (now : Z) (q : APIQuotaManager) : APIQuotaManager :=
  {| dailyUsage := dailyUsage q; lastReset := lastReset q;
     dailyLimit := dailyLimit q; perSecondLimit := perSecondLimit q;
     currentSecondUsage := 0; lastSecondReset := now |}.

Definition trackAPICall (q : APIQuotaManager) : APIQuotaManager :=
  {| dailyUsage := dailyUsage q + 1; lastReset := lastReset q;
     dailyLimit := dailyLimit q; perSecondLimit := perSecondLimit q;
     currentSecondUsage := currentSecondUsage q + 1;
     lastSecondReset := lastSecondReset q |}.

Record QuotaStatus : Type := {
  dailyUsed : Z;
  dailyRemaining : Z;
  dailyUsagePercentage : Q;
  perSecondUsed : Z;
  perSecondRemaining : Z;
  status_lastReset : Z;
}.

Definition getQuotaStatus (q : APIQuotaManager) : QuotaStatus :=
  {| dailyUsed := dailyUsage q;
     dailyRemaining := dailyLimit q - dailyUsage q;
     (* with a zero limit this is [NaN] or [Infinity] in the source, 0 here *)
    dailyUsagePercentage := (inject_Z (dailyUsage q) / inject_Z (dailyLimit q) * 100)%Q;
     perSecondUsed := currentSecondUsage q;
     perSecondRemaining := perSecondLimit q - currentSecondUsage q;
     status_lastReset := lastReset q |}.

(** [remainingQuota * c] for a decimal literal [c] of the source. *)
Definition quotaShare (remainingQuota : Z) (c : Q) : Q :=
  Double.mul (inject_Z remainingQuota) (Double.round c).

(** The defaults of the two optional parameters are [7] and [1.5]; the
    two parameters are doubles, and so are the products. *)
Definition estimateQuotaForCity (q : APIQuotaManager) (hexagonCount : Z)
    (averageSearchPointsPerHexagon estimatedPagesPerSearch : Q) : QuotaEstimate :=
  let estimatedCalls :=
    Double.mul (Double.mul (inject_Z hexagonCount) averageSearchPointsPerHexagon)
               estimatedPagesPerSearch in
  let currentDailyUsage := dailyUsage q in
  let remainingQuota := dailyLimit q - currentDailyUsage in
  let canProcessRequest := Qle_bool estimatedCalls (inject_Z remainingQuota) in
  let '(riskLevel, recommendations) :=
    if Qgtb estimatedCalls (quotaShare remainingQuota (8 # 10)) then
      ("critical", ["Request exceeds 80% of remaining quota";
                    "Consider processing in smaller batches";
                    "Wait for daily quota reset"])
    else if Qgtb estimatedCalls (quotaShare remainingQuota (6 # 10)) then
      ("high", ["Request uses significant portion of remaining quota";
                "Monitor usage closely"])
    else if Qgtb estimatedCalls (quotaShare remainingQuota (4 # 10)) then
      ("medium", ["Request uses moderate portion of remaining quota";
                  "Proceed with caution"])
    else
      ("low", ["Request well within quota limits";
               "Safe to proceed"]) in
  {| estimatedCalls := estimatedCalls;
     currentDailyUsage := currentDailyUsage;
     remainingQuota := remainingQuota;
     canProcessRequest := canProcessRequest;
     riskLevel := riskLevel;
     recommendations := recommendations |}.

Definition resetQuota (now : Z) (q : APIQuotaManager) : APIQuotaManager :=
  {| dailyUsage := 0; lastReset := now;
     dailyLimit := dailyLimit q; perSecondLimit := perSecondLimit q;
     currentSecondUsage := 0; lastSecondReset := now |}.

End APIQuotaManager.

(** ** rateLimiter.ts *)

Module RateLimiter.

(** A queued closure [() => { this.makeRequest(); resolve(); }] is named
    by the caller whose promise it resolves. *)
Definition caller : Type := nat.

Record RateLimiter : Type := {
  dailyCalls : Z;
  lastReset : Z;
  perSecondCalls : Z;
  lastSecondReset : Z;
  requestQueue : list caller;
  isProcessing : bool;
  maxPerSecond : Z;
  maxPerDay : Z;
}.

(** The limiter together with what the event loop holds for it: the
    promises already resolved and the pending
    [setTimeout(() => this.processQueue(), 1000)] timers.  A
    [processQueue] loop parked at its [await] is exactly a state with
    [isProcessing = true]. *)
Record World : Type := {
  limiter : RateLimiter;
  resolved : list caller;
  retryTimers : nat;
}.

Definition new (now maxPerSecond maxPerDay : Z) : RateLimiter :=
  {| dailyCalls := 0; lastReset := now; perSecondCalls := 0; lastSecondReset := now;
     requestQueue := []; isProcessing := false;
     maxPerSecond := maxPerSecond; maxPerDay := maxPerDay |}.

Definition boot (now maxPerSecond maxPerDay : Z) : World :=
  {| limiter := new now maxPerSecond maxPerDay; resolved := []; retryTimers := 0 |}.

Definition resetDailyCounter (now : Z) (r : RateLimiter) : RateLimiter :=
  {| dailyCalls := 0; lastReset := now;
     perSecondCalls := perSecondCalls r; lastSecondReset := lastSecondReset r;
     requestQueue := requestQueue r; isProcessing := isProcessing r;
     maxPerSecond := maxPerSecond r; maxPerDay := maxPerDay r |}.

Definition resetPerSecondCounter (now : Z) (r : RateLimiter) : RateLimiter :=
  {| dailyCalls := dailyCalls r; lastReset := lastReset r;
     perSecondCalls := 0; lastSecondReset := now;
     requestQueue := requestQueue r; isProcessing := isProcessing r;
     maxPerSecond := maxPerSecond r; maxPerDay := maxPerDay r |}.

Definition resetDailyQuota (now : Z) (r : RateLimiter) : RateLimiter :=
  resetDailyCounter now r.

Definition canMakeRequest (r : RateLimiter) : bool :=
  if maxPerDay r <=? dailyCalls r then false
  else if maxPerSecond r <=? perSecondCalls r then false
  else true.

Definition makeRequest (r : RateLimiter) : RateLimiter :=
  {| dailyCalls := dailyCalls r + 1; lastReset := lastReset r;
     perSecondCalls := perSecondCalls r + 1; lastSecondReset := lastSecondReset r;
     requestQueue := requestQueue r; isProcessing := isProcessing r;
     maxPerSecond := maxPerSecond r; maxPerDay := maxPerDay r |}.

Definition setQueue (queue : list caller) (r : RateLimiter) : RateLimiter :=
  {| dailyCalls := dailyCalls r; lastReset := lastReset r;
     perSecondCalls := perSecondCalls r; lastSecondReset := lastSecondReset r;
     requestQueue := queue; isProcessing := isProcessing r;
     maxPerSecond := maxPerSecond r; maxPerDay := maxPerDay r |}.

Definition setProcessing (b : bool) (r : RateLimiter) : RateLimiter :=
  {| dailyCalls := dailyCalls r; lastReset := lastReset r;
     perSecondCalls := perSecondCalls r; lastSecondReset := lastSecondReset r;
     requestQueue := requestQueue r; isProcessing := b;
     maxPerSecond := maxPerSecond r; maxPerDay := maxPerDay r |}.

(** One evaluation of the [while] of [processQueue]: either the head of
    the queue is shifted, run, and the loop parks at
    [await new Promise(resolve => setTimeout(resolve, 20))], or the loop
    is left, [isProcessing] is cleared and, if callers remain, a retry
    is scheduled. *)
Definition loopTurn (w : World) : World :=
  let r := limiter w in
  match requestQueue r with
  | nextRequest :: rest =>
      if canMakeRequest r then
        {| limiter := makeRequest (setQueue rest r);
           resolved := (resolved w ++ [nextRequest])%list;
           retryTimers := retryTimers w |}
      else
        {| limiter := setProcessing false r;
           resolved := resolved w;
           retryTimers := S (retryTimers w) |}
  | [] =>
      {| limiter := setProcessing false r;
         resolved := resolved w;
         retryTimers := retryTimers w |}
  end.

(** [processQueue] up to its first [await]. *)
Definition processQueue (w : World) : World :=
  let r := limiter w in
  if isProcessing r || (length (requestQueue r) =? 0)%nat then w
  else
    loopTurn {| limiter := setProcessing true r;
                resolved := resolved w;
                retryTimers := retryTimers w |}.

(** The executor of the promise of [waitForSlot], for caller [c]. *)
Definition waitForSlot (c : caller) (w : World) : World :=
  let r := limiter w in
  if canMakeRequest r then
    {| limiter := makeRequest r;
       resolved := (resolved w ++ [c])%list;
       retryTimers := retryTimers w |}
  else
    processQueue {| limiter := setQueue (requestQueue r ++ [c])%list r;
                    resolved := resolved w;
                    retryTimers := retryTimers w |}.

(** The tasks the event loop can run on a limiter. *)
Inductive task : Type :=
| CallWaitForSlot (c : caller)      (* a client calls [waitForSlot()] *)
| LoopResumes                       (* the 20 ms pause of the parked loop ends *)
| RetryFires                        (* a 1000 ms retry timer fires *)
| DailyInterval (now : Z)           (* [setInterval], 24 h *)
| SecondInterval (now : Z)          (* [setInterval], 1 s *)
| CallResetDailyQuota (now : Z).    (* a client calls [resetDailyQuota()] *)

Definition withLimiter (f : RateLimiter -> RateLimiter) (w : World) : World :=
  {| limiter := f (limiter w); resolved := resolved w; retryTimers := retryTimers w |}.

(** A task runs to completion; [None] when it is not pending in [w]. *)
Definition step (t : task) (w : World) : option World :=
  match t with
  | CallWaitForSlot c => Some (waitForSlot c w)
  | LoopResumes =>
      if isProcessing (limiter w) then Some (loopTurn w) else None
  | RetryFires =>
      match retryTimers w with
      | O => None
      | S n => Some (processQueue {| limiter := limiter w;
                                     resolved := resolved w;
                                     retryTimers := n |})
      end
  | DailyInterval now => Some (withLimiter (resetDailyCounter now) w)
  | SecondInterval now => Some (withLimiter (resetPerSecondCounter now) w)
  | CallResetDailyQuota now => Some (withLimiter (resetDailyQuota now) w)
  end.

(** A schedule is run task by task; a task that is not pending is skipped. *)
Fixpoint run (schedule : list task) (w : World) : World :=
  match schedule with
  | [] => w
  | t :: rest => run rest (default w (step t w))
  end.

(** What one task can do to the daily counter: leave it, reset it, or
    admit one call; an admission is always preceded, in the same task, by
    [canMakeRequest()] answering true on the same counters. *)
Inductive dailyEffect (w w' : World) : Prop :=
| Untouched :
    dailyCalls (limiter w') = dailyCalls (limiter w) -> dailyEffect w w'
| DailyReset :
    dailyCalls (limiter w') = 0 -> dailyEffect w w'
| Admission :
    canMakeRequest (limiter w) = true ->
    dailyCalls (limiter w') = dailyCalls (limiter w) + 1 -> dailyEffect w w'.

(** The budget invariant of the specification: [0 <= daily_used <= daily_limit]. *)
Definition withinDailyBudget (r : RateLimiter) : Prop :=
  0 <= dailyCalls r <= maxPerDay r.

End RateLimiter.

(** ** yelpSearch.ts *)

Module YelpSearch.

Record YelpBusiness : Type := {
  id : string;
  name : string;
  coordinates : LatLng;
}.

(** The JSON body of one page; a field may be missing. *)
Record Page : Type := {
  page_total : option Z;
  page_businesses : option (list YelpBusiness);
  page_region : option string;
}.

(** The remote search API behind [makeYelpSearch(lat, lng, radius, offset)]:
    a transport error or a non-2xx answer throws. *)
Class SearchApi : Type := {
  makeYelpSearch : Q -> Q -> Q -> Z -> outcome Page;
}.

Record YelpSearchResult : Type := {
  businesses : list YelpBusiness;
  total : Z;
  region : option string;
  h3Id : string;
  status : string;
  error : option string;
}.

(** [deduplicateBusinesses]: the [Map] keeps its keys in insertion order,
    so it is an association list that is only ever appended to. *)
Definition dedupStep (uniqueMap : list (string * YelpBusiness)) (business : YelpBusiness)
  : list (string * YelpBusiness) :=
  if bool_decide (id business ∈ uniqueMap.*1) then uniqueMap
  else (uniqueMap ++ [(id business, business)])%list.

Definition deduplicateBusinesses (businesses : list YelpBusiness) : list YelpBusiness :=
  (foldl dedupStep [] businesses).*2.

Definition limit : Z := 50.
Definition maxOffset : Z := 200.

Section WithApi.
Context {api : SearchApi}.

(** The [while] loop of [searchPointWithPagination].  Every completed
    turn awaits a slot of the rate limiter and then books one call on
    the quota manager; the result exists once those awaits have
    resolved. *)
Equations? paginate (lat lng radius : Q) (total offset : Z)
    (allBusinesses : list YelpBusiness) (quota : APIQuotaManager.APIQuotaManager)
  : outcome (list YelpBusiness) * APIQuotaManager.APIQuotaManager
  by wf (Z.to_nat (maxOffset - offset)) lt :=
  paginate lat lng radius total offset allBusinesses quota
    with decide (offset < Z.min total maxOffset ∧ offset < maxOffset) => {
    | right _ => (Returns allBusinesses, quota)
    | left _ with makeYelpSearch lat lng radius offset => {
      | Throws message => (Throws message, quota)
      | Returns nextResult with page_businesses nextResult => {
        | Some (b :: bs) =>
            paginate lat lng radius total (offset + limit)
              (allBusinesses ++ b :: bs)%list (APIQuotaManager.trackAPICall quota)
        | _ => (Returns allBusinesses, quota) } } }.
Proof. unfold maxOffset, limit in *. lia. Qed.

(** The [try] block up to the deduplication: the first page and every
    item fetched.  The quota manager is a shared object, so the calls
    booked before an exception stay booked. *)
Definition fetchAllPages (lat lng radius : Q) (quota : APIQuotaManager.APIQuotaManager)
  : outcome (Page * list YelpBusiness) * APIQuotaManager.APIQuotaManager :=
  let offset := 0 in
  match makeYelpSearch lat lng radius 0 with
  | Throws message => (Throws message, quota)
  | Returns firstResult =>
      let total := default 0 (page_total firstResult) in
      let allBusinesses := default [] (page_businesses firstResult) in
      if (limit <? total) && (offset <? maxOffset) then
        let offset := offset + limit in
        match paginate lat lng radius total offset allBusinesses quota with
        | (Returns allBusinesses, quota) => (Returns (firstResult, allBusinesses), quota)
        | (Throws message, quota) => (Throws message, quota)
        end
      else
        (Returns (firstResult, allBusinesses), quota)
  end.

Definition searchPointWithPagination (lat lng radius : Q)
    (quota : APIQuotaManager.APIQuotaManager)
  : YelpSearchResult * APIQuotaManager.APIQuotaManager :=
  match fetchAllPages lat lng radius quota with
  | (Returns (firstResult, allBusinesses), quota) =>
      let uniqueBusinesses := deduplicateBusinesses allBusinesses in
      ({| businesses := uniqueBusinesses;
          total := Z.of_nat (length uniqueBusinesses);
          region := page_region firstResult;
          h3Id := "";
          status := "success";
          error := None |}, quota)
  | (Throws message, quota) =>
      ({| businesses := [];
          total := 0;
          region := None;
          h3Id := "";
          status := "failed";
          error := Some message |}, quota)
  end.

(** *** The items a probe fetches, as the specification words it

    Pagination is capped at offset < 200: after the first page, the pages
    at the offsets 50, 100 and 150 are requested for as long as the offset
    lies below the count the first page reported and the page before held
    an item.  An exception of any request is the exception of the
    probe. *)
Fixpoint furtherPages (lat lng radius : Q) (reported : Z) (offsets : list Z)
  : outcome (list YelpBusiness) :=
  match offsets with
  | [] => Returns []
  | offset :: later =>
      if offset <? reported then
        page ← makeYelpSearch lat lng radius offset ;
        match page_businesses page with
        | Some (b :: bs) =>
            more ← furtherPages lat lng radius reported later ;
            Returns (b :: bs ++ more)%list
        | _ => Returns []
        end
      else Returns []
  end.

Definition itemsFetched (lat lng radius : Q) : outcome (list YelpBusiness) :=
  firstPage ← makeYelpSearch lat lng radius 0 ;
  more ← furtherPages lat lng radius (default 0 (page_total firstPage)) [50; 100; 150] ;
  Returns (default [] (page_businesses firstPage) ++ more)%list.
End WithApi.

End YelpSearch.

(** ** hexagonProcessor.ts *)

Module HexagonProcessor.

Record HexagonProcessingStatus : Type := {
  h3Id : string;
  resolution : Z;
  parentH3Id : option string;
  childH3Ids : option (list string);
  status : string;
  coverageQuality : string;
  searchPointsCount : Z;
  totalBusinesses : option Z;
  error : option string;
  splitResult : option HexagonSplitter.HexagonSplitResult;
  processingTime : option Z;
  needsSubdivision : bool;
  subdivisionResult : option HexagonSplitter.HexagonSplitResult;
}.

(** The six [Map] fields of the class. *)
Record HexagonProcessor : Type := {
  processingQueue : gmap string HexagonProcessingStatus;
  completedHexagons : gmap string HexagonProcessingStatus;
  failedHexagons : gmap string HexagonProcessingStatus;
  subdivisionQueue : gmap string HexagonProcessingStatus;
  parentChildRelationships : gmap string (list string);
  childParentRelationships : gmap string string;
}.

Definition new : HexagonProcessor :=
  {| processingQueue := ∅; completedHexagons := ∅; failedHexagons := ∅;
     subdivisionQueue := ∅; parentChildRelationships := ∅;
     childParentRelationships := ∅ |}.

Definition withStatus (status : string) (resolution : Z) (h : HexagonProcessingStatus)
  : HexagonProcessingStatus :=
  {| h3Id := h3Id h; resolution := resolution;
     parentH3Id := parentH3Id h; childH3Ids := childH3Ids h;
     status := status; coverageQuality := coverageQuality h;
     searchPointsCount := searchPointsCount h; totalBusinesses := totalBusinesses h;
     error := error h; splitResult := splitResult h;
     processingTime := processingTime h; needsSubdivision := needsSubdivision h;
     subdivisionResult := subdivisionResult h |}.

Definition updateProcessingStatus (h3Id : string) (status : string) (resolution : Z)
    (p : HexagonProcessor) : HexagonProcessor :=
  let currentStatus :=
    default {| h3Id := h3Id; resolution := resolution;
               parentH3Id := None; childH3Ids := None;
               status := "queued"; coverageQuality := "unknown";
               searchPointsCount := 0; totalBusinesses := None;
               error := None; splitResult := None; processingTime := None;
               needsSubdivision := false; subdivisionResult := None |}
            (processingQueue p !! h3Id) in
  {| processingQueue := <[h3Id := withStatus status resolution currentStatus]> (processingQueue p);
     completedHexagons := completedHexagons p;
     failedHexagons := failedHexagons p;
     subdivisionQueue := subdivisionQueue p;
     parentChildRelationships := parentChildRelationships p;
     childParentRelationships := childParentRelationships p |}.

Definition childStatus (parent : string) (targetResolution : Z)
    (childHexagon : HexagonSplitter.SplitHexagon) : HexagonProcessingStatus :=
  {| h3Id := HexagonSplitter.h3Id childHexagon; resolution := targetResolution;
     parentH3Id := Some parent; childH3Ids := None;
     status := "queued"; coverageQuality := "pending";
     searchPointsCount := 0; totalBusinesses := None;
     error := None; splitResult := None; processingTime := Some 0;
     needsSubdivision := false; subdivisionResult := None |}.

(** One turn of the [for (const childHexagon of ...)] loop. *)
Definition queueChild (parent : string) (targetResolution : Z)
    (p : HexagonProcessor) (childHexagon : HexagonSplitter.SplitHexagon) : HexagonProcessor :=
  let child := HexagonSplitter.h3Id childHexagon in
  {| processingQueue := processingQueue p;
     completedHexagons := completedHexagons p;
     failedHexagons := failedHexagons p;
     subdivisionQueue :=
       <[child := childStatus parent targetResolution childHexagon]> (subdivisionQueue p);
     parentChildRelationships := parentChildRelationships p;
     childParentRelationships := <[child := parent]> (childParentRelationships p) |}.

Section WithGrid.
Context {grid : H3} {format : NumberFormat}.

Definition handleDenseHexagons (h3Id : string) (totalBusinesses currentResolution : Z)
    (p : HexagonProcessor) : HexagonProcessingStatus * HexagonProcessor :=
  let attempt :=
    if negb (HexagonSplitter.detectDenseHexagon totalBusinesses) then
      Throws ("Hexagon " +:+ h3Id +:+ " is not dense ("
                +:+ pretty totalBusinesses +:+ " businesses)")
    else
      HexagonSplitter.splitHexagon h3Id currentResolution (currentResolution + 1) in
  match attempt with
  | Returns splitResult =>
      let targetResolution := currentResolution + 1 in
      let childH3Ids :=
        HexagonSplitter.h3Id <$> HexagonSplitter.splitHexagons splitResult in
      let status :=
        {| h3Id := h3Id; resolution := currentResolution;
           parentH3Id := None; childH3Ids := Some childH3Ids;
           status := "split"; coverageQuality := "dense-split";
           searchPointsCount := 0; totalBusinesses := Some totalBusinesses;
           error := None; splitResult := Some splitResult;
           processingTime := Some 0; needsSubdivision := true;
           subdivisionResult := Some splitResult |} in
      let p := updateProcessingStatus h3Id "split" currentResolution p in
      let p :=
        {| processingQueue := processingQueue p;
           completedHexagons := <[h3Id := status]> (completedHexagons p);
           failedHexagons := failedHexagons p;
           subdivisionQueue := subdivisionQueue p;
           parentChildRelationships := <[h3Id := childH3Ids]> (parentChildRelationships p);
           childParentRelationships := childParentRelationships p |} in
      (status,
       foldl (queueChild h3Id targetResolution) p
             (HexagonSplitter.splitHexagons splitResult))
  | Throws message =>
      let failedStatus :=
        {| h3Id := h3Id; resolution := currentResolution;
           parentH3Id := None; childH3Ids := None;
           status := "failed"; coverageQuality := "unknown";
           searchPointsCount := 0; totalBusinesses := None;
           error := Some message; splitResult := None;
           processingTime := Some 0; needsSubdivision := false;
           subdivisionResult := None |} in
      let p := updateProcessingStatus h3Id "failed" currentResolution p in
      (failedStatus,
       {| processingQueue := processingQueue p;
          completedHexagons := completedHexagons p;
          failedHexagons := <[h3Id := failedStatus]> (failedHexagons p);
          subdivisionQueue := subdivisionQueue p;
          parentChildRelationships := parentChildRelationships p;
          childParentRelationships := childParentRelationships p |})
  end.
End WithGrid.

Record ProcessingStats : Type := {
  queued : Z;
  processing : Z;
  completed : Z;
  failed : Z;
  split : Z;
  stats_total : Z;
  resolution7 : Z;
  resolution8 : Z;
  stats_subdivisionQueue : Z;
  stats_parentChildRelationships : Z;
}.

(** [Array.from(m.values()).filter(pred).length] *)
Definition countValues (pred : HexagonProcessingStatus -> bool)
    (m : gmap string HexagonProcessingStatus) : Z :=
  Z.of_nat (length (List.filter pred (map_to_list m).*2)).

Definition getProcessingStats (p : HexagonProcessor) : ProcessingStats :=
  let queued := countValues (fun h => bool_decide (status h = "queued")) (processingQueue p) in
  let processing :=
    countValues (fun h => bool_decide (status h = "processing")) (processingQueue p) in
  let completed := Z.of_nat (size (completedHexagons p)) in
  let failed := Z.of_nat (size (failedHexagons p)) in
  let split := countValues (fun h => bool_decide (status h = "split")) (completedHexagons p) in
  let resolution7 := countValues (fun h => resolution h =? 7) (completedHexagons p) in
  let resolution8 := countValues (fun h => resolution h =? 8) (completedHexagons p) in
  let subdivisionQueue := Z.of_nat (size (subdivisionQueue p)) in
  let parentChildRelationships := Z.of_nat (size (parentChildRelationships p)) in
  {| queued := queued;
     processing := processing;
     completed := completed;
     failed := failed;
     split := split;
     stats_total := queued + processing + completed + failed;
     resolution7 := resolution7;
     resolution8 := resolution8;
     stats_subdivisionQueue := subdivisionQueue;
     stats_parentChildRelationships := parentChildRelationships |}.

Definition clearHistory (p : HexagonProcessor) : HexagonProcessor :=
  {| processingQueue := ∅;
     completedHexagons := ∅;
     failedHexagons := ∅;
     subdivisionQueue := ∅;
     parentChildRelationships := ∅;
     childParentRelationships := ∅ |}.

End HexagonProcessor.

(** ** app/api/yelp/route.ts: the [clear_history] action *)

Module Route.

(** The three module-level singletons the route imports. *)
Record Server : Type := {
  hexagonProcessor : HexagonProcessor.HexagonProcessor;
  yelpQuotaManager : APIQuotaManager.APIQuotaManager;
  yelpRateLimiter : RateLimiter.RateLimiter;
}.

(** [hexagonProcessor.clearHistory()] as a step of the server: the method
    assigns to its own six maps and to nothing else. *)
Definition processorClearHistory (s : Server) : Server :=
  {| hexagonProcessor := HexagonProcessor.clearHistory (hexagonProcessor s);
     yelpQuotaManager := yelpQuotaManager s;
     yelpRateLimiter := yelpRateLimiter s |}.

(** [yelpQuotaManager.trackAPICall()] as a step of the server. *)
Definition trackAPICall (s : Server) : Server :=
  {| hexagonProcessor := hexagonProcessor s;
     yelpQuotaManager := APIQuotaManager.trackAPICall (yelpQuotaManager s);
     yelpRateLimiter := yelpRateLimiter s |}.

(** The three singletons as the modules create them at time [now]. *)
Definition boot (now : Z) : Server :=
  {| hexagonProcessor := HexagonProcessor.new;
     yelpQuotaManager := APIQuotaManager.new now 5000 50;
     yelpRateLimiter := RateLimiter.new now 50 5000 |}.

(** [clearHistory()] of the route at time [now]; none of the three calls
    throws, so the answer is always the success body. *)
Definition clearHistory (now : Z) (s : Server) : Server :=
  {| hexagonProcessor := HexagonProcessor.clearHistory (hexagonProcessor s);
     yelpQuotaManager := APIQuotaManager.resetQuota now (yelpQuotaManager s);
     yelpRateLimiter := RateLimiter.resetDailyQuota now (yelpRateLimiter s) |}.

End Route.

(** ** hexagonSplitter.ts: monitoring *)

Module SplitStats.

Record SplitStats : Type := {
  originalHexagon : string;
  subHexagonCount : Z;
  resolutionIncrease : Z;
  estimatedCoverage : string;
  splitReason : string;
}.

Definition getSplitStats (splitResult : HexagonSplitter.HexagonSplitResult) : SplitStats :=
  {| originalHexagon := HexagonSplitter.originalHexagon splitResult;
     subHexagonCount := HexagonSplitter.totalSubHexagons splitResult;
     resolutionIncrease := 1;
     estimatedCoverage := HexagonSplitter.estimatedCoverage splitResult;
     splitReason := HexagonSplitter.splitReason splitResult |}.

End SplitStats.

(** ** hexagonCoverage.ts: monitoring *)

Module CoverageStats.

Record CoverageStats : Type := {
  totalPoints : nat;
  primaryRadius : Q;
  cornerPoints : nat;
  edgePoints : nat;
  estimatedCoverage : string;
}.

(** [primaryPoint?.radius || 0]: a missing probe and a zero radius both
    give 0. *)
Definition getCoverageStats (hexagonCoverage : HexagonCoverage.HexagonCoverage)
  : CoverageStats :=
  let searchPoints := HexagonCoverage.searchPoints hexagonCoverage in
  let primaryPoint := find (HexagonCoverage.isType "primary") searchPoints in
  let cornerPoints := List.filter (HexagonCoverage.isType "corner") searchPoints in
  let edgePoints := List.filter (HexagonCoverage.isType "edge") searchPoints in
  let estimatedCoverage :=
    if (5 <=? length searchPoints)%nat then "excellent"
    else if (3 <=? length searchPoints)%nat then "good"
    else if (2 <=? length searchPoints)%nat then "fair"
    else "poor" in
  {| totalPoints := length searchPoints;
     primaryRadius :=
       match primaryPoint with
       | Some p =>
           if Qeq_bool (HexagonCoverage.radius p) 0 then 0%Q else HexagonCoverage.radius p
       | None => 0%Q
       end;
     cornerPoints := length cornerPoints;
     edgePoints := length edgePoints;
     estimatedCoverage := estimatedCoverage |}.

End CoverageStats.

(** ** apiQuotaManager.ts: planning and trends *)

Module QuotaPlanning.
Import APIQuotaManager.

Record QuotaOptimization : Type := {
  maxHexagonsPerDay : Z;
  recommendedBatchSize : Z;
  (** [None] when the quotient is not a finite number (a zero batch size or
      a zero per-second limit). *)
  estimatedProcessingTime : option Q;
  costEfficiency : Q;
}.

(** [Math.floor(remainingQuota / 7)] on integers is the floor division of
    [Z]. *)
Definition optimizeProcessingStrategy (q : APIQuotaManager) (totalHexagons : Z)
    (targetCompletionTime : Z) : QuotaOptimization :=
  let remainingQuota := dailyLimit q - dailyUsage q in
  let maxHexagonsPerDay := remainingQuota / 7 in
  let estimatedCallsPerHexagon := 7 in
  let maxBatchSize := Z.min 50 (remainingQuota / estimatedCallsPerHexagon) in
  let estimatedProcessingTime :=
    if (maxBatchSize =? 0) || (perSecondLimit q =? 0) then None
    else Some ((inject_Z totalHexagons / inject_Z maxBatchSize)
               * (1000 / inject_Z (perSecondLimit q)))%Q in
  let costEfficiency := (1 / inject_Z estimatedCallsPerHexagon)%Q in
  {| maxHexagonsPerDay := maxHexagonsPerDay;
     recommendedBatchSize := maxBatchSize;
     estimatedProcessingTime := estimatedProcessingTime;
     costEfficiency := costEfficiency |}.

(** The method [canProcessRequest(estimatedCalls)]. *)
Definition canProcess (q : APIQuotaManager) (estimatedCalls : Q) : bool :=
  let remainingQuota := dailyLimit q - dailyUsage q in
  Qle_bool estimatedCalls (inject_Z remainingQuota).

Record UsageTrends : Type := {
  currentHour : Z;
  estimatedHourlyRate : Q;
  projectedDailyUsage : Q;
  timeToQuotaReset : Z;
}.

(** [getUsageTrends()] when [Date.now()] answers [now]. *)
Definition getUsageTrends (now : Z) (q : APIQuotaManager) : UsageTrends :=
  let timeSinceReset := now - lastReset q in
  let hoursSinceReset := (inject_Z timeSinceReset / inject_Z (1000 * 60 * 60))%Q in
  let currentHour := Qfloor hoursSinceReset in
  let estimatedHourlyRate := (inject_Z (dailyUsage q) / Qmax hoursSinceReset 1)%Q in
  let projectedDailyUsage := (estimatedHourlyRate * 24)%Q in
  let nextReset := lastReset q + 24 * 60 * 60 * 1000 in
  let timeToQuotaReset := nextReset - now in
  {| currentHour := currentHour;
     estimatedHourlyRate := estimatedHourlyRate;
     projectedDailyUsage := projectedDailyUsage;
     timeToQuotaReset := timeToQuotaReset |}.

(** Ranks of the four risk levels, for comparing them. *)
Definition riskRank (riskLevel : string) : nat :=
  if bool_decide (riskLevel = "low") then 0
  else if bool_decide (riskLevel = "medium") then 1
  else if bool_decide (riskLevel = "high") then 2
  else 3.

End QuotaPlanning.

(** ** rateLimiter.ts: status *)

Module LimiterStatus.
Import RateLimiter.

Record QuotaStatus : Type := {
  dailyUsed : Z;
  dailyRemaining : Z;
  perSecondUsed : Z;
  perSecondRemaining : Z;
}.

Definition getQuotaStatus (r : RateLimiter) : QuotaStatus :=
  {| dailyUsed := dailyCalls r;
     dailyRemaining := maxPerDay r - dailyCalls r;
     perSecondUsed := perSecondCalls r;
     perSecondRemaining := maxPerSecond r - perSecondCalls r |}.

(** The callers that called [waitForSlot] in a schedule, in call order. *)
Definition callersOf (schedule : list task) : list caller :=
  omap (fun t => match t with CallWaitForSlot c => Some c | _ => None end) schedule.

(** A schedule in which the daily counter is never reset. *)
Definition noDailyReset (schedule : list task) : bool :=
  forallb (fun t => match t with
                    | DailyInterval _ | CallResetDailyQuota _ => false
                    | _ => true
                    end) schedule.

End LimiterStatus.

(** ** yelpSearch.ts: the search of one hexagon *)

Module YelpEngine.

(** The two further functions of h3-js the engine uses. *)
Class H3Index : Type := {
  latLngToCell : Q -> Q -> Z -> outcome string;
  getResolution : string -> outcome Z;
}.

(** [searchResults] pairs every per-probe result with the probe the source
    stores in its [searchPoint] field. *)
Record HexagonYelpResult : Type := {
  h3Id : string;
  totalBusinesses : Z;
  uniqueBusinesses : list YelpSearch.YelpBusiness;
  searchResults : list (HexagonCoverage.SearchPoint * YelpSearch.YelpSearchResult);
  status : string;
  splitResult : option HexagonSplitter.HexagonSplitResult;
  coverageQuality : string;
  error : option string;
}.

Definition assessCoverageQuality (hexagonCoverage : HexagonCoverage.HexagonCoverage)
    (totalBusinesses : Z) : string :=
  let searchPoints := HexagonCoverage.searchPoints hexagonCoverage in
  if (7 <=? length searchPoints)%nat && (100 <? totalBusinesses) then "excellent"
  else if (5 <=? length searchPoints)%nat && (50 <? totalBusinesses) then "good"
  else if (3 <=? length searchPoints)%nat && (20 <? totalBusinesses) then "fair"
  else "poor".

(** The value the source leaves in [result.h3Id]. *)
Definition withH3Id (h3Id : string) (r : YelpSearch.YelpSearchResult)
  : YelpSearch.YelpSearchResult :=
  {| YelpSearch.businesses := YelpSearch.businesses r;
     YelpSearch.total := YelpSearch.total r;
     YelpSearch.region := YelpSearch.region r;
     YelpSearch.h3Id := h3Id;
     YelpSearch.status := YelpSearch.status r;
     YelpSearch.error := YelpSearch.error r |}.

(** The failure result of [searchHexagon]. *)
Definition failedResult (h3Id message : string) : HexagonYelpResult :=
  {| h3Id := h3Id;
     totalBusinesses := 0;
     uniqueBusinesses := [];
     searchResults := [];
     status := "failed";
     splitResult := None;
     coverageQuality := "unknown";
     error := Some message |}.

Section WithCollaborators.
Context {grid : H3} {index : H3Index} {turf : Turf} {format : NumberFormat}
        {api : YelpSearch.SearchApi}.

(** One turn of the loop of [validateBusinessBoundaries]: is the business
    pushed?  An exception of the grid lookup keeps it. *)
Definition keptByBoundary (h3Id : string) (business : YelpSearch.YelpBusiness) : bool :=
  match
    resolution ← getResolution h3Id ;
    latLngToCell (fst (YelpSearch.coordinates business))
                 (snd (YelpSearch.coordinates business)) resolution
  with
  | Returns businessH3Id => bool_decide (businessH3Id = h3Id)
  | Throws _ => true
  end.

Definition validateBusinessBoundaries (h3Id : string)
    (businesses : list YelpSearch.YelpBusiness) : list YelpSearch.YelpBusiness :=
  List.filter (keptByBoundary h3Id) businesses.

(** One turn of the loop of [searchAllPoints].  The awaited slot of the rate
    limiter is taken to resolve; [searchPointWithPagination] never throws,
    so the [catch] of the loop is not reached. *)
Definition searchOnePoint (h3Id : string)
    (acc : list (HexagonCoverage.SearchPoint * YelpSearch.YelpSearchResult)
           * APIQuotaManager.APIQuotaManager)
    (searchPoint : HexagonCoverage.SearchPoint)
  : list (HexagonCoverage.SearchPoint * YelpSearch.YelpSearchResult)
    * APIQuotaManager.APIQuotaManager :=
  let '(results, quota) := acc in
  let quota := APIQuotaManager.trackAPICall quota in
  let '(result, quota) :=
    YelpSearch.searchPointWithPagination
      (HexagonCoverage.lat searchPoint) (HexagonCoverage.lng searchPoint)
      (HexagonCoverage.radius searchPoint) quota in
  ((results ++ [(searchPoint, withH3Id h3Id result)])%list, quota).

Definition searchAllPoints (hexagonCoverage : HexagonCoverage.HexagonCoverage)
    (quota : APIQuotaManager.APIQuotaManager)
  : list (HexagonCoverage.SearchPoint * YelpSearch.YelpSearchResult)
    * APIQuotaManager.APIQuotaManager :=
  foldl (searchOnePoint (HexagonCoverage.h3Id hexagonCoverage)) ([], quota)
        (HexagonCoverage.searchPoints hexagonCoverage).

(** [processSearchResults]; the dynamic import of the processor module is
    taken to succeed. *)
Definition processSearchResults (h3Id : string)
    (searchResults : list (HexagonCoverage.SearchPoint * YelpSearch.YelpSearchResult))
    (hexagonCoverage : HexagonCoverage.HexagonCoverage)
    (processor : HexagonProcessor.HexagonProcessor)
  : outcome HexagonYelpResult * HexagonProcessor.HexagonProcessor :=
  let allBusinesses := searchResults ≫= (fun r => YelpSearch.businesses r.2) in
  let validatedBusinesses := validateBusinessBoundaries h3Id allBusinesses in
  let totalBusinesses :=
    Z.of_nat (length (YelpSearch.deduplicateBusinesses validatedBusinesses)) in
  if HexagonSplitter.detectDenseHexagon totalBusinesses then
    match HexagonSplitter.splitHexagon h3Id 7 8 with
    | Throws message => (Throws message, processor)
    | Returns splitResult =>
        let processor :=
          (HexagonProcessor.handleDenseHexagons h3Id totalBusinesses 7 processor).2 in
        (Returns {| h3Id := h3Id;
                    totalBusinesses := totalBusinesses;
                    uniqueBusinesses := YelpSearch.deduplicateBusinesses validatedBusinesses;
                    searchResults := searchResults;
                    status := "split";
                    splitResult := Some splitResult;
                    coverageQuality := "dense-split";
                    error := None |}, processor)
    end
  else
    let coverageQuality := assessCoverageQuality hexagonCoverage totalBusinesses in
    (Returns {| h3Id := h3Id;
                totalBusinesses := totalBusinesses;
                uniqueBusinesses := YelpSearch.deduplicateBusinesses validatedBusinesses;
                searchResults := searchResults;
                status := "fetched";
                splitResult := None;
                coverageQuality := coverageQuality;
                error := None |}, processor).

(** [searchHexagon] on the two singletons it touches. *)
Definition searchHexagon (h3Id : string)
    (quota : APIQuotaManager.APIQuotaManager)
    (processor : HexagonProcessor.HexagonProcessor)
  : HexagonYelpResult * APIQuotaManager.APIQuotaManager * HexagonProcessor.HexagonProcessor :=
  let quotaEstimate := APIQuotaManager.estimateQuotaForCity quota 1 7 (15 # 10) in
  if negb (APIQuotaManager.canProcessRequest quotaEstimate) then
    (failedResult h3Id
       ("Insufficient quota: "
          +:+ String.concat ", " (APIQuotaManager.recommendations quotaEstimate)),
     quota, processor)
  else
    match HexagonCoverage.generateSearchPoints h3Id with
    | Throws message => (failedResult h3Id message, quota, processor)
    | Returns hexagonCoverage =>
        if negb (HexagonCoverage.validateCoverage hexagonCoverage) then
          (failedResult h3Id "Invalid hexagon coverage generated", quota, processor)
        else
          let '(searchResults, quota) := searchAllPoints hexagonCoverage quota in
          match processSearchResults h3Id searchResults hexagonCoverage processor with
          | (Returns result, processor) => (result, quota, processor)
          | (Throws message, processor) => (failedResult h3Id message, quota, processor)
          end
    end.

End WithCollaborators.

End YelpEngine.

(** ** hexagonProcessor.ts: queries and processing *)

Module ProcessorOps.
Import HexagonProcessor.

(** The first of the four maps that holds the id. *)
Definition getHexagonStatus (p : HexagonProcessor) (h3Id : string)
  : option HexagonProcessingStatus :=
  match processingQueue p !! h3Id with
  | Some h => Some h
  | None =>
      match completedHexagons p !! h3Id with
      | Some h => Some h
      | None =>
          match failedHexagons p !! h3Id with
          | Some h => Some h
          | None => subdivisionQueue p !! h3Id
          end
      end
  end.

Definition getChildHexagons (p : HexagonProcessor) (parentH3Id : string)
  : list HexagonProcessingStatus :=
  let childIds := default [] (parentChildRelationships p !! parentH3Id) in
  omap (getHexagonStatus p) childIds.

(** [if (!parentId) return null]: an empty id counts as missing. *)
Definition getParentHexagon (p : HexagonProcessor) (childH3Id : string)
  : option HexagonProcessingStatus :=
  match childParentRelationships p !! childH3Id with
  | None => None
  | Some parentId =>
      if bool_decide (parentId = "") then None else getHexagonStatus p parentId
  end.

Definition isProcessed (h : HexagonProcessingStatus) : bool :=
  bool_decide (status h = "fetched") || bool_decide (status h = "split")
  || bool_decide (status h = "failed").

Definition areAllChildrenProcessed (p : HexagonProcessor) (parentH3Id : string) : bool :=
  let childIds := default [] (parentChildRelationships p !! parentH3Id) in
  if (length childIds =? 0)%nat then true
  else
    forallb (fun childId =>
               match getHexagonStatus p childId with
               | Some childStatus => isProcessed childStatus
               | None => false
               end) childIds.

Record AggregatedChildResults : Type := {
  agg_totalBusinesses : Z;
  completedChildren : nat;
  failedChildren : nat;
  splitChildren : nat;
  agg_coverageQuality : string;
}.

Definition getAggregatedChildResults (p : HexagonProcessor) (parentH3Id : string)
  : AggregatedChildResults :=
  let childStatuses := getChildHexagons p parentH3Id in
  let totalBusinesses :=
    foldl (fun sum child => sum + default 0 (totalBusinesses child)) 0 childStatuses in
  let completedChildren :=
    length (List.filter (fun child => bool_decide (status child = "fetched")) childStatuses) in
  let failedChildren :=
    length (List.filter (fun child => bool_decide (status child = "failed")) childStatuses) in
  let splitChildren :=
    length (List.filter (fun child => bool_decide (status child = "split")) childStatuses) in
  let coverageQuality :=
    if (failedChildren =? 0)%nat then
      if (completedChildren =? length childStatuses)%nat then "excellent"
      else if Qgtb (inject_Z (Z.of_nat completedChildren))
                   (Double.mul (inject_Z (Z.of_nat (length childStatuses)))
                               (Double.round (8 # 10)))
           then "good"
      else "fair"
    else "poor" in
  {| agg_totalBusinesses := totalBusinesses;
     completedChildren := completedChildren;
     failedChildren := failedChildren;
     splitChildren := splitChildren;
     agg_coverageQuality := coverageQuality |}.

Record SubdivisionQueueStatus : Type := {
  queuedCount : Z;
  processingCount : Z;
  completedCount : Z;
  failedCount : Z;
  totalRelationships : Z;
}.

Definition getSubdivisionQueueStatus (p : HexagonProcessor) : SubdivisionQueueStatus :=
  {| queuedCount :=
       countValues (fun h => bool_decide (status h = "queued")) (subdivisionQueue p);
     processingCount :=
       countValues (fun h => bool_decide (status h = "processing")) (subdivisionQueue p);
     completedCount :=
       countValues (fun h => bool_decide (status h = "fetched")
                             || bool_decide (status h = "split")) (subdivisionQueue p);
     failedCount :=
       countValues (fun h => bool_decide (status h = "failed")) (subdivisionQueue p);
     totalRelationships := Z.of_nat (size (parentChildRelationships p)) |}.

(** The optional third argument of [processHexagonWithCoverage]. *)
Record YelpSummary : Type := {
  yelp_totalBusinesses : Z;
  yelp_status : string;
  yelp_coverageQuality : string;
}.

Record ProcessingBatch : Type := {
  hexagons : list string;
  estimatedQuota : Q;
  canProcess : bool;
  riskLevel : string;
  recommendations : list string;
}.

Section WithCollaborators.
Context {grid : H3} {turf : Turf} {format : NumberFormat}.

(** The [try] block of [processHexagonWithCoverage] up to the statistics:
    the plan, or the message of the exception. *)
Definition planWithStats (h3Id : string)
  : outcome CoverageStats.CoverageStats :=
  hexagonCoverage ← HexagonCoverage.generateSearchPoints h3Id ;
  if negb (HexagonCoverage.validateCoverage hexagonCoverage) then
    Throws "Invalid hexagon coverage generated"
  else
    Returns (CoverageStats.getCoverageStats hexagonCoverage).

(** [processHexagonWithCoverage]; [elapsed] is [Date.now() - startTime] at
    the point where the status is built. *)
Definition processHexagonWithCoverage (h3Id : string) (resolution : Z)
    (yelpResult : option YelpSummary) (elapsed : Z) (p : HexagonProcessor)
  : HexagonProcessingStatus * HexagonProcessor :=
  let p := updateProcessingStatus h3Id "processing" resolution p in
  match planWithStats h3Id with
  | Returns coverageStats =>
      let totalBusinesses := default 0 (yelp_totalBusinesses <$> yelpResult) in
      let coverageQuality :=
        match yelpResult with
        | Some y =>
            if bool_decide (yelp_coverageQuality y = "")
            then CoverageStats.estimatedCoverage coverageStats
            else yelp_coverageQuality y
        | None => CoverageStats.estimatedCoverage coverageStats
        end in
      let needsSubdivision := 240 <? totalBusinesses in
      let status :=
        {| h3Id := h3Id; resolution := resolution;
           parentH3Id := None; childH3Ids := None;
           status :=
             match yelpResult with
             | Some y => if bool_decide (yelp_status y = "split") then "split" else "fetched"
             | None => "fetched"
             end;
           coverageQuality := coverageQuality;
           searchPointsCount := Z.of_nat (CoverageStats.totalPoints coverageStats);
           totalBusinesses := Some totalBusinesses;
           error := None; splitResult := None;
           processingTime := Some elapsed;
           needsSubdivision := needsSubdivision;
           subdivisionResult := None |} in
      let p := updateProcessingStatus h3Id (HexagonProcessor.status status) resolution p in
      (status,
       {| processingQueue := processingQueue p;
          completedHexagons := <[h3Id := status]> (completedHexagons p);
          failedHexagons := failedHexagons p;
          subdivisionQueue := subdivisionQueue p;
          parentChildRelationships := parentChildRelationships p;
          childParentRelationships := childParentRelationships p |})
  | Throws message =>
      let failedStatus :=
        {| h3Id := h3Id; resolution := resolution;
           parentH3Id := None; childH3Ids := None;
           status := "failed"; coverageQuality := "unknown";
           searchPointsCount := 0; totalBusinesses := None;
           error := Some message; splitResult := None;
           processingTime := Some elapsed; needsSubdivision := false;
           subdivisionResult := None |} in
      let p := updateProcessingStatus h3Id "failed" resolution p in
      (failedStatus,
       {| processingQueue := processingQueue p;
          completedHexagons := completedHexagons p;
          failedHexagons := <[h3Id := failedStatus]> (failedHexagons p);
          subdivisionQueue := subdivisionQueue p;
          parentChildRelationships := parentChildRelationships p;
          childParentRelationships := childParentRelationships p |})
  end.

(** The loop of PHASE 1 of [processTwoPhaseAlgorithm], from the [i]-th
    hexagon on: [clock i] is the processing time measured for it.  Neither
    call in the body throws, so the [catch] of the loop is not reached. *)
Fixpoint phase1 (clock : nat -> Z) (i : nat) (hexagons : list string)
    (p : HexagonProcessor) : list HexagonProcessingStatus * HexagonProcessor :=
  match hexagons with
  | [] => ([], p)
  | h3Id :: rest =>
      let '(result, p) := processHexagonWithCoverage h3Id 7 None (clock i) p in
      let p :=
        match totalBusinesses result with
        | Some total =>
            if needsSubdivision result && negb (total =? 0) && (240 <? total)
            then (handleDenseHexagons h3Id total 7 p).2
            else p
        | None => p
        end in
      let '(results, p) := phase1 clock (S i) rest p in
      (result :: results, p)
  end.

(** The calls [hexagons.map(h3Id => this.processHexagonWithCoverage(...))]:
    the method has no [await], so each call runs to completion in turn. *)
Fixpoint processEach (clock : nat -> Z) (i : nat) (hexagons : list string)
    (resolution : Z) (p : HexagonProcessor)
  : list HexagonProcessingStatus * HexagonProcessor :=
  match hexagons with
  | [] => ([], p)
  | h3Id :: rest =>
      let '(result, p) := processHexagonWithCoverage h3Id resolution None (clock i) p in
      let '(results, p) := processEach clock (S i) rest resolution p in
      (result :: results, p)
  end.

(** [processBatch]: the resolution is what the source passes as the average
    number of search points per hexagon. *)
Definition processBatch (clock : nat -> Z) (hexagons : list string) (resolution : Z)
    (quota : APIQuotaManager.APIQuotaManager) (p : HexagonProcessor)
  : ProcessingBatch * HexagonProcessor :=
  let estimatedQuota :=
    APIQuotaManager.estimateQuotaForCity quota (Z.of_nat (length hexagons))
      (inject_Z resolution) (15 # 10) in
  let batch :=
    {| hexagons := hexagons;
       estimatedQuota := APIQuotaManager.estimatedCalls estimatedQuota;
       canProcess := APIQuotaManager.canProcessRequest estimatedQuota;
       riskLevel := APIQuotaManager.riskLevel estimatedQuota;
       recommendations := APIQuotaManager.recommendations estimatedQuota |} in
  if negb (canProcess batch) then (batch, p)
  else (batch, (processEach clock 0 hexagons resolution p).2).

End WithCollaborators.

End ProcessorOps.

(** ** Concrete collaborators for the examples

    A sample of the grid near San Francisco: the cell [85283473fffffff] of
    resolution 5 and the cell [872830828ffffff] of resolution 7 with
    their centres, boundaries (as [h3.cellToBoundary(h3Id, true)] gives
    them: [[lng, lat]] entries, the first one repeated at the end) and
    areas, and the centre descendants of the second cell at resolutions 8,
    10, 12 and 13, which share its centre.  Coordinates are rounded to
    four decimals and areas to two.  Three splits are listed (7 to 8, 7 to
    10 and 12 to 13), each with the centre child only.  The identifier
    [ffffffffffffffff] is no cell, and h3-js rejects it; whatever else the
    sample does not hold is answered by an exception of its own, which
    says nothing about h3-js.

    The distances are those of turf (haversine, in kilometres, to about
    0.01 km on the rounded coordinates) from the centre of a cell to the
    vertices of the cell, and to the points the planner asks for. *)

Module Demo.

Definition cell5 : string := "85283473fffffff".
Definition cell7 : string := "872830828ffffff".
Definition cell8 : string := "8828308281fffff".
Definition cell10 : string := "8a2830828007fff".
Definition cell12 : string := "8c28308280001ff".
Definition cell13 : string := "8d283082800003f".
Definition noCell : string := "ffffffffffffffff".

(** Ten-thousandths of a degree, and hundredths of a unit. *)
Definition deg (n : Z) : Q := (n # 10000)%Q.
Definition hundredths (n : Z) : Q := (n # 100)%Q.

Definition center5 : LatLng := (deg 373458, deg (-1219764)).
Definition center7 : LatLng := (deg 377735, deg (-1224183)).

Definition boundary5 : list LngLat :=
  [ (deg (-1219151), deg 372714); (deg (-1218622), deg 373539);
    (deg (-1219235), deg 374283); (deg (-1220377), deg 374201);
    (deg (-1220904), deg 373376); (deg (-1220291), deg 372632);
    (deg (-1219151), deg 372714) ].

Definition boundary7 : list LngLat :=
  [ (deg (-1224095), deg 377630); (deg (-1224020), deg 377748);
    (deg (-1224108), deg 377853); (deg (-1224271), deg 377840);
    (deg (-1224346), deg 377723); (deg (-1224258), deg 377617);
    (deg (-1224095), deg 377630) ].

Definition known (c : string) : bool :=
  bool_decide (c ∈ [cell5; cell7; cell8; cell10; cell12; cell13]).

Definition outside (c : string) : string :=
  if bool_decide (c = noCell) then "Cell argument was not valid"
  else "not a cell of the sample".

#[local] Instance grid : H3 := {|
  cellToLatLng c :=
    if bool_decide (c = cell5) then Returns center5
    else if known c then Returns center7
    else Throws (outside c);
  cellToBoundary c :=
    if bool_decide (c = cell5) then Returns boundary5
    else if bool_decide (c = cell7) then Returns boundary7
    else Throws (outside c);
  cellArea c :=
    if bool_decide (c = cell5) then Returns (hundredths 26509)
    else if bool_decide (c = cell7) then Returns (hundredths 536)
    else Throws (outside c);
  cellToChildren c res :=
    if bool_decide (c = cell7) && (res =? 8) then Returns [cell8]
    else if bool_decide (c = cell7) && (res =? 10) then Returns [cell10]
    else if bool_decide (c = cell12) && (res =? 13) then Returns [cell13]
    else Throws (outside c)
|}.

Definition samePosition (a b : Q * Q) : bool :=
  Qeq_bool (fst a) (fst b) && Qeq_bool (snd a) (snd b).

(** [exchanged p] is [[p[1], p[0]]]. *)
Definition exchanged (p : Q * Q) : Q * Q := (snd p, fst p).

(** Kilometres from the centre of the resolution-5 cell and of the
    resolution-7 cell to each vertex, and to the point with the
    coordinates of the vertex exchanged (a latitude beyond the pole, which
    the haversine formula accepts). *)
Definition kilometres (from : LngLat) : list (LngLat * Q) :=
  if samePosition from (exchanged center5) then
    zip boundary5
        ((fun m => (m # 1000)%Q) <$> [9891; 10135; 10296; 9879; 10119; 10300; 9891])
    ++ zip (exchanged <$> boundary5)
           (hundredths <$> [1078618; 1079044; 1078267; 1077062; 1076638; 1077416;
                            1078618])
  else if samePosition from (exchanged center7) then
    zip boundary7
        ((fun m => (m # 1000)%Q) <$> [1401; 1440; 1468; 1400; 1439; 1468; 1401])
    ++ zip (exchanged <$> boundary7)
           (hundredths <$> [1076478; 1076540; 1076429; 1076256; 1076195; 1076306;
                            1076478])
  else [].

(** [turf.distance]: the unit is read from an options object only. *)
#[local] Instance turf : Turf := {|
  distance from to argument :=
    match list_find (fun entry => samePosition (fst entry) to) (kilometres from) with
    | Some (_, (_, km)) =>
        match argument with
        | BareString _ => Returns km
        | Options units =>
            if bool_decide (units = "meters") then Returns (km * 1000)%Q
            else if bool_decide (units = "kilometers") then Returns km
            else Throws "units is invalid"
        end
    | None => Throws "not a distance of the sample"
    end
|}.

(** A distance library that rejects every point. *)
Definition brokenTurf : Turf := {|
  distance from to argument := Throws "coordinates must contain numbers"
|}.

(** [toFixed] of a number that is not negative: rounded to the digits
    asked for, halves upwards.  [numberToString] writes an integer with all
    its digits; of any other number it writes the integer part only, which
    no example relies on. *)
Definition fixed (x : Q) (digits : nat) : string :=
  let unit := 10 ^ Z.of_nat digits in
  let scaled := Qfloor (x * inject_Z unit + (1 # 2))%Q in
  pretty (scaled / unit)
  +:+ (if digits is O then ""
       else "." +:+ String.substring 1 digits (pretty (unit + scaled mod unit))).

#[local] Instance format : NumberFormat := {|
  toFixed := fixed;
  numberToString x := pretty (Qfloor x);
  numberToString_integer x n Hx _ :=
    f_equal pretty (eq_trans (Qfloor_comp x (inject_Z n) Hx) (Qfloor_Z n))
|}.


(** A search API over a crowded area: it reports 1000 items for every
    query and serves pages of 50 distinct items at any offset. *)
Definition business (n : Z) : YelpSearch.YelpBusiness :=
  {| YelpSearch.id := "biz-" +:+ pretty n;
     YelpSearch.name := "Restaurant " +:+ pretty n;
     YelpSearch.coordinates := center7 |}.

Definition crowdedApi : YelpSearch.SearchApi := {|
  YelpSearch.makeYelpSearch lat lng radius offset :=
    Returns {| YelpSearch.page_total := Some 1000;
               YelpSearch.page_businesses :=
                 Some ((fun i => business (offset + Z.of_nat i)) <$> seq 0 50);
               YelpSearch.page_region := None |}
|}.

(** The planner on these collaborators. *)
Definition plan : string -> outcome HexagonCoverage.HexagonCoverage :=
  HexagonCoverage.generateSearchPoints (grid := grid) (turf := turf) (format := format).

End Demo.

(** ** Concrete collaborators for the search of a hexagon

    The reverse lookup of the grid for the cells of [Demo]: the centre of
    the resolution-7 cell lies in the cell of each resolution from 7 on,
    any other point is taken to lie in the neighbouring cell
    [87283082effffff], and a latitude beyond the poles is rejected.  The
    busy API serves, around every probe, 50 restaurants per page that no
    other probe sees, all at the centre of the resolution-7 cell. *)

Module DemoSearch.

#[local] Instance index : YelpEngine.H3Index := {|
  YelpEngine.getResolution c :=
    if bool_decide (c = Demo.cell5) then Returns 5
    else if bool_decide (c = Demo.cell7) then Returns 7
    else if bool_decide (c = Demo.cell8) then Returns 8
    else Throws (Demo.outside c);
  YelpEngine.latLngToCell lat lng res :=
    if Qgtb (Qabs lat) 90 then Throws "Latitude out of range"
    else if Demo.samePosition (lat, lng) Demo.center7 then
      if res =? 7 then Returns Demo.cell7
      else if res =? 8 then Returns Demo.cell8
      else Throws "not a resolution of the sample"
    else Returns "87283082effffff"
|}.

Definition busyApi : YelpSearch.SearchApi := {|
  YelpSearch.makeYelpSearch lat lng radius offset :=
    Returns {| YelpSearch.page_total := Some 1000;
               YelpSearch.page_businesses :=
                 Some ((fun i =>
                          {| YelpSearch.id :=
                               "biz-" +:+ pretty (Qfloor (lat * 100000))
                                      +:+ "-" +:+ pretty (Qfloor (lng * 100000))
                                      +:+ "-" +:+ pretty (offset + Z.of_nat i);
                             YelpSearch.name := "Restaurant";
                             YelpSearch.coordinates := Demo.center7 |}) <$> seq 0 50);
               YelpSearch.page_region := None |}
|}.

(** The search of one hexagon on these collaborators. *)
Definition search (api : YelpSearch.SearchApi) (h3Id : string) :=
  YelpEngine.searchHexagon (grid := Demo.grid) (index := index) (turf := Demo.turf)
    (format := Demo.format) (api := api) h3Id
    (APIQuotaManager.new 0 5000 50) HexagonProcessor.new.

End DemoSearch.

(** * Properties *)

(** ** Double-precision rounding *)

Section DoubleFacts.
Import Double.
Local Open Scope Q_scope.

Lemma Qcompare_cases (a b : Q) :
  match a ?= b with
  | Eq => a == b
  | Lt => a < b
  | Gt => b < a
  end.
Proof.
  destruct (a ?= b) eqn:E.
  - by apply Qeq_alt.
  - by apply Qlt_alt.
  - by apply Qgt_alt.
Qed.

Lemma roundEven_near (x : Q) :
  inject_Z (roundEven x) - (1 # 2) <= x /\ x <= inject_Z (roundEven x) + (1 # 2).
Proof.
  unfold roundEven.
  pose proof (Qfloor_le x) as Hlo. pose proof (Qlt_floor x) as Hhi.
  rewrite inject_Z_plus in Hhi. change (inject_Z 1) with 1 in Hhi.
  pose proof (Qcompare_cases (x - inject_Z (Qfloor x)) (1 # 2)) as E.
  destruct (x - inject_Z (Qfloor x) ?= 1 # 2); [destruct (Z.even (Qfloor x)) | |];
    rewrite ?inject_Z_plus; change (inject_Z 1) with 1; split; lra.
Qed.

Lemma roundEven_inject_Z (n : Z) : roundEven (inject_Z n) = n.
Proof.
  unfold roundEven. rewrite Qfloor_Z.
  assert (E : (inject_Z n - inject_Z n ?= 1 # 2) = Lt).
  { apply Qlt_alt. unfold Qminus. rewrite Qplus_opp_r. reflexivity. }
  by rewrite E.
Qed.

Lemma roundEven_proper (x y : Q) : x == y -> roundEven x = roundEven y.
Proof.
  intros Hxy. unfold roundEven.
  rewrite (Qfloor_comp _ _ Hxy).
  assert (E : (x - inject_Z (Qfloor y) ?= 1 # 2) = (y - inject_Z (Qfloor y) ?= 1 # 2)).
  { apply Qcompare_comp; [rewrite Hxy |]; reflexivity. }
  by rewrite E.
Qed.

Lemma roundEven_monotone (x y : Q) : x <= y -> (roundEven x <= roundEven y)%Z.
Proof.
  intros Hxy.
  pose proof (Qfloor_resp_le _ _ Hxy) as Hfloor.
  destruct (Z.eq_dec (Qfloor x) (Qfloor y)) as [Heq | Hne].
  - unfold roundEven. rewrite Heq.
    pose proof (Qcompare_cases (x - inject_Z (Qfloor y)) (1 # 2)) as Ex.
    pose proof (Qcompare_cases (y - inject_Z (Qfloor y)) (1 # 2)) as Ey.
    destruct (x - inject_Z (Qfloor y) ?= 1 # 2);
      destruct (y - inject_Z (Qfloor y) ?= 1 # 2);
      try destruct (Z.even (Qfloor y)); try lia; exfalso; lra.
  - assert (Hlt : (Qfloor x + 1 <= Qfloor y)%Z) by lia.
    assert (Hx : (roundEven x <= Qfloor x + 1)%Z).
    { unfold roundEven. destruct (_ ?= _); [destruct (Z.even _) | |]; lia. }
    assert (Hy : (Qfloor y <= roundEven y)%Z).
    { unfold roundEven. destruct (_ ?= _); [destruct (Z.even _) | |]; lia. }
    lia.
Qed.

Lemma pow2_pos (k : Z) : 0 < 2 ^ k.
Proof. apply Qpower_0_lt. reflexivity. Qed.

Lemma pow2_plus (a b : Z) : 2 ^ (a + b) == 2 ^ a * 2 ^ b.
Proof. apply Qpower_plus. discriminate. Qed.

Lemma pow2_succ (a : Z) : 2 ^ (a + 1) == 2 * 2 ^ a.
Proof. rewrite pow2_plus. change (2 ^ 1) with 2. ring. Qed.

Lemma pow2_le (a b : Z) : (a <= b)%Z -> 2 ^ a <= 2 ^ b.
Proof. intros H. apply Qpower_le_compat_l; [exact H | discriminate]. Qed.

Lemma pow2_lt_inv (a b : Z) : 2 ^ a < 2 ^ b -> (a < b)%Z.
Proof. intros H. apply (Qpower_lt_compat_l_inv 2); [exact H | reflexivity]. Qed.

Lemma pow2_inject_Z (a : Z) : (0 <= a)%Z -> inject_Z (2 ^ a) == 2 ^ a.
Proof. intros H. apply (Zpower_Qpower 2 a H). Qed.

Lemma ilog2_spec (x : Q) : 0 < x -> 2 ^ ilog2 x <= x /\ x < 2 ^ (ilog2 x + 1).
Proof.
  intros Hpos. destruct x as [n d]. unfold ilog2. cbn [Qnum Qden].
  assert (Hn : (0 < n)%Z).
  { unfold Qlt in Hpos. cbn in Hpos. lia. }
  set (a := Z.log2 n). set (b := Z.log2 (Z.pos d)).
  destruct (Z.log2_spec n Hn) as [Ha1 Ha2]. fold a in Ha1, Ha2.
  destruct (Z.log2_spec (Z.pos d) (Pos2Z.is_pos d)) as [Hb1 Hb2]. fold b in Hb1, Hb2.
  assert (Ha0 : (0 <= a)%Z) by apply Z.log2_nonneg.
  assert (Hb0 : (0 <= b)%Z) by apply Z.log2_nonneg.
  assert (HA1 : 2 ^ a <= inject_Z n).
  { rewrite <- pow2_inject_Z by exact Ha0. rewrite <- Zle_Qle. exact Ha1. }
  assert (HA2 : inject_Z n < 2 * 2 ^ a).
  { rewrite <- pow2_succ, <- pow2_inject_Z by lia. rewrite <- Zlt_Qlt.
    replace (a + 1)%Z with (Z.succ a) by lia. exact Ha2. }
  assert (HB1 : 2 ^ b <= inject_Z (Z.pos d)).
  { rewrite <- pow2_inject_Z by exact Hb0. rewrite <- Zle_Qle. exact Hb1. }
  assert (HB2 : inject_Z (Z.pos d) < 2 * 2 ^ b).
  { rewrite <- pow2_succ, <- pow2_inject_Z by lia. rewrite <- Zlt_Qlt.
    replace (b + 1)%Z with (Z.succ b) by lia. exact Hb2. }
  pose proof (pow2_pos a) as HAp. pose proof (pow2_pos b) as HBp.
  assert (Hk : 2 ^ (a - b) * 2 ^ b == 2 ^ a).
  { rewrite <- pow2_plus. replace (a - b + b)%Z with a by lia. reflexivity. }
  assert (Hx : (n # d) * inject_Z (Z.pos d) == inject_Z n).
  { rewrite (Qmake_Qdiv n d). field. discriminate. }
  pose proof (pow2_pos (a - b)) as HKp.
  assert (HD : 0 < inject_Z (Z.pos d)) by reflexivity.
  set (X := n # d) in *. set (K := 2 ^ (a - b)) in *.
  set (A := 2 ^ a) in *. set (B := 2 ^ b) in *.
  set (N := inject_Z n) in *. set (D := inject_Z (Z.pos d)) in *.
  destruct (Qle_bool K X) eqn:Hle.
  - apply Qle_bool_iff in Hle. split; [exact Hle |].
    rewrite pow2_succ. fold K.
    apply Qnot_le_lt. intros Hno.
    assert (H1 : 2 * K * D <= X * D) by nra.
    assert (H2 : 2 * K * B <= 2 * K * D) by nra.
    nra.
  - assert (Hlt : X < K).
    { apply Qnot_le_lt. intros Hno. apply Qle_bool_iff in Hno. congruence. }
    split.
    + assert (Hhalf : 2 * 2 ^ (a - b - 1) == K).
      { rewrite <- pow2_succ. replace (a - b - 1 + 1)%Z with (a - b)%Z by lia. reflexivity. }
      pose proof (pow2_pos (a - b - 1)) as Hhp.
      set (K' := 2 ^ (a - b - 1)) in *.
      apply Qnot_lt_le. intros Hno.
      assert (H1 : X * D < K' * D) by nra.
      assert (H2 : K' * D < K' * (2 * B)) by nra.
      nra.
    + replace (a - b - 1 + 1)%Z with (a - b)%Z by lia. exact Hlt.
Qed.

Lemma ilog2_unique (x : Q) (k : Z) : 2 ^ k <= x -> x < 2 ^ (k + 1) -> ilog2 x = k.
Proof.
  intros Hlo Hhi.
  assert (Hpos : 0 < x) by (eapply Qlt_le_trans; [apply pow2_pos | exact Hlo]).
  destruct (ilog2_spec x Hpos) as [Hlo' Hhi'].
  assert (H1 : (k < ilog2 x + 1)%Z).
  { apply pow2_lt_inv. eapply Qle_lt_trans; eassumption. }
  assert (H2 : (ilog2 x < k + 1)%Z).
  { apply pow2_lt_inv. eapply Qle_lt_trans; eassumption. }
  lia.
Qed.

Lemma ilog2_monotone (x y : Q) : 0 < x -> x <= y -> (ilog2 x <= ilog2 y)%Z.
Proof.
  intros Hpos Hxy.
  assert (Hposy : 0 < y) by (eapply Qlt_le_trans; eassumption).
  destruct (ilog2_spec x Hpos) as [Hlo _].
  destruct (ilog2_spec y Hposy) as [_ Hhi].
  assert (H : (ilog2 x < ilog2 y + 1)%Z).
  { apply pow2_lt_inv. eapply Qle_lt_trans; [exact Hlo |].
    eapply Qle_lt_trans; eassumption. }
  lia.
Qed.


Lemma exponent_spec (x : Q) :
  0 < x ->
  (-1074 <= exponent x)%Z /\
  x < 2 ^ (exponent x + 53) /\
  (exponent x = (-1074)%Z \/ 2 ^ (exponent x + 52) <= x).
Proof.
  intros Hpos. destruct (ilog2_spec x Hpos) as [Hlo Hhi]. unfold exponent.
  split; [lia |]. split.
  - eapply Qlt_le_trans; [exact Hhi |]. apply pow2_le. lia.
  - destruct (Z.max_spec (ilog2 x - 52) (-1074)) as [[_ ->] | [_ ->]]; [by left | right].
    replace (ilog2 x - 52 + 52)%Z with (ilog2 x) by lia. exact Hlo.
Qed.

Lemma exponent_monotone (x y : Q) : 0 < x -> x <= y -> (exponent x <= exponent y)%Z.
Proof.
  intros Hpos Hxy. pose proof (ilog2_monotone x y Hpos Hxy). unfold exponent. lia.
Qed.

Lemma scaled_le (x y : Q) (e : Z) : x <= y -> x / 2 ^ e <= y / 2 ^ e.
Proof.
  intros Hxy. pose proof (pow2_pos e) as Hp.
  apply Qle_shift_div_l; [exact Hp |].
  unfold Qdiv. rewrite <- Qmult_assoc, (Qmult_comm (/ _)), Qmult_inv_r, Qmult_1_r;
    [exact Hxy | lra].
Qed.

Lemma scaled_pow2 (a e : Z) : 2 ^ a / 2 ^ e == 2 ^ (a - e).
Proof.
  pose proof (pow2_pos e) as Hp.
  replace a with (a - e + e)%Z at 1 by lia. rewrite pow2_plus. field. lra.
Qed.

(** The significand of a positive number: at most 2^53, and at least 2^52
    outside the subnormal range. *)
Lemma significand_bounds (x : Q) :
  0 < x ->
  let m := roundEven (x / 2 ^ exponent x) in
  (0 <= m <= 2 ^ 53)%Z /\ (exponent x <> (-1074)%Z -> (2 ^ 52 <= m)%Z).
Proof.
  intros Hpos. cbv zeta.
  destruct (exponent_spec x Hpos) as (Hmin & Hhi & Hlo).
  set (e := exponent x) in *.
  split; [split |].
  - rewrite <- (roundEven_inject_Z 0). apply roundEven_monotone.
    apply Qle_shift_div_l; [apply pow2_pos |]. change (inject_Z 0) with 0. lra.
  - rewrite <- (roundEven_inject_Z (2 ^ 53)). apply roundEven_monotone.
    rewrite pow2_inject_Z by lia.
    apply Qle_shift_div_r; [apply pow2_pos |].
    apply Qlt_le_weak. eapply Qlt_le_trans; [exact Hhi |].
    rewrite pow2_plus, Qmult_comm. apply Qle_refl.
  - intros Hne. destruct Hlo as [Heq | Hlo]; [contradiction |].
    rewrite <- (roundEven_inject_Z (2 ^ 52)). apply roundEven_monotone.
    rewrite pow2_inject_Z by lia.
    apply Qle_shift_div_l; [apply pow2_pos |].
    eapply Qle_trans; [| exact Hlo].
    rewrite pow2_plus, Qmult_comm. apply Qle_refl.
Qed.

Lemma roundPositive_nonneg (x : Q) : 0 < x -> 0 <= roundPositive x.
Proof.
  intros Hpos. unfold roundPositive.
  destruct (significand_bounds x Hpos) as [[Hm _] _].
  apply Qmult_le_0_compat; [| apply Qlt_le_weak, pow2_pos].
  change 0 with (inject_Z 0). rewrite <- Zle_Qle. exact Hm.
Qed.

Lemma roundPositive_monotone (x y : Q) :
  0 < x -> x <= y -> roundPositive x <= roundPositive y.
Proof.
  intros Hpos Hxy.
  assert (Hposy : 0 < y) by (eapply Qlt_le_trans; eassumption).
  pose proof (exponent_monotone x y Hpos Hxy) as He.
  destruct (significand_bounds x Hpos) as [[_ Hmx] _].
  destruct (significand_bounds y Hposy) as [_ Hmy].
  destruct (exponent_spec x Hpos) as (Hminx & _).
  unfold roundPositive.
  set (ex := exponent x) in *. set (ey := exponent y) in *.
  destruct (Z.eq_dec ex ey) as [Heq | Hne].
  - rewrite <- Heq. apply Qmult_le_compat_r; [| apply Qlt_le_weak, pow2_pos].
    rewrite <- Zle_Qle. apply roundEven_monotone, scaled_le, Hxy.
  - assert (Hmy' : (2 ^ 52 <= roundEven (y / 2 ^ ey))%Z) by (apply Hmy; lia).
    rewrite Zle_Qle in Hmx, Hmy'.
    rewrite pow2_inject_Z in Hmx, Hmy' by lia.
    pose proof (pow2_pos ex) as Hpx. pose proof (pow2_pos ey) as Hpy.
    assert (Hstep : 2 ^ 53 * 2 ^ ex <= 2 ^ 52 * 2 ^ ey).
    { rewrite <- !pow2_plus. apply pow2_le. lia. }
    set (mx := inject_Z (roundEven (x / 2 ^ ex))) in *.
    set (my := inject_Z (roundEven (y / 2 ^ ey))) in *.
    apply Qle_trans with (2 ^ 53 * 2 ^ ex); [nra |].
    apply Qle_trans with (2 ^ 52 * 2 ^ ey); [exact Hstep | nra].
Qed.

(** *** The rounding [round] *)

Lemma Qred_compare (x : Q) : (Qred x ?= 0) = (x ?= 0).
Proof. apply Qcompare_comp; [apply Qred_correct | reflexivity]. Qed.

Lemma round_proper (x y : Q) : x == y -> round x = round y.
Proof. intros Hxy. unfold round. by rewrite (Qred_complete _ _ Hxy). Qed.

Lemma round_0 : round 0 = 0.
Proof. reflexivity. Qed.

Lemma round_nonneg (x : Q) : 0 <= x -> 0 <= round x.
Proof.
  intros Hx. unfold round. pose proof (Qcompare_cases (Qred x) 0) as E.
  destruct (Qred x ?= 0).
  - apply Qle_refl.
  - rewrite Qred_correct in E. lra.
  - rewrite Qred_correct. apply roundPositive_nonneg. exact E.
Qed.

Lemma round_nonpos (x : Q) : x <= 0 -> round x <= 0.
Proof.
  intros Hx. unfold round. pose proof (Qcompare_cases (Qred x) 0) as E.
  destruct (Qred x ?= 0).
  - apply Qle_refl.
  - rewrite Qred_correct.
    assert (H : 0 <= roundPositive (- Qred x)) by (apply roundPositive_nonneg; lra).
    lra.
  - rewrite Qred_correct in E. lra.
Qed.

(** Rounding is monotone. *)
Lemma round_monotone (x y : Q) : x <= y -> round x <= round y.
Proof.
  intros Hxy.
  destruct (Qlt_le_dec 0 x) as [Hx | Hx].
  - (* both positive *)
    assert (Hy : 0 < y) by lra.
    unfold round.
    pose proof (Qcompare_cases (Qred x) 0) as Ex.
    pose proof (Qcompare_cases (Qred y) 0) as Ey.
    pose proof (Qred_correct x) as Hrx. pose proof (Qred_correct y) as Hry.
    destruct (Qred x ?= 0); [lra | lra |].
    destruct (Qred y ?= 0); [lra | lra |].
    rewrite (Qred_correct (roundPositive (Qred x))), (Qred_correct (roundPositive (Qred y))).
    apply roundPositive_monotone; lra.
  - destruct (Qlt_le_dec y 0) as [Hy | Hy].
    + (* both negative *)
      unfold round.
      pose proof (Qcompare_cases (Qred x) 0) as Ex.
      pose proof (Qcompare_cases (Qred y) 0) as Ey.
      pose proof (Qred_correct x) as Hrx. pose proof (Qred_correct y) as Hry.
      destruct (Qred x ?= 0); [lra | | lra].
      destruct (Qred y ?= 0); [lra | | lra].
      rewrite (Qred_correct (- roundPositive (- Qred x))),
        (Qred_correct (- roundPositive (- Qred y))).
      assert (H : roundPositive (- Qred y) <= roundPositive (- Qred x))
        by (apply roundPositive_monotone; lra).
      lra.
    + apply Qle_trans with 0; [apply round_nonpos | apply round_nonneg]; assumption.
Qed.


Lemma ilog2_proper (x y : Q) : 0 < x -> x == y -> ilog2 x = ilog2 y.
Proof.
  intros Hpos Hxy. destruct (ilog2_spec x Hpos) as [Hlo Hhi].
  symmetry. apply ilog2_unique; rewrite <- Hxy; assumption.
Qed.

Lemma roundPositive_proper (x y : Q) :
  0 < x -> x == y -> roundPositive x == roundPositive y.
Proof.
  intros Hpos Hxy. unfold roundPositive, exponent.
  rewrite <- (ilog2_proper x y Hpos Hxy).
  set (e := Z.max (ilog2 x - 52) (-1074)).
  assert (Hs : x / 2 ^ e == y / 2 ^ e) by (apply Qdiv_comp; [exact Hxy | reflexivity]).
  rewrite (roundEven_proper _ _ Hs). reflexivity.
Qed.

Lemma round_positive (x : Q) : 0 < x -> round x == roundPositive x.
Proof.
  intros Hpos. unfold round. pose proof (Qcompare_cases (Qred x) 0) as E.
  pose proof (Qred_correct x) as Hr.
  destruct (Qred x ?= 0); [lra | lra |].
  rewrite Qred_correct. apply roundPositive_proper; [exact E | exact Hr].
Qed.

Lemma round_negative (x : Q) : x < 0 -> round x == - roundPositive (- x).
Proof.
  intros Hneg. unfold round. pose proof (Qcompare_cases (Qred x) 0) as E.
  pose proof (Qred_correct x) as Hr.
  destruct (Qred x ?= 0); [lra | | lra].
  rewrite Qred_correct.
  rewrite (roundPositive_proper (- Qred x) (- x)); [reflexivity | lra |].
  by rewrite Hr.
Qed.

Lemma round_opp (x : Q) : round (- x) == - round x.
Proof.
  destruct (Q_dec x 0) as [[Hneg | Hpos] | Hzero].
  - rewrite (round_negative x Hneg), round_positive by lra. ring.
  - rewrite (round_positive x Hpos), round_negative by lra.
    rewrite (roundPositive_proper (- - x) x); [reflexivity | lra | ring].
  - rewrite (round_proper x 0 Hzero), (round_proper (- x) 0) by lra. reflexivity.
Qed.

(** A number with a significand of at most 53 bits and an exponent in
    range is a double: rounding leaves it as it is. *)
Lemma roundPositive_representable (m k : Z) :
  (0 < m < 2 ^ 53)%Z -> (-1074 <= k)%Z ->
  roundPositive (inject_Z m * 2 ^ k) == inject_Z m * 2 ^ k.
Proof.
  intros [Hm0 Hm] Hk.
  pose proof (pow2_pos k) as Hpk.
  destruct (Z.log2_spec m Hm0) as [Hl1 Hl2].
  pose proof (Z.log2_nonneg m) as Hl0.
  assert (Hl : (Z.log2 m < 53)%Z) by (apply Z.log2_lt_pow2; lia).
  rewrite Zle_Qle in Hl1. rewrite Zlt_Qlt in Hl2.
  rewrite pow2_inject_Z in Hl1, Hl2 by lia.
  assert (HL : ilog2 (inject_Z m * 2 ^ k) = (Z.log2 m + k)%Z).
  { apply ilog2_unique.
    - rewrite pow2_plus. apply Qmult_le_compat_r; [exact Hl1 | lra].
    - replace (Z.log2 m + k + 1)%Z with (Z.succ (Z.log2 m) + k)%Z by lia.
      rewrite pow2_plus. apply Qmult_lt_compat_r; [exact Hpk | exact Hl2]. }
  unfold roundPositive, exponent. rewrite HL.
  set (e := Z.max (Z.log2 m + k - 52) (-1074)).
  assert (He : (e <= k)%Z) by lia.
  assert (Hscaled : inject_Z m * 2 ^ k / 2 ^ e == inject_Z (m * 2 ^ (k - e))).
  { rewrite inject_Z_mult, pow2_inject_Z by lia.
    unfold Qdiv. rewrite <- Qmult_assoc. apply Qmult_comp; [reflexivity |].
    apply scaled_pow2. }
  rewrite (roundEven_proper _ _ Hscaled), roundEven_inject_Z.
  rewrite inject_Z_mult, pow2_inject_Z by lia.
  rewrite <- Qmult_assoc, <- pow2_plus.
  replace (k - e + e)%Z with k by lia. reflexivity.
Qed.

Lemma round_representable (m k : Z) :
  (Z.abs m < 2 ^ 53)%Z -> (-1074 <= k)%Z ->
  round (inject_Z m * 2 ^ k) == inject_Z m * 2 ^ k.
Proof.
  intros Hm Hk. pose proof (pow2_pos k) as Hpk.
  destruct (Z.lt_trichotomy m 0) as [Hneg | [-> | Hpos]].
  - assert (Hx : inject_Z m * 2 ^ k < 0).
    { assert (H : inject_Z m < 0) by (change 0 with (inject_Z 0); rewrite <- Zlt_Qlt; lia).
      nra. }
    rewrite (round_negative _ Hx).
    rewrite (roundPositive_proper _ (inject_Z (- m) * 2 ^ k));
      [| lra | rewrite inject_Z_opp; ring].
    rewrite roundPositive_representable by lia.
    rewrite inject_Z_opp. ring.
  - rewrite (round_proper (inject_Z 0 * 2 ^ k) 0); [| ring]. rewrite round_0. ring.
  - assert (Hx : 0 < inject_Z m * 2 ^ k).
    { assert (H : 0 < inject_Z m) by (change 0 with (inject_Z 0); rewrite <- Zlt_Qlt; lia).
      nra. }
    rewrite (round_positive _ Hx). apply roundPositive_representable; lia.
Qed.

(** Integers below 2^53 are doubles. *)
Lemma round_integer (n : Z) : (Z.abs n < 2 ^ 53)%Z -> round (inject_Z n) == inject_Z n.
Proof.
  intros Hn. pose proof (round_representable n 0 Hn ltac:(lia)) as H.
  rewrite (round_proper (inject_Z n) (inject_Z n * 2 ^ 0)); [| change (2 ^ 0) with 1; ring].
  rewrite H. change (2 ^ 0) with 1. ring.
Qed.

(** In the normal range the relative error of a rounding is at most
    2^-53. *)
Lemma round_error (x : Q) :
  2 ^ (-1022) <= x ->
  x * (1 - 2 ^ (-53)) <= round x /\ round x <= x * (1 + 2 ^ (-53)).
Proof.
  intros Hnormal.
  assert (Hpos : 0 < x) by (eapply Qlt_le_trans; [apply pow2_pos | exact Hnormal]).
  rewrite (round_positive x Hpos).
  assert (HL : (-1022 <= ilog2 x)%Z).
  { rewrite <- (ilog2_unique (2 ^ (-1022)) (-1022)).
    - apply ilog2_monotone; [apply pow2_pos | exact Hnormal].
    - apply Qle_refl.
    - apply Qpower_lt_compat_l; [lia | reflexivity]. }
  destruct (ilog2_spec x Hpos) as [Hlo _].
  unfold roundPositive, exponent.
  replace (Z.max (ilog2 x - 52) (-1074)) with (ilog2 x - 52)%Z by lia.
  set (e := (ilog2 x - 52)%Z).
  pose proof (pow2_pos e) as Hpe.
  destruct (roundEven_near (x / 2 ^ e)) as [Hn1 Hn2].
  set (r := inject_Z (roundEven (x / 2 ^ e))) in *.
  assert (Hx : x / 2 ^ e * 2 ^ e == x) by (field; lra).
  assert (Hulp : 2 ^ e == 2 * (2 ^ ilog2 x * 2 ^ (-53))).
  { rewrite <- pow2_plus, <- pow2_succ. subst e.
    replace (ilog2 x + -53 + 1)%Z with (ilog2 x - 52)%Z by lia. reflexivity. }
  pose proof (pow2_pos (-53)) as Hp53. pose proof (pow2_pos (ilog2 x)) as HpL.
  set (z := x / 2 ^ e) in *. set (P := 2 ^ e) in *.
  set (u := 2 ^ (-53)) in *. set (B := 2 ^ ilog2 x) in *.
  assert (H1 : (r - (1 # 2)) * P <= z * P) by nra.
  assert (H2 : z * P <= (r + (1 # 2)) * P) by nra.
  assert (H3 : B * u <= x * u) by nra.
  split; nra.
Qed.

End DoubleFacts.

(** ** hexagonSplitter *)

Section SplitterFacts.
Import HexagonSplitter.

Lemma returned_bind {A B} (o : outcome A) (k : A -> outcome B) :
  returned (o ≫= k) = match o with Returns v => returned (k v) | Throws _ => false end.
Proof. destruct o; reflexivity. Qed.

Example merge_scenario_status :
  coverageStatus
    (mergeSubHexagonResults Demo.cell7
       [ {| sub_h3Id := "a"; businesses := []; total := 50 |};
         {| sub_h3Id := "b"; businesses := []; total := 0 |};
         {| sub_h3Id := "c"; businesses := []; total := 300 |} ])
  = "partial-empty".
Proof. reflexivity. Qed.

(** C1, as the specification states it, fails on its own scenario: for
    children with counts 50, 0 and 300 a dense child is present, yet the
    status returned is "partial-empty", not "partial-dense". *)
Lemma C1_merge_scenario_not_partial_dense :
  let children :=
    [ {| sub_h3Id := "a"; businesses := []; total := 50 |};
      {| sub_h3Id := "b"; businesses := []; total := 0 |};
      {| sub_h3Id := "c"; businesses := []; total := 300 |} ] in
  existsb (fun r => 240 <? total r) children = true /\
  coverageStatus (mergeSubHexagonResults Demo.cell7 children) <> "partial-dense".
Proof. split; [reflexivity | discriminate]. Qed.

(** C1 (amended): the status is "partial-empty" if any child's total is
    zero; otherwise "partial-dense" if any child's total exceeds 240;
    otherwise "complete". *)
Theorem C1_merge_coverageStatus (originalH3Id : string) (splitResults : list SubResult) :
  coverageStatus (mergeSubHexagonResults originalH3Id splitResults) =
    if existsb (fun r => total r =? 0) splitResults then "partial-empty"
    else if existsb (fun r => 240 <? total r) splitResults then "partial-dense"
    else "complete".
Proof.
  unfold mergeSubHexagonResults; cbn [coverageStatus].
  destruct (existsb (fun r => total r =? 0) splitResults); reflexivity.
Qed.

Lemma validateSplitConfiguration_spec (currentResolution targetResolution : Z) :
  validateSplitConfiguration currentResolution targetResolution =
    (currentResolution <? targetResolution)
    && (targetResolution - currentResolution <=? 2)
    && (targetResolution <=? 12).
Proof.
  unfold validateSplitConfiguration.
  repeat match goal with |- context [Z.leb ?a ?b] => destruct (Z.leb_spec a b) end;
  repeat match goal with |- context [Z.ltb ?a ?b] => destruct (Z.ltb_spec a b) end;
  simpl; try reflexivity; lia.
Qed.

Lemma splitHexagon_rejects_non_increasing {grid : H3} {format : NumberFormat} (h3Id : string)
    (currentResolution targetResolution : Z) :
  targetResolution <= currentResolution ->
  splitHexagon h3Id currentResolution targetResolution =
    Throws ("Failed to split hexagon " +:+ h3Id
              +:+ ": Target resolution must be higher than current resolution").
Proof.
  intros Hle. unfold splitHexagon, splitHexagon_body.
  destruct (Z.leb_spec targetResolution currentResolution); [reflexivity | lia].
Qed.

(** C5, as the specification states it, fails: on a grid that enumerates
    children, a split from resolution 7 to 10 (a jump of three levels) and
    a split from 12 to 13 (beyond the bound) are both carried out, although
    [validateSplitConfiguration] rejects both configurations. *)
Lemma C5_splitHexagon_accepts_large_jump :
  returned (splitHexagon (grid := Demo.grid) (format := Demo.format) Demo.cell7 7 10) = true /\
  validateSplitConfiguration 7 10 = false /\
  returned (splitHexagon (grid := Demo.grid) (format := Demo.format) Demo.cell12 12 13) = true /\
  validateSplitConfiguration 12 13 = false.
Proof. repeat split; vm_compute; reflexivity. Qed.

(** C5 (amended): [splitHexagon] rejects exactly when the target
    resolution is not strictly greater than the current one or the grid
    fails to enumerate the children or their centers; the limits on the
    jump (at most 2 levels) and on the target (at most 12) are those of
    [validateSplitConfiguration], which [splitHexagon] does not consult. *)
Theorem C5_splitHexagon_rejection {grid : H3} {format : NumberFormat} (h3Id : string)
    (currentResolution targetResolution : Z) :
  returned (splitHexagon h3Id currentResolution targetResolution) =
    (currentResolution <? targetResolution)
    && returned (children ← cellToChildren h3Id targetResolution ;
                 map_outcome cellToLatLng children)
  /\ validateSplitConfiguration currentResolution targetResolution =
       (currentResolution <? targetResolution)
       && (targetResolution - currentResolution <=? 2)
       && (targetResolution <=? 12).
Proof.
  split; [| apply validateSplitConfiguration_spec].
  unfold splitHexagon, splitHexagon_body.
  destruct (Z.leb_spec targetResolution currentResolution) as [Hle | Hlt].
  - replace (currentResolution <? targetResolution) with false
      by (symmetry; apply Z.ltb_ge; lia).
    reflexivity.
  - replace (currentResolution <? targetResolution) with true
      by (symmetry; apply Z.ltb_lt; lia).
    cbn [andb].
    destruct (cellToChildren h3Id targetResolution) as [children | m]; [| reflexivity].
    cbn.
    induction children as [| child rest IH]; [reflexivity |].
    cbn. destruct (cellToLatLng child) as [c | m]; [| reflexivity].
    cbn. cbn in IH.
    destruct (map_outcome _ rest); destruct (map_outcome cellToLatLng rest);
      cbn in *; congruence.
Qed.

End SplitterFacts.

(** ** hexagonCoverage *)

Lemma Qgtb_true_iff (a b : Q) : Qgtb a b = true <-> (b < a)%Q.
Proof.
  unfold Qgtb. rewrite negb_true_iff, <- not_true_iff_false, Qle_bool_iff.
  split; [apply Qnot_le_lt | apply Qlt_not_le].
Qed.

Lemma Qgtb_false_iff (a b : Q) : Qgtb a b = false <-> (a <= b)%Q.
Proof.
  unfold Qgtb. rewrite negb_false_iff. apply Qle_bool_iff.
Qed.

(** [Math.max] returns one of its two arguments. *)
Lemma Qmax_cases (a b : Q) : Qmax a b = a \/ Qmax a b = b.
Proof.
  unfold Qmax, GenericMinMax.gmax. destruct (a ?= b)%Q; auto.
Qed.

Section CoverageFacts.
Import HexagonCoverage.
Context {grid : H3} {turf : Turf} {format : NumberFormat}.

Lemma imap_types {A} (f : nat -> A -> SearchPoint) (l : list A) (t : string) :
  (forall i x, type (f i x) = t) ->
  type <$> imap f l = replicate (length l) t.
Proof.
  revert f. induction l as [| x l IH]; intros f Hf; [reflexivity |].
  cbn. rewrite Hf. f_equal. apply IH. intros i y. apply Hf.
Qed.

Lemma generateCornerSearches_types center boundary primaryRadius maxCorners :
  type <$> generateCornerSearches center boundary primaryRadius maxCorners
  = replicate (Nat.min maxCorners (length boundary)) "corner".
Proof.
  unfold generateCornerSearches.
  rewrite (imap_types _ _ "corner") by reflexivity.
  rewrite length_take. f_equal. apply Nat.min_l, Nat.le_min_r.
Qed.

Lemma generateEdgeSearches_types center boundary primaryRadius maxEdges :
  type <$> generateEdgeSearches center boundary primaryRadius maxEdges
  = replicate (Nat.min maxEdges (length boundary)) "edge".
Proof.
  unfold generateEdgeSearches.
  rewrite (imap_types _ _ "edge") by reflexivity.
  rewrite length_take. f_equal. apply Nat.min_l, Nat.le_min_r.
Qed.

Lemma generateAdaptiveSearchPoints_types center boundary primaryRadius hexagonArea :
  (3 <= length boundary)%nat ->
  type <$> generateAdaptiveSearchPoints center boundary primaryRadius hexagonArea
  = if Qgtb hexagonArea 8 then ["primary"; "corner"; "corner"; "corner"; "edge"; "edge"]
    else if Qgtb hexagonArea 3 then ["primary"; "corner"; "corner"]
    else ["primary"].
Proof.
  intros Hlen. unfold generateAdaptiveSearchPoints.
  destruct (Qgtb hexagonArea 8); [| destruct (Qgtb hexagonArea 3)].
  - rewrite !fmap_app, generateCornerSearches_types, generateEdgeSearches_types.
    rewrite !Nat.min_l by lia. reflexivity.
  - rewrite fmap_app, generateCornerSearches_types.
    rewrite Nat.min_l by lia. reflexivity.
  - reflexivity.
Qed.

(** What [generateSearchPoints] returns, when it returns. *)
Lemma generateSearchPoints_returns h3Id coverage :
  generateSearchPoints h3Id = Returns coverage ->
  exists center boundary,
    cellToLatLng h3Id = Returns center /\
    cellToBoundary h3Id = Returns boundary /\
    coverage =
      {| h3Id := h3Id;
         center := center;
         searchPoints :=
           generateAdaptiveSearchPoints center boundary
             (calculateOptimalRadius center boundary) (calculateHexagonArea h3Id);
         totalRadius := calculateOptimalRadius center boundary;
         coverageStrategy := "adaptive-coverage-optimized" |}.
Proof.
  unfold generateSearchPoints, generateSearchPoints_body.
  destruct (cellToLatLng h3Id) as [center | m]; cbn; [| discriminate].
  destruct (cellToBoundary h3Id) as [boundary | m]; cbn; [| discriminate].
  intros [= <-]. exists center, boundary. auto.
Qed.

(** C8: the plan of a cell is a function of the cell, and for a boundary
    of at least 3 vertices it holds exactly the primary probe when
    area <= 3, the primary and 2 corner probes when 3 < area <= 8, and the
    primary, 3 corner and 2 edge probes when area > 8. *)
Theorem C8_probe_count_by_area (h3Id : string) (coverage : HexagonCoverage)
    (boundary : list LatLng) :
  generateSearchPoints h3Id = Returns coverage ->
  cellToBoundary h3Id = Returns boundary ->
  (3 <= length boundary)%nat ->
  let area := calculateHexagonArea h3Id in
  let plan := searchPoints coverage in
  (forall coverage', generateSearchPoints h3Id = Returns coverage' -> coverage' = coverage) /\
  ((area <= 3)%Q ->
     length plan = 1%nat /\ type <$> plan = ["primary"]) /\
  ((3 < area)%Q /\ (area <= 8)%Q ->
     length plan = 3%nat /\ type <$> plan = ["primary"; "corner"; "corner"]) /\
  ((8 < area)%Q ->
     length plan = 6%nat /\
     type <$> plan = ["primary"; "corner"; "corner"; "corner"; "edge"; "edge"]).
Proof.
  intros Hgen Hb Hlen area plan.
  split; [intros coverage' Hgen'; congruence |].
  destruct (generateSearchPoints_returns _ _ Hgen) as (center & boundary' & Hc & Hb' & ->).
  assert (boundary' = boundary) as -> by congruence.
  subst plan; cbn [searchPoints].
  pose proof (generateAdaptiveSearchPoints_types center boundary
                (calculateOptimalRadius center boundary) area Hlen) as Htypes.
  assert (Hcount : forall ts, type <$> generateAdaptiveSearchPoints center boundary
                     (calculateOptimalRadius center boundary) area = ts ->
                   length (generateAdaptiveSearchPoints center boundary
                     (calculateOptimalRadius center boundary) area) = length ts).
  { intros ts <-. symmetry. apply length_fmap. }
  fold area in Htypes, Hcount |- *.
  assert (Hcase : forall ts,
            (if Qgtb area 8
             then ["primary"; "corner"; "corner"; "corner"; "edge"; "edge"]
             else if Qgtb area 3 then ["primary"; "corner"; "corner"]
             else ["primary"]) = ts ->
            length (generateAdaptiveSearchPoints center boundary
                      (calculateOptimalRadius center boundary) area) = length ts /\
            type <$> generateAdaptiveSearchPoints center boundary
                      (calculateOptimalRadius center boundary) area = ts).
  { intros ts <-. split; [apply Hcount |]; exact Htypes. }
  split; [| split].
  - intros Hle3. apply (Hcase ["primary"]).
    assert (Qgtb area 3 = false) as -> by (apply Qgtb_false_iff; assumption).
    assert (Qgtb area 8 = false) as ->
      by (apply Qgtb_false_iff; eapply Qle_trans; [eassumption | discriminate]).
    reflexivity.
  - intros [Hgt3 Hle8]. apply (Hcase ["primary"; "corner"; "corner"]).
    apply Qgtb_true_iff in Hgt3. apply Qgtb_false_iff in Hle8.
    rewrite Hle8, Hgt3. reflexivity.
  - intros Hgt8.
    apply (Hcase ["primary"; "corner"; "corner"; "corner"; "edge"; "edge"]).
    apply Qgtb_true_iff in Hgt8. rewrite Hgt8. reflexivity.
Qed.

(** The loop of [calculateOptimalRadius] returns the largest of the start
    value and the values its distance calls return, one call per entry of
    the boundary. *)
Lemma farthestCorner_spec center boundary start maxDistance :
  farthestCorner center boundary start = Returns maxDistance ->
  (start <= maxDistance)%Q /\
  (forall corner, corner ∈ boundary ->
     exists d, cornerDistance center corner = Returns d /\ (d <= maxDistance)%Q) /\
  (maxDistance = start \/
   exists corner, corner ∈ boundary /\
     cornerDistance center corner = Returns maxDistance).
Proof.
  revert start. induction boundary as [| corner rest IH]; intros start; cbn.
  - intros [= <-]. split; [apply Qle_refl |]. split; [| by left].
    intros corner Hin. by apply elem_of_nil in Hin.
  - destruct (cornerDistance center corner) as [d | m] eqn:Hd; cbn; [| discriminate].
    intros Hrest. destruct (IH _ Hrest) as (Hstart & Hall & Hhit).
    split; [eapply Qle_trans; [apply Q.le_max_l | exact Hstart] |].
    split.
    + intros c [-> | Hin]%elem_of_cons.
      * exists d. split; [exact Hd |].
        eapply Qle_trans; [apply Q.le_max_r | exact Hstart].
      * apply Hall, Hin.
    + destruct Hhit as [-> | (c & Hin & Hc)].
      * destruct (Qmax_cases start d) as [-> | ->]; [by left | right].
        exists corner. split; [apply elem_of_cons; by left | exact Hd].
      * right. exists c. split; [apply elem_of_cons; by right | exact Hc].
Qed.

Lemma Math_round_bounds (x lo hi : Q) (zlo zhi : Z) :
  (lo <= x)%Q -> (x <= hi)%Q ->
  Qfloor (lo + (1 # 2)) = zlo -> Qfloor (hi + (1 # 2)) = zhi ->
  (inject_Z zlo <= Math_round x)%Q /\ (Math_round x <= inject_Z zhi)%Q.
Proof.
  intros Hlo Hhi <- <-. unfold Math_round.
  rewrite <- !Zle_Qle. split; apply Qfloor_resp_le; lra.
Qed.

(** The radius of the primary probe is never negative and never above
    1166 m. *)
Lemma calculateOptimalRadius_bounds (center : LatLng) (boundary : list LngLat) :
  (0 <= calculateOptimalRadius center boundary)%Q /\
  (calculateOptimalRadius center boundary <= 1166)%Q.
Proof.
  unfold calculateOptimalRadius.
  destruct (farthestCorner center boundary 0) as [d | m] eqn:Hfar.
  - apply farthestCorner_spec in Hfar as (Hd & _ & _).
    apply (Math_round_bounds _ 0 1166 0 1166); try reflexivity.
    + apply Q.min_glb; lra.
    + eapply Qle_trans; [apply Q.le_min_r |]. lra.
  - split; lra.
Qed.


(** C2 (amended): [generateSearchPoints] returns a plan exactly when the
    grid yields the center and the boundary of the cell, and throws
    "Failed to generate search points" to its caller otherwise.  Within a
    returned plan, a failing distance computation makes the primary radius
    1060 m, and a failing area computation makes the plan the primary
    probe alone. *)
Theorem C2_generateSearchPoints_failure_modes (h3Id : string) :
  match cellToLatLng h3Id, cellToBoundary h3Id with
  | Returns center, Returns boundary =>
      exists coverage,
        generateSearchPoints h3Id = Returns coverage /\
        (returned (farthestCorner center boundary 0) = false ->
           totalRadius coverage = 1060%Q) /\
        (returned (cellArea h3Id) = false ->
           searchPoints coverage = [primaryProbe center (totalRadius coverage)])
  | _, _ =>
      generateSearchPoints h3Id =
        Throws ("Failed to generate search points for hexagon " +:+ h3Id)
  end.
Proof.
  unfold generateSearchPoints, generateSearchPoints_body.
  destruct (cellToLatLng h3Id) as [center | m]; cbn; [| reflexivity].
  destruct (cellToBoundary h3Id) as [boundary | m]; cbn; [| reflexivity].
  eexists. split; [reflexivity |]. cbn [totalRadius searchPoints]. split.
  - unfold calculateOptimalRadius.
    destruct (farthestCorner center boundary 0); [discriminate | reflexivity].
  - unfold calculateHexagonArea, generateAdaptiveSearchPoints.
    destruct (cellArea h3Id); [discriminate | reflexivity].
Qed.

(** C6 (amended): a plan is accepted if and only if it contains at least
    one probe of type 'primary' and, when the area of the cell exceeds
    10 km2, at least 2 corner probes; the area counts as 0 when the grid
    cannot compute it.  The number of primary probes is not bounded. *)
Theorem C6_validateCoverage (hexagonCoverage : HexagonCoverage) :
  validateCoverage hexagonCoverage = true <->
    (exists p, p ∈ searchPoints hexagonCoverage /\ type p = "primary") /\
    ((10 < calculateHexagonArea (h3Id hexagonCoverage))%Q ->
       (2 <= length (List.filter (isType "corner") (searchPoints hexagonCoverage)))%nat).
Proof.
  unfold validateCoverage.
  set (points := searchPoints hexagonCoverage).
  set (area := calculateHexagonArea (h3Id hexagonCoverage)).
  set (corners := List.filter (isType "corner") points).
  destruct (Nat.eqb_spec (length points) 0) as [Hnil | Hsome].
  - apply nil_length_inv in Hnil. rewrite Hnil.
    split; [discriminate |]. intros [(p & Hin & _) _]. by apply elem_of_nil in Hin.
  - destruct (find (isType "primary") points) as [p |] eqn:Hfind.
    + apply find_some in Hfind as [Hin Hp].
      apply list_elem_of_In in Hin. apply bool_decide_eq_true in Hp.
      destruct (Qgtb area 10) eqn:Harea; cbn [andb].
      * apply Qgtb_true_iff in Harea.
        destruct (Nat.ltb_spec (length corners) 2) as [Hfew | Hmany].
        -- split; [discriminate |]. intros [_ Hc]. specialize (Hc Harea). lia.
        -- split; [| reflexivity]. intros _. split; [by exists p | by intros _].
      * apply Qgtb_false_iff in Harea.
        split; [| reflexivity]. intros _. split; [by exists p |].
        intros Hlt. exfalso. eapply Qlt_not_le; eassumption.
    + split; [discriminate |]. intros [(p & Hin & Hp) _].
      apply list_elem_of_In in Hin.
      pose proof (find_none _ _ Hfind p Hin) as Hno.
      unfold isType in Hno. apply bool_decide_eq_false in Hno. contradiction.
Qed.

End CoverageFacts.

Section CoverageExamples.
Import HexagonCoverage.

Example plan_of_resolution_5_cell :
  (fun c => (totalRadius c, type <$> searchPoints c)) <$>
    (match Demo.plan Demo.cell5 with Returns c => Some c | Throws _ => None end)
  = Some (1166%Q, ["primary"; "corner"; "corner"; "corner"; "edge"; "edge"]).
Proof. vm_compute. reflexivity. Qed.

Example plan_with_broken_turf :
  (fun c => (totalRadius c, type <$> searchPoints c)) <$>
    (match generateSearchPoints (grid := Demo.grid) (turf := Demo.brokenTurf)
             (format := Demo.format) Demo.cell7
     with Returns c => Some c | Throws _ => None end)
  = Some (1060%Q, ["primary"; "corner"; "corner"]).
Proof. vm_compute. reflexivity. Qed.

(** C8 at the resolution-7 cell of the sample: area 5.36 km2, 3 probes. *)
Lemma C8_probe_count_by_area_witness :
  exists coverage boundary,
    Demo.plan Demo.cell7 = Returns coverage /\
    cellToBoundary (H3 := Demo.grid) Demo.cell7 = Returns boundary /\
    (3 <= length boundary)%nat /\
    length (searchPoints coverage) = 3%nat /\
    type <$> searchPoints coverage = ["primary"; "corner"; "corner"].
Proof.
  do 2 eexists.
  split; [vm_compute; reflexivity |].
  split; [vm_compute; reflexivity |].
  split; [vm_compute; lia |].
  refine (proj1 (proj2 (proj2
    (C8_probe_count_by_area (grid := Demo.grid) (turf := Demo.turf)
       (format := Demo.format) Demo.cell7 _ _ _ _ _))) _).
  - vm_compute; reflexivity.
  - vm_compute; reflexivity.
  - vm_compute; lia.
  - split; vm_compute; congruence.
Defined.

(** C2, as the specification states it, fails: [ffffffffffffffff] is no
    cell of the grid, h3-js rejects it with an exception, and the planner
    throws to its caller instead of returning a plan with the fallback
    radius. *)
Lemma C2_generateSearchPoints_throws :
  cellToLatLng (H3 := Demo.grid) "ffffffffffffffff"
  = Throws "Cell argument was not valid" /\
  Demo.plan "ffffffffffffffff"
  = Throws "Failed to generate search points for hexagon ffffffffffffffff".
Proof. split; vm_compute; reflexivity. Qed.



(** C6, as the specification states it, fails: a plan for the
    resolution-7 cell that holds two primary probes is accepted. *)
Lemma C6_two_primaries_accepted :
  let p := primaryProbe (format := Demo.format) Demo.center7 1166 in
  let plan := {| h3Id := Demo.cell7; center := Demo.center7; searchPoints := [p; p];
                 totalRadius := 1166; coverageStrategy := "adaptive-coverage-optimized" |} in
  length (List.filter (isType "primary") (searchPoints plan)) = 2%nat /\
  validateCoverage (grid := Demo.grid) plan = true.
Proof. split; vm_compute; reflexivity. Qed.

End CoverageExamples.


(** ** apiQuotaManager *)

Section QuotaFacts.
Import APIQuotaManager.

Lemma estimatedCalls_estimate q hexagonCount points pages :
  estimatedCalls (estimateQuotaForCity q hexagonCount points pages)
  = Double.mul (Double.mul (inject_Z hexagonCount) points) pages.
Proof. unfold estimateQuotaForCity. repeat destruct (Qgtb _ _); reflexivity. Qed.

Lemma remainingQuota_estimate q hexagonCount points pages :
  remainingQuota (estimateQuotaForCity q hexagonCount points pages)
  = dailyLimit q - dailyUsage q.
Proof. unfold estimateQuotaForCity. repeat destruct (Qgtb _ _); reflexivity. Qed.

Lemma canProcessRequest_estimate q hexagonCount points pages :
  canProcessRequest (estimateQuotaForCity q hexagonCount points pages)
  = Qle_bool (Double.mul (Double.mul (inject_Z hexagonCount) points) pages)
             (inject_Z (dailyLimit q - dailyUsage q)).
Proof. unfold estimateQuotaForCity. repeat destruct (Qgtb _ _); reflexivity. Qed.

Lemma riskLevel_estimate q hexagonCount points pages :
  let e := Double.mul (Double.mul (inject_Z hexagonCount) points) pages in
  let r := dailyLimit q - dailyUsage q in
  riskLevel (estimateQuotaForCity q hexagonCount points pages)
  = if Qgtb e (quotaShare r (8 # 10)) then "critical"
    else if Qgtb e (quotaShare r (6 # 10)) then "high"
    else if Qgtb e (quotaShare r (4 # 10)) then "medium"
    else "low".
Proof. cbv zeta. unfold estimateQuotaForCity. repeat destruct (Qgtb _ _); reflexivity. Qed.

(** A larger share of a quota that is not negative is a larger number,
    also after rounding. *)
Lemma quotaShare_monotone (r : Z) (c c' : Q) :
  0 <= r -> (c <= c')%Q -> (quotaShare r c <= quotaShare r c')%Q.
Proof.
  intros Hr Hc. unfold quotaShare, Double.mul.
  apply round_monotone.
  pose proof (round_monotone c c' Hc) as Hround.
  assert (HR : (0 <= inject_Z r)%Q) by (change 0%Q with (inject_Z 0); by rewrite <- Zle_Qle).
  nra.
Qed.

(** The share [r * c] as the machine computes it lies within a relative
    2^-51 of the exact product. *)
Lemma quotaShare_near (r : Z) (c : Q) :
  0 < r -> (1 # 10 <= c)%Q -> (c <= 1)%Q ->
  (c * inject_Z r * (1 - 2 ^ (-51)) <= quotaShare r c)%Q /\
  (quotaShare r c <= c * inject_Z r * (1 + 2 ^ (-51)))%Q.
Proof.
  intros Hr Hlo Hhi. unfold quotaShare, Double.mul.
  assert (HR : (1 <= inject_Z r)%Q) by (change 1%Q with (inject_Z 1); rewrite <- Zle_Qle; lia).
  assert (Hsmall : (2 ^ (-1022) <= 3 # 40)%Q).
  { eapply Qle_trans; [apply (pow2_le (-1022) (-4)); lia |]. vm_compute. discriminate. }
  assert (Hu : (2 ^ (-51) == 4 * 2 ^ (-53))%Q) by reflexivity.
  assert (Hu0 : (0 < 2 ^ (-53))%Q) by apply pow2_pos.
  assert (Hu1 : (2 ^ (-53) <= 1 # 4)%Q) by (vm_compute; discriminate).
  rewrite Hu.
  assert (Hc : (c * (1 - 2 ^ (-53)) <= Double.round c)%Q /\
               (Double.round c <= c * (1 + 2 ^ (-53)))%Q)
    by (apply round_error; lra).
  assert (Ht : (2 ^ (-1022) <= inject_Z r * Double.round c)%Q ->
               (inject_Z r * Double.round c * (1 - 2 ^ (-53))
                <= Double.round (inject_Z r * Double.round c))%Q /\
               (Double.round (inject_Z r * Double.round c)
                <= inject_Z r * Double.round c * (1 + 2 ^ (-53)))%Q)
    by apply round_error.
  set (u := (2 ^ (-53))%Q) in *. clearbody u.
  destruct Hc as [Hc1 Hc2].
  set (c' := Double.round c) in *. clearbody c'.
  set (R := inject_Z r) in *. clearbody R.
  assert (Hx1 : (c * R * (1 - u) <= R * c')%Q) by nra.
  assert (Hx2 : (R * c' <= c * R * (1 + u))%Q) by nra.
  assert (Hy : (3 # 40 <= c * R * (1 - u))%Q) by nra.
  destruct Ht as [Ht1 Ht2]; [lra |].
  set (t := Double.round (R * c')) in *. clearbody t.
  set (x := (R * c')%Q) in *. clearbody x.
  set (y := (c * R)%Q) in *.
  assert (Hy0 : (0 <= y)%Q) by (subst y; nra).
  clearbody y.
  assert (H1 : (y * (1 - u) * (1 - u) <= x * (1 - u))%Q) by nra.
  assert (H2 : (x * (1 + u) <= y * (1 + u) * (1 + u))%Q) by nra.
  assert (H3 : (y * (1 - 4 * u) <= y * (1 - u) * (1 - u))%Q) by nra.
  assert (H4 : (y * (1 + u) * (1 + u) <= y * (1 + 4 * u))%Q) by nra.
  split; lra.
Qed.

(** No share of at most 80% exceeds the quota itself. *)
Lemma quotaShare_below (r : Z) (c : Q) :
  0 < r -> (1 # 10 <= c)%Q -> (c <= 8 # 10)%Q -> (quotaShare r c <= inject_Z r)%Q.
Proof.
  intros Hr Hlo Hhi.
  destruct (quotaShare_near r c Hr Hlo) as [_ H]; [lra |].
  assert (HR : (1 <= inject_Z r)%Q) by (change 1%Q with (inject_Z 1); rewrite <- Zle_Qle; lia).
  assert (Hu : (2 ^ (-51) <= 1 # 8)%Q) by (vm_compute; discriminate).
  assert (Hu0 : (0 < 2 ^ (-51))%Q) by apply pow2_pos.
  set (u := (2 ^ (-51))%Q) in *. clearbody u.
  set (R := inject_Z r) in *. clearbody R.
  assert (H0 : (c * R <= (8 # 10) * R)%Q) by nra.
  assert (H1 : (c * R * (1 + u) <= (8 # 10) * R * (1 + u))%Q) by nra.
  assert (H2 : ((8 # 10) * R * (1 + u) <= R)%Q) by nra.
  lra.
Qed.

Example estimate_default_hexagon :
  let est := estimateQuotaForCity (new 0 5000 50) 1 7 (15 # 10) in
  (estimatedCalls est == 105 # 10)%Q /\ riskLevel est = "low" /\ canProcessRequest est = true.
Proof. vm_compute. repeat split. Qed.

(** In double precision [7 * 1.2 * 1.5] is 12.600000000000001 and
    [21 * 0.6] is 12.6: the estimate of 60% of the remainder is classified
    high. *)
Example estimate_rounding_decides :
  let est := estimateQuotaForCity (new 0 21 50) 7 (Double.round (12 # 10)) (15 # 10) in
  (quotaShare 21 (6 # 10) < estimatedCalls est)%Q /\
  (estimatedCalls est < (126 # 10) * (1 + 2 ^ (-52)))%Q /\
  riskLevel est = "high".
Proof. vm_compute. repeat split. Qed.

(** C7, as the specification states it, fails twice on a manager with
    100 calls remaining: an estimate of exactly 40% of the remainder is
    classified low, not medium, and an estimate of 90% of the remainder is
    critical although [canProcessRequest] is true.  (The products 100 * 0.4
    and 100 * 0.8 are the integers 40 and 80 in double precision.) *)
Lemma C7_boundary_and_critical_can_process :
  let q := new 0 100 50 in
  let est40 := estimateQuotaForCity q 40 1 1 in
  let est90 := estimateQuotaForCity q 90 1 1 in
  (estimatedCalls est40 / inject_Z (remainingQuota est40) == 4 # 10)%Q /\
  riskLevel est40 = "low" /\
  (estimatedCalls est90 / inject_Z (remainingQuota est90) == 9 # 10)%Q /\
  riskLevel est90 = "critical" /\
  canProcessRequest est90 = true.
Proof. vm_compute. repeat split. Qed.

(** C7 (amended): with a remaining daily quota r > 0 and an estimate of e
    calls, the risk level is low when e <= r * 0.4, medium when
    r * 0.4 < e <= r * 0.6, high when r * 0.6 < e <= r * 0.8 and critical
    when e > r * 0.8, the three products being those of double-precision
    arithmetic, each within a relative 2^-51 of 40%, 60% and 80% of r;
    [canProcessRequest] is true exactly when e <= r, so a request that
    cannot be processed is always critical, while a critical one with
    e <= r can be processed. *)
Theorem C7_risk_levels (q : APIQuotaManager) (hexagonCount : Z)
    (averageSearchPointsPerHexagon estimatedPagesPerSearch : Q) :
  let est := estimateQuotaForCity q hexagonCount
               averageSearchPointsPerHexagon estimatedPagesPerSearch in
  let e := estimatedCalls est in
  let r := remainingQuota est in
  0 < r ->
  (riskLevel est = "low" <-> (e <= quotaShare r (4 # 10))%Q) /\
  (riskLevel est = "medium" <->
     (quotaShare r (4 # 10) < e)%Q /\ (e <= quotaShare r (6 # 10))%Q) /\
  (riskLevel est = "high" <->
     (quotaShare r (6 # 10) < e)%Q /\ (e <= quotaShare r (8 # 10))%Q) /\
  (riskLevel est = "critical" <-> (quotaShare r (8 # 10) < e)%Q) /\
  (canProcessRequest est = true <-> (e <= inject_Z r)%Q) /\
  (canProcessRequest est = false -> riskLevel est = "critical") /\
  (forall c : Q, c ∈ [4 # 10; 6 # 10; 8 # 10]%Q ->
     (c * inject_Z r * (1 - 2 ^ (-51)) <= quotaShare r c)%Q /\
     (quotaShare r c <= c * inject_Z r * (1 + 2 ^ (-51)))%Q).
Proof.
  intros est e r Hr.
  assert (Hrisk : riskLevel est =
            if Qgtb e (quotaShare r (8 # 10)) then "critical"
            else if Qgtb e (quotaShare r (6 # 10)) then "high"
            else if Qgtb e (quotaShare r (4 # 10)) then "medium"
            else "low").
  { subst est e r. rewrite estimatedCalls_estimate, remainingQuota_estimate.
    apply riskLevel_estimate. }
  assert (Hcan : canProcessRequest est = Qle_bool e (inject_Z r)).
  { subst est e r. rewrite estimatedCalls_estimate, remainingQuota_estimate.
    apply canProcessRequest_estimate. }
  assert (H46 : (quotaShare r (4 # 10) <= quotaShare r (6 # 10))%Q)
    by (apply quotaShare_monotone; [lia | vm_compute; discriminate]).
  assert (H68 : (quotaShare r (6 # 10) <= quotaShare r (8 # 10))%Q)
    by (apply quotaShare_monotone; [lia | vm_compute; discriminate]).
  assert (H8r : (quotaShare r (8 # 10) <= inject_Z r)%Q)
    by (apply quotaShare_below; [exact Hr | vm_compute; discriminate | apply Qle_refl]).
  pose proof (Qgtb_true_iff e (quotaShare r (8 # 10))) as H8.
  pose proof (Qgtb_true_iff e (quotaShare r (6 # 10))) as H6.
  pose proof (Qgtb_true_iff e (quotaShare r (4 # 10))) as H4.
  pose proof (Qle_bool_iff e (inject_Z r)) as H1.
  rewrite Hrisk, Hcan. clear Hrisk Hcan.
  set (t4 := quotaShare r (4 # 10)) in *.
  set (t6 := quotaShare r (6 # 10)) in *.
  set (t8 := quotaShare r (8 # 10)) in *.
  assert (Hnear : forall c : Q, c ∈ [4 # 10; 6 # 10; 8 # 10]%Q ->
            (c * inject_Z r * (1 - 2 ^ (-51)) <= quotaShare r c)%Q /\
            (quotaShare r c <= c * inject_Z r * (1 + 2 ^ (-51)))%Q).
  { intros c Hc. apply quotaShare_near; [exact Hr | |];
      repeat (apply elem_of_cons in Hc as [-> | Hc]; [vm_compute; discriminate |]);
      by apply elem_of_nil in Hc. }
  clearbody t4 t6 t8. set (R := inject_Z r) in *. clearbody R. clearbody e.
  destruct (Qgtb e t8), (Qgtb e t6), (Qgtb e t4), (Qle_bool e R);
    repeat match goal with
    | H : true = true <-> ?P |- _ => assert P by (apply H; reflexivity); clear H
    | H : false = true <-> ?P |- _ =>
        assert (~ P) by (intros C; apply H in C; discriminate); clear H
    end;
    (split; [| split; [| split; [| split; [| split; [| split; [| exact Hnear]]]]]]);
    try split; intros; try discriminate; try reflexivity;
    repeat match goal with H : _ /\ _ |- _ => destruct H end; try lra.
Qed.

(** C7 on the scenario of the specification: limit 100, 95 used, 10 calls. *)
Lemma C7_risk_levels_witness :
  let q := {| dailyUsage := 95; lastReset := 0; dailyLimit := 100; perSecondLimit := 50;
              currentSecondUsage := 0; lastSecondReset := 0 |} in
  let est := estimateQuotaForCity q 10 1 1 in
  0 < remainingQuota est /\
  riskLevel est = "critical" /\
  canProcessRequest est = false.
Proof.
  intros q est.
  assert (Hr : 0 < remainingQuota est) by (vm_compute; reflexivity).
  split; [exact Hr |].
  assert (Hcan : canProcessRequest est = false) by (vm_compute; reflexivity).
  split; [| exact Hcan].
  exact (proj1 (proj2 (proj2 (proj2 (proj2 (proj2 (C7_risk_levels q 10 1 1 Hr)))))) Hcan).
Defined.

End QuotaFacts.

(** ** hexagonProcessor and the clear_history action *)

Section ProcessorFacts.
Import HexagonProcessor.

Lemma countValues_empty pred : countValues pred ∅ = 0.
Proof. unfold countValues. rewrite map_to_list_empty. reflexivity. Qed.

Lemma getProcessingStats_clearHistory (p : HexagonProcessor) :
  getProcessingStats (clearHistory p) =
    {| queued := 0; processing := 0; completed := 0; failed := 0; split := 0;
       stats_total := 0; resolution7 := 0; resolution8 := 0;
       stats_subdivisionQueue := 0; stats_parentChildRelationships := 0 |}.
Proof.
  unfold getProcessingStats, clearHistory; cbn.
  rewrite !countValues_empty, !map_size_empty. reflexivity.
Qed.

(** A dense resolution-7 cell is split: one entry in each of the queue,
    the completed map, the subdivision queue and the parent index. *)
Example stats_after_a_split :
  let p := snd (handleDenseHexagons (grid := Demo.grid) (format := Demo.format) Demo.cell7 241 7 new) in
  let stats := getProcessingStats p in
  (completed stats, split stats, resolution7 stats,
   stats_subdivisionQueue stats, stats_parentChildRelationships stats)
  = (1, 1, 1, 1, 1).
Proof. vm_compute. reflexivity. Qed.

(** C3, as the specification states it, fails for the method of the
    processor: after one tracked API call, [hexagonProcessor.clearHistory()]
    leaves the quota manager reporting one daily and one per-second call. *)
Lemma C3_processor_clearHistory_keeps_quota :
  let s := Route.processorClearHistory (Route.trackAPICall (Route.boot 0)) in
  let status := APIQuotaManager.getQuotaStatus (Route.yelpQuotaManager s) in
  APIQuotaManager.dailyUsed status = 1 /\ APIQuotaManager.perSecondUsed status = 1.
Proof. split; reflexivity. Qed.

(** C3 (amended): [HexagonProcessor.clearHistory()] empties the six maps of
    the processor, so that every counter of [getProcessingStats()] is zero,
    and leaves the quota manager and the rate limiter as they are; the
    [clear_history] action of the route calls it and then [resetQuota()]
    and [resetDailyQuota()], after which [getQuotaStatus()] also reports
    zero daily and per-second usage. *)
Theorem C3_clearHistory_resets (now : Z) (s : Route.Server) :
  let zero :=
    {| queued := 0; processing := 0; completed := 0; failed := 0; split := 0;
       stats_total := 0; resolution7 := 0; resolution8 := 0;
       stats_subdivisionQueue := 0; stats_parentChildRelationships := 0 |} in
  let s1 := Route.processorClearHistory s in
  let s2 := Route.clearHistory now s in
  (getProcessingStats (Route.hexagonProcessor s1) = zero /\
   childParentRelationships (Route.hexagonProcessor s1) = ∅ /\
   Route.yelpQuotaManager s1 = Route.yelpQuotaManager s /\
   Route.yelpRateLimiter s1 = Route.yelpRateLimiter s) /\
  (getProcessingStats (Route.hexagonProcessor s2) = zero /\
   childParentRelationships (Route.hexagonProcessor s2) = ∅ /\
   APIQuotaManager.dailyUsed (APIQuotaManager.getQuotaStatus (Route.yelpQuotaManager s2)) = 0 /\
   APIQuotaManager.perSecondUsed
     (APIQuotaManager.getQuotaStatus (Route.yelpQuotaManager s2)) = 0 /\
   RateLimiter.dailyCalls (Route.yelpRateLimiter s2) = 0).
Proof.
  cbv zeta. unfold Route.processorClearHistory, Route.clearHistory; cbn.
  rewrite !getProcessingStats_clearHistory. repeat split.
Qed.

End ProcessorFacts.

(** ** rateLimiter *)

Section LimiterFacts.
Import RateLimiter.

Lemma canMakeRequest_true (r : RateLimiter) :
  canMakeRequest r = true <->
    dailyCalls r < maxPerDay r /\ perSecondCalls r < maxPerSecond r.
Proof.
  unfold canMakeRequest.
  destruct (Z.leb_spec (maxPerDay r) (dailyCalls r));
    destruct (Z.leb_spec (maxPerSecond r) (perSecondCalls r));
    split; intros; try discriminate; try reflexivity; lia.
Qed.

Lemma loopTurn_effect (w : World) (b : bool) :
  let w0 := {| limiter := setProcessing b (limiter w);
               resolved := resolved w; retryTimers := retryTimers w |} in
  dailyEffect w (loopTurn w0) /\
  maxPerDay (limiter (loopTurn w0)) = maxPerDay (limiter w).
Proof.
  cbv zeta. unfold loopTurn; cbn.
  destruct (requestQueue (limiter w)) as [| next rest]; cbn.
  - split; [by apply Untouched | reflexivity].
  - change (canMakeRequest (setProcessing b (limiter w)))
      with (canMakeRequest (limiter w)).
    destruct (canMakeRequest (limiter w)) eqn:Hcan; cbn.
    + split; [by apply Admission | reflexivity].
    + split; [by apply Untouched | reflexivity].
Qed.

Lemma loopTurn_resume_effect (w : World) :
  dailyEffect w (loopTurn w) /\ maxPerDay (limiter (loopTurn w)) = maxPerDay (limiter w).
Proof.
  unfold loopTurn.
  destruct (requestQueue (limiter w)) as [| next rest]; cbn.
  - split; [by apply Untouched | reflexivity].
  - destruct (canMakeRequest (limiter w)) eqn:Hcan; cbn.
    + split; [by apply Admission | reflexivity].
    + split; [by apply Untouched | reflexivity].
Qed.

Lemma processQueue_effect (w : World) :
  dailyEffect w (processQueue w) /\
  maxPerDay (limiter (processQueue w)) = maxPerDay (limiter w).
Proof.
  unfold processQueue.
  destruct (isProcessing (limiter w) || (length (requestQueue (limiter w)) =? 0)%nat).
  - split; [by apply Untouched | reflexivity].
  - apply (loopTurn_effect w true).
Qed.

Lemma step_effect (t : task) (w w' : World) :
  step t w = Some w' ->
  dailyEffect w w' /\ maxPerDay (limiter w') = maxPerDay (limiter w).
Proof.
  destruct t; cbn.
  - intros [= <-]. unfold waitForSlot.
    destruct (canMakeRequest (limiter w)) eqn:Hcan.
    + split; [by apply Admission | reflexivity].
    + match goal with |- context [processQueue ?w0] =>
        destruct (processQueue_effect w0) as [Heff Hmax]
      end.
      split; [| exact Hmax].
      destruct Heff as [Hsame | Hzero | Hcan' Hinc].
      * by apply Untouched.
      * by apply DailyReset.
      * cbn in Hcan'. unfold canMakeRequest in Hcan', Hcan. cbn in Hcan'. congruence.
  - destruct (isProcessing (limiter w)); [| discriminate].
    intros [= <-]. apply loopTurn_resume_effect.
  - destruct (retryTimers w) as [| n]; [discriminate |].
    intros [= <-].
    match goal with |- context [processQueue ?w0] =>
      destruct (processQueue_effect w0) as [Heff Hmax]
    end.
    split; [| exact Hmax].
    destruct Heff as [Hsame | Hzero | Hcan' Hinc];
      [by apply Untouched | by apply DailyReset | by apply Admission].
  - intros [= <-]. split; [by apply DailyReset | reflexivity].
  - intros [= <-]. split; [by apply Untouched | reflexivity].
  - intros [= <-]. split; [by apply DailyReset | reflexivity].
Qed.

Lemma step_preserves_budget (t : task) (w w' : World) :
  step t w = Some w' ->
  withinDailyBudget (limiter w) -> withinDailyBudget (limiter w').
Proof.
  intros Hstep Hinv. destruct (step_effect _ _ _ Hstep) as [Heff Hmax].
  unfold withinDailyBudget in *. rewrite Hmax.
  destruct Heff as [Hsame | Hzero | Hcan Hinc].
  - lia.
  - lia.
  - apply canMakeRequest_true in Hcan. lia.
Qed.

Lemma run_preserves_budget (schedule : list task) (w : World) :
  withinDailyBudget (limiter w) -> withinDailyBudget (limiter (run schedule w)).
Proof.
  revert w. induction schedule as [| t rest IH]; intros w Hinv; [exact Hinv |].
  cbn. apply IH. destruct (step t w) as [w' |] eqn:Hstep; cbn; [| exact Hinv].
  eapply step_preserves_budget; eassumption.
Qed.

Lemma run_keeps_maxPerDay (schedule : list task) (w : World) :
  maxPerDay (limiter (run schedule w)) = maxPerDay (limiter w).
Proof.
  revert w. induction schedule as [| t rest IH]; intros w; [reflexivity |].
  cbn. rewrite IH. destruct (step t w) as [w' |] eqn:Hstep; cbn; [| reflexivity].
  by destruct (step_effect _ _ _ Hstep) as [_ ->].
Qed.

(** C9: from a limiter created with a daily ceiling [maxPerDay >= 0], every
    schedule of tasks (calls of [waitForSlot], resumptions and retries of
    [processQueue], interval and manual resets) ends in a state with
    [0 <= dailyCalls <= maxPerDay]; and whichever task runs next either
    leaves [dailyCalls], resets it to 0, or increments it by one after
    [canMakeRequest] has confirmed [dailyCalls < maxPerDay] on that state. *)
Theorem C9_daily_budget_invariant (now maxPerSecond maxPerDay : Z) (schedule : list task) :
  0 <= maxPerDay ->
  let w := run schedule (boot now maxPerSecond maxPerDay) in
  0 <= RateLimiter.dailyCalls (limiter w) <= maxPerDay /\
  forall t w', step t w = Some w' ->
    0 <= RateLimiter.dailyCalls (limiter w') <= maxPerDay /\
    (RateLimiter.dailyCalls (limiter w') = RateLimiter.dailyCalls (limiter w) \/
     RateLimiter.dailyCalls (limiter w') = 0 \/
     (canMakeRequest (limiter w) = true /\
      RateLimiter.dailyCalls (limiter w) < maxPerDay /\
      RateLimiter.dailyCalls (limiter w') = RateLimiter.dailyCalls (limiter w) + 1)).
Proof.
  intros Hmax w.
  assert (Hlimit : forall s, RateLimiter.maxPerDay
            (limiter (run s (boot now maxPerSecond maxPerDay))) = maxPerDay).
  { intros s. rewrite run_keeps_maxPerDay. reflexivity. }
  assert (Hinv : withinDailyBudget (limiter w)).
  { apply run_preserves_budget. unfold withinDailyBudget; cbn. lia. }
  pose proof (Hlimit schedule) as Hw. fold w in Hw.
  split; [unfold withinDailyBudget in Hinv; lia |].
  intros t w' Hstep.
  pose proof (step_preserves_budget _ _ _ Hstep Hinv) as Hinv'.
  destruct (step_effect _ _ _ Hstep) as [Heff Hmax'].
  unfold withinDailyBudget in Hinv'. rewrite Hmax', Hw in Hinv'.
  split; [exact Hinv' |].
  destruct Heff as [Hsame | Hzero | Hcan Hinc]; [by left | by right; left |].
  right; right. split; [exact Hcan |]. split; [| exact Hinc].
  apply canMakeRequest_true in Hcan. lia.
Qed.

End LimiterFacts.

(** C9 on a limiter with a ceiling of 2 calls per day: four callers, the
    last two parked until the daily reset. *)
Lemma C9_daily_budget_invariant_witness :
  let schedule :=
    [ RateLimiter.CallWaitForSlot 1%nat; RateLimiter.CallWaitForSlot 2%nat;
      RateLimiter.CallWaitForSlot 3%nat; RateLimiter.CallWaitForSlot 4%nat;
      RateLimiter.RetryFires; RateLimiter.DailyInterval 86400000;
      RateLimiter.RetryFires; RateLimiter.LoopResumes; RateLimiter.LoopResumes ] in
  let w := RateLimiter.run schedule (RateLimiter.boot 0 50 2) in
  0 <= 2 /\
  RateLimiter.resolved w = [1; 2; 3; 4]%nat /\
  RateLimiter.dailyCalls (RateLimiter.limiter w) = 2 /\
  0 <= RateLimiter.dailyCalls (RateLimiter.limiter w) <= 2.
Proof.
  intros schedule w.
  assert (H : 0 <= 2) by lia.
  split; [exact H |].
  split; [vm_compute; reflexivity |].
  split; [vm_compute; reflexivity |].
  exact (proj1 (C9_daily_budget_invariant 0 50 2 schedule H)).
Defined.

(** ** yelpSearch *)

Section SearchFacts.
Import YelpSearch.

(** The insertion-ordered map of [deduplicateBusinesses] keeps every entry
    under the id of its value, never repeats a key, and only holds items of
    the input. *)
Lemma dedup_invariant (businesses : list YelpBusiness) :
  forall uniqueMap : list (string * YelpBusiness),
    Forall (fun kv => kv.1 = id kv.2) uniqueMap ->
    NoDup uniqueMap.*1 ->
    let result := foldl dedupStep uniqueMap businesses in
    Forall (fun kv => kv.1 = id kv.2) result /\
    NoDup result.*1 /\
    (length result <= length uniqueMap + length businesses)%nat /\
    (forall kv, kv ∈ result -> kv ∈ uniqueMap \/ kv.2 ∈ businesses).
Proof.
  induction businesses as [| b rest IH]; intros uniqueMap Hkeyed Hnodup; cbn.
  - repeat split; auto. lia.
  - assert (Hstep : Forall (fun kv => kv.1 = id kv.2) (dedupStep uniqueMap b) /\
                    NoDup (dedupStep uniqueMap b).*1 /\
                    (length (dedupStep uniqueMap b) <= S (length uniqueMap))%nat /\
                    (forall kv, kv ∈ dedupStep uniqueMap b -> kv ∈ uniqueMap \/ kv.2 = b)).
    { unfold dedupStep. case_bool_decide as Hseen.
      - repeat split; auto.
      - split; [| split; [| split]].
        + apply Forall_app. split; [exact Hkeyed |]. by repeat constructor.
        + rewrite fmap_app. apply NoDup_app. split; [exact Hnodup |]. split.
          * intros k Hk [-> | []%elem_of_nil]%elem_of_cons. contradiction.
          * cbn. apply NoDup_singleton.
        + rewrite length_app. cbn. lia.
        + intros kv [Hold | ->%list_elem_of_singleton]%elem_of_app; [by left | by right]. }
    destruct Hstep as (Hk0 & Hn0 & Hlen0 & Hin0).
    destruct (IH _ Hk0 Hn0) as (Hk & Hn & Hlen & Hin).
    split; [exact Hk |]. split; [exact Hn |]. split; [lia |].
    intros kv Hkv. destruct (Hin kv Hkv) as [Hold | Hnew].
    + destruct (Hin0 kv Hold) as [Hm | ->]; [by left | right].
      apply elem_of_cons. by left.
    + right. apply elem_of_cons. by right.
Qed.

Lemma deduplicateBusinesses_spec (businesses : list YelpBusiness) :
  NoDup (id <$> deduplicateBusinesses businesses) /\
  (length (deduplicateBusinesses businesses) <= length businesses)%nat /\
  (forall b, b ∈ deduplicateBusinesses businesses -> b ∈ businesses).
Proof.
  unfold deduplicateBusinesses.
  destruct (dedup_invariant businesses [] (Forall_nil_2 _) (NoDup_nil_2))
    as (Hk & Hn & Hlen & Hin).
  cbn in Hlen. split; [| split].
  - assert (Hkeys : forall m : list (string * YelpBusiness),
              Forall (fun kv => kv.1 = id kv.2) m -> id <$> m.*2 = m.*1).
    { clear. induction 1 as [| kv m Hkv _ IH]; [reflexivity |].
      cbn. rewrite Hkv, IH. reflexivity. }
    rewrite (Hkeys _ Hk). exact Hn.
  - rewrite length_fmap. exact Hlen.
  - intros b (kv & -> & Hkv)%list_elem_of_fmap.
    destruct (Hin kv Hkv) as [[]%elem_of_nil | Hb]. exact Hb.
Qed.

Lemma dedupStep_seen (m : list (string * YelpBusiness)) (b : YelpBusiness) :
  id b ∈ m.*1 -> dedupStep m b = m.
Proof. intros H. unfold dedupStep. by rewrite bool_decide_eq_true_2. Qed.

(** The loop of [deduplicateBusinesses], started on a map that already
    holds entries: it appends a sublist of the input, covers every id of
    the input, and appends the whole input when its ids are new and
    pairwise distinct. *)
Lemma dedup_fold (businesses : list YelpBusiness) :
  forall m : list (string * YelpBusiness),
    (exists added,
       (foldl dedupStep m businesses).*2 = (m.*2 ++ added)%list /\
       added `sublist_of` businesses) /\
    (forall b, b ∈ businesses -> id b ∈ (foldl dedupStep m businesses).*1) /\
    (forall k, k ∈ m.*1 -> k ∈ (foldl dedupStep m businesses).*1) /\
    (NoDup (id <$> businesses) -> (forall b, b ∈ businesses -> id b ∉ m.*1) ->
     foldl dedupStep m businesses = (m ++ ((fun b => (id b, b)) <$> businesses))%list).
Proof.
  induction businesses as [| b rest IH]; intros m; cbn.
  - repeat split.
    + exists []. by rewrite app_nil_r.
    + intros b Hb. by apply elem_of_nil in Hb.
    + auto.
    + intros _ _. by rewrite app_nil_r.
  - destruct (IH (dedupStep m b)) as ((added & Heq & Hsub) & Hcover & Hkeep & Hall).
    assert (Hgrow : forall k, k ∈ m.*1 -> k ∈ (dedupStep m b).*1).
    { intros k Hk. unfold dedupStep. case_bool_decide; [exact Hk |].
      rewrite fmap_app, elem_of_app. by left. }
    assert (Hb : id b ∈ (dedupStep m b).*1).
    { unfold dedupStep. case_bool_decide as Hseen; [exact Hseen |].
      rewrite fmap_app, elem_of_app. right. cbn. by apply list_elem_of_singleton. }
    repeat split.
    + destruct (decide (id b ∈ m.*1)) as [Hseen | Hseen].
      * rewrite (dedupStep_seen _ _ Hseen) in Heq |- *.
        exists added. split; [exact Heq |]. by apply sublist_cons.
      * assert (Hstep : dedupStep m b = (m ++ [(id b, b)])%list).
        { unfold dedupStep. by rewrite bool_decide_eq_false_2. }
        rewrite Hstep in Heq |- *. exists (b :: added). split.
        -- rewrite Heq, fmap_app. cbn. by rewrite <- app_assoc.
        -- by apply sublist_skip.
    + intros b' [-> | Hb']%elem_of_cons; [by apply Hkeep | by apply Hcover].
    + intros k Hk. by apply Hkeep, Hgrow.
    + intros Hnodup Hfresh. apply NoDup_cons in Hnodup as [Hnotin Hnodup].
      assert (Hnew : id b ∉ m.*1) by (apply Hfresh, elem_of_cons; by left).
      assert (Hstep : dedupStep m b = (m ++ [(id b, b)])%list).
      { unfold dedupStep. by rewrite bool_decide_eq_false_2. }
      rewrite Hstep in *. rewrite Hall; [by rewrite <- app_assoc | exact Hnodup |].
      intros b' Hb'. rewrite fmap_app, elem_of_app. cbn.
      intros [Hm | Hsame%list_elem_of_singleton].
      * eapply Hfresh; [apply elem_of_cons; right; exact Hb' | exact Hm].
      * apply Hnotin. apply list_elem_of_fmap. exists b'. by split.
Qed.

(** [deduplicateBusinesses] keeps a sublist of its input and loses no
    id. *)
Lemma deduplicateBusinesses_covers (businesses : list YelpBusiness) :
  deduplicateBusinesses businesses `sublist_of` businesses /\
  (forall b, b ∈ businesses -> id b ∈ id <$> deduplicateBusinesses businesses).
Proof.
  destruct (dedup_fold businesses []) as ((added & Heq & Hsub) & Hcover & _ & _).
  destruct (dedup_invariant businesses [] (Forall_nil_2 _) (NoDup_nil_2)) as (Hk & _).
  assert (Hkeys : forall m : list (string * YelpBusiness),
            Forall (fun kv => kv.1 = id kv.2) m -> id <$> m.*2 = m.*1).
  { clear. induction 1 as [| kv m Hkv _ IH]; [reflexivity |].
    cbn. rewrite Hkv, IH. reflexivity. }
  unfold deduplicateBusinesses. split.
  - rewrite Heq. exact Hsub.
  - intros b Hb. rewrite (Hkeys _ Hk). by apply Hcover.
Qed.

(** The number of businesses left is the number of distinct ids of the
    input. *)
Lemma deduplicateBusinesses_length (businesses : list YelpBusiness) :
  length (deduplicateBusinesses businesses)
  = length (remove_dups (id <$> businesses)).
Proof.
  destruct (deduplicateBusinesses_spec businesses) as (Hnodup & _ & Hin).
  destruct (deduplicateBusinesses_covers businesses) as (_ & Hcover).
  rewrite <- (length_fmap id (deduplicateBusinesses businesses)).
  apply Permutation_length, NoDup_Permutation.
  - exact Hnodup.
  - apply NoDup_remove_dups.
  - intros k. rewrite elem_of_remove_dups. split.
    + intros (b & -> & Hb)%list_elem_of_fmap.
      apply list_elem_of_fmap. exists b. split; [reflexivity | by apply Hin].
    + intros (b & -> & Hb)%list_elem_of_fmap. by apply Hcover.
Qed.

Context {api : SearchApi}.

(** The pagination loop books at most one call per 50 items of offset left
    below the ceiling of 200, and never unbooks one. *)
Lemma paginate_quota lat lng radius total offset allBusinesses quota :
  let quota' := snd (paginate lat lng radius total offset allBusinesses quota) in
  let booked := APIQuotaManager.dailyUsage quota' - APIQuotaManager.dailyUsage quota in
  0 <= booked /\ 50 * booked <= Z.max 0 (249 - offset).
Proof.
  cbv zeta.
  funelim (paginate lat lng radius total offset allBusinesses quota);
    cbn [snd]; try lia.
  match goal with
  | IH : _ /\ 50 * _ <= _, Hlt : _ /\ _ < maxOffset |- _ =>
      destruct IH as [IH1 IH2]; pose proof (proj2 Hlt) as Hoff
  end.
  unfold limit, maxOffset in *. cbn [APIQuotaManager.trackAPICall APIQuotaManager.dailyUsage] in *.
  lia.
Qed.

(** The loop never asks for a page at offset 200 or beyond: two APIs that
    agree below the ceiling give the same run. *)
Lemma paginate_below_ceiling (api' : SearchApi) lat lng radius total offset allBusinesses quota :
  (forall o, o < maxOffset ->
     makeYelpSearch (SearchApi := api') lat lng radius o
     = makeYelpSearch (SearchApi := api) lat lng radius o) ->
  paginate (api := api') lat lng radius total offset allBusinesses quota
  = paginate (api := api) lat lng radius total offset allBusinesses quota.
Proof.
  intros Hagree.
  funelim (paginate (api := api) lat lng radius total offset allBusinesses quota);
    rewrite (paginate_equation_1 (api := api'));
    match goal with E : decide _ = _ |- _ => rewrite E end; cbn;
    try reflexivity;
    rewrite (Hagree offset)
      by (match goal with Ha : _ /\ _ < maxOffset |- _ => exact (proj2 Ha) end);
    match goal with E : makeYelpSearch _ _ _ _ = _ |- _ => rewrite E end; cbn;
    try reflexivity;
    match goal with E : page_businesses _ = _ |- _ => rewrite E end; cbn;
    try reflexivity.
  match goal with IH : forall _ : SearchApi, _ |- _ => apply IH end. exact Hagree.
Qed.

(** With pages of at most 50 items, the loop adds at most 50 items per
    turn. *)
Lemma paginate_items lat lng radius total offset allBusinesses quota fetched :
  (forall o page items,
     makeYelpSearch lat lng radius o = Returns page ->
     page_businesses page = Some items -> (length items <= 50)%nat) ->
  (paginate lat lng radius total offset allBusinesses quota).1 = Returns fetched ->
  exists turns,
    Z.of_nat (length fetched) <= Z.of_nat (length allBusinesses) + 50 * turns /\
    0 <= turns /\ 50 * turns <= Z.max 0 (249 - offset).
Proof.
  intros Hpage.
  funelim (paginate lat lng radius total offset allBusinesses quota);
    cbn [fst]; try discriminate;
    try (intros [= <-]; exists 0; lia).
  intros Hres.
  match goal with
  | IH : forall _, _ -> _ -> _ |- _ => destruct (IH _ Hpage Hres) as (turns & Hlen & H0 & Hturns)
  end.
  pose proof (Hpage _ _ _ Heq0 Heq) as Hitems.
  pose proof (proj2 a) as Hoff.
  exists (turns + 1). rewrite length_app in Hlen.
  unfold limit, maxOffset in *. lia.
Qed.

Lemma fetchAllPages_quota lat lng radius quota :
  let booked := APIQuotaManager.dailyUsage (fetchAllPages lat lng radius quota).2
                - APIQuotaManager.dailyUsage quota in
  0 <= booked <= 3.
Proof.
  cbv zeta. unfold fetchAllPages.
  destruct (makeYelpSearch lat lng radius 0) as [firstResult | m]; cbn [snd]; [| lia].
  destruct ((limit <? default 0 (page_total firstResult)) && (0 <? maxOffset));
    cbn [snd]; [| lia].
  pose proof (paginate_quota lat lng radius (default 0 (page_total firstResult)) (0 + limit)
                (default [] (page_businesses firstResult)) quota) as Hq.
  cbv zeta in Hq.
  destruct (paginate _ _ _ _ _ _ _) as [[fetched | m] quota']; cbn [snd] in *;
    unfold limit in Hq; lia.
Qed.

Lemma fetchAllPages_below_ceiling (api' : SearchApi) lat lng radius quota :
  (forall o, o < maxOffset ->
     makeYelpSearch (SearchApi := api') lat lng radius o
     = makeYelpSearch (SearchApi := api) lat lng radius o) ->
  fetchAllPages (api := api') lat lng radius quota
  = fetchAllPages (api := api) lat lng radius quota.
Proof.
  intros Hagree. unfold fetchAllPages.
  rewrite (Hagree 0) by (unfold maxOffset; lia).
  destruct (makeYelpSearch (SearchApi := api) lat lng radius 0) as [firstResult | m];
    [| reflexivity].
  rewrite (paginate_below_ceiling api') by exact Hagree. reflexivity.
Qed.

(** At the ceiling the loop stops. *)
Lemma paginate_end lat lng radius total allBusinesses quota :
  paginate lat lng radius total maxOffset allBusinesses quota = (Returns allBusinesses, quota).
Proof.
  rewrite paginate_equation_1.
  destruct (decide _) as [Hlt | Hge]; [unfold maxOffset in Hlt; lia | reflexivity].
Qed.

(** One turn of the loop below the ceiling is one step of [furtherPages]. *)
Lemma paginate_step lat lng radius total offset later :
  offset < maxOffset ->
  (forall allBusinesses quota,
     (paginate lat lng radius total (offset + limit) allBusinesses quota).1
     = match furtherPages lat lng radius total later with
       | Returns more => Returns (allBusinesses ++ more)%list
       | Throws message => Throws message
       end) ->
  forall allBusinesses quota,
    (paginate lat lng radius total offset allBusinesses quota).1
    = match furtherPages lat lng radius total (offset :: later) with
      | Returns more => Returns (allBusinesses ++ more)%list
      | Throws message => Throws message
      end.
Proof.
  intros Hoff IH allBusinesses quota.
  rewrite paginate_equation_1. cbn [furtherPages].
  destruct (decide _) as [Hlt | Hge].
  - replace (offset <? total) with true by (symmetry; apply Z.ltb_lt; lia).
    cbn.
    destruct (makeYelpSearch lat lng radius offset) as [page | message]; cbn;
      [| reflexivity].
    destruct (page_businesses page) as [[| b bs] |]; cbn;
      try (by rewrite app_nil_r).
    rewrite IH.
    destruct (furtherPages lat lng radius total later) as [more | message]; cbn;
      [| reflexivity].
    by rewrite <- app_assoc.
  - replace (offset <? total) with false by (symmetry; apply Z.ltb_ge; lia).
    cbn. by rewrite app_nil_r.
Qed.

(** The loop of the source fetches what the specification words as the
    items of a probe. *)
Lemma fetchAllPages_itemsFetched lat lng radius quota :
  match itemsFetched lat lng radius with
  | Returns fetched =>
      exists firstResult,
        makeYelpSearch lat lng radius 0 = Returns firstResult /\
        (fetchAllPages lat lng radius quota).1 = Returns (firstResult, fetched)
  | Throws message => (fetchAllPages lat lng radius quota).1 = Throws message
  end.
Proof.
  unfold itemsFetched, fetchAllPages.
  destruct (makeYelpSearch lat lng radius 0) as [firstResult | message];
    cbn [mbind outcome_bind bind_outcome]; [| reflexivity].
  set (reported := default 0 (page_total firstResult)).
  set (firstItems := default [] (page_businesses firstResult)).
  assert (Hloop : forall allBusinesses quota,
            (paginate lat lng radius reported 50 allBusinesses quota).1
            = match furtherPages lat lng radius reported [50; 100; 150] with
              | Returns more => Returns (allBusinesses ++ more)%list
              | Throws message => Throws message
              end).
  { apply paginate_step; [unfold maxOffset; lia |].
    apply paginate_step; [unfold maxOffset, limit; lia |].
    apply paginate_step; [unfold maxOffset, limit; lia |].
    intros allBusinesses quota0.
    change (50 + limit + limit + limit) with maxOffset.
    rewrite paginate_end. cbn [fst furtherPages]. by rewrite app_nil_r. }
  assert (Hfew : reported <= limit ->
            furtherPages lat lng radius reported [50; 100; 150] = Returns []).
  { intros Hfew. cbn [furtherPages].
    replace (50 <? reported) with false
      by (symmetry; apply Z.ltb_ge; unfold limit in Hfew; lia).
    reflexivity. }
  set (further := furtherPages lat lng radius reported [50; 100; 150]) in *.
  clearbody further.
  destruct (Z.ltb_spec limit reported) as [Hmore | Hle]; cbn [andb].
  - change (0 <? maxOffset) with true. cbn iota. change (0 + limit) with 50.
    specialize (Hloop firstItems quota).
    destruct (paginate lat lng radius reported 50 firstItems quota)
      as [[allBusinesses | message] quota'];
      cbn [fst] in *; destruct further as [more | message']; try discriminate.
    + exists firstResult. split; [reflexivity |]. congruence.
    + congruence.
  - rewrite (Hfew Hle). cbn [fst].
    exists firstResult. split; [reflexivity |]. by rewrite app_nil_r.
Qed.

(** With pages of at most 50 items, a result never holds more than 200. *)
Lemma total_at_most_200 (lat lng radius : Q) (quota : APIQuotaManager.APIQuotaManager) :
  (forall o page items,
     makeYelpSearch lat lng radius o = Returns page ->
     page_businesses page = Some items -> (length items <= 50)%nat) ->
  total (searchPointWithPagination lat lng radius quota).1 <= 200.
Proof.
  intros Hpage. unfold searchPointWithPagination, fetchAllPages.
  destruct (makeYelpSearch lat lng radius 0) as [firstResult | m] eqn:Hfirst;
    cbn [fst total]; [| lia].
  assert (Hfirst50 : (length (default [] (page_businesses firstResult)) <= 50)%nat).
  { destruct (page_businesses firstResult) as [items |] eqn:Hitems; cbn; [| lia].
    eapply Hpage; eassumption. }
  destruct ((limit <? default 0 (page_total firstResult)) && (0 <? maxOffset)).
  - destruct (paginate _ _ _ _ _ _ _) as [[fetched | m] quota'] eqn:Hrun;
      cbn [fst total]; [| lia].
    assert (Hres : (paginate lat lng radius (default 0 (page_total firstResult)) (0 + limit)
                      (default [] (page_businesses firstResult)) quota).1 = Returns fetched)
      by (rewrite Hrun; reflexivity).
    destruct (paginate_items _ _ _ _ _ _ _ _ Hpage Hres) as (turns & Hlen & H0 & Hturns).
    destruct (deduplicateBusinesses_spec fetched) as (_ & Hdedup & _).
    unfold limit in *. lia.
  - cbn [fst total].
    destruct (deduplicateBusinesses_spec (default [] (page_businesses firstResult)))
      as (_ & Hdedup & _).
    lia.
Qed.

(** C10: the [total] of the result of [searchPointWithPagination] is the
    length of its [businesses] list, and that list is the deduplication of
    the items the probe fetched: the first page and the pages at the
    offsets 50, 100 and 150, requested while the offset lies below the
    count the first page reported and no page came back empty.  The list
    holds no id twice, is a sublist of the items fetched and loses no id
    of theirs, so [total] is the number of distinct ids fetched, at most
    the number of items fetched and, with pages of at most 50 items, at
    most 200, whatever count the first page reported.  No page at offset
    200 or beyond is requested, at most 3 calls are booked after the
    first page, and when a request throws the result is the failed one,
    with [total] 0. *)
Theorem C10_total_is_fetched_count (lat lng radius : Q)
    (quota : APIQuotaManager.APIQuotaManager) :
  let result := (searchPointWithPagination lat lng radius quota).1 in
  let quota' := (searchPointWithPagination lat lng radius quota).2 in
  total result = Z.of_nat (length (businesses result)) /\
  NoDup (id <$> businesses result) /\
  match itemsFetched lat lng radius with
  | Returns fetched =>
      status result = "success" /\
      businesses result `sublist_of` fetched /\
      (forall b, b ∈ fetched -> id b ∈ id <$> businesses result) /\
      total result = Z.of_nat (length (remove_dups (id <$> fetched))) /\
      total result <= Z.of_nat (length fetched)
  | Throws message =>
      status result = "failed" /\ error result = Some message /\
      businesses result = [] /\ total result = 0
  end /\
  ((forall offset page items,
      makeYelpSearch lat lng radius offset = Returns page ->
      page_businesses page = Some items -> (length items <= 50)%nat) ->
   total result <= 200) /\
  0 <= APIQuotaManager.dailyUsage quota' - APIQuotaManager.dailyUsage quota <= 3 /\
  forall api' : SearchApi,
    (forall offset, offset < maxOffset ->
       makeYelpSearch (SearchApi := api') lat lng radius offset
       = makeYelpSearch (SearchApi := api) lat lng radius offset) ->
    searchPointWithPagination (api := api') lat lng radius quota
    = searchPointWithPagination (api := api) lat lng radius quota.
Proof.
  cbv zeta.
  pose proof (fetchAllPages_quota lat lng radius quota) as Hq. cbv zeta in Hq.
  pose proof (total_at_most_200 lat lng radius quota) as Hcap.
  pose proof (fetchAllPages_itemsFetched lat lng radius quota) as Hspec.
  assert (Hext : forall api' : SearchApi,
            (forall offset, offset < maxOffset ->
               makeYelpSearch (SearchApi := api') lat lng radius offset
               = makeYelpSearch (SearchApi := api) lat lng radius offset) ->
            searchPointWithPagination (api := api') lat lng radius quota
            = searchPointWithPagination (api := api) lat lng radius quota).
  { intros api' Hagree. unfold searchPointWithPagination.
    rewrite (fetchAllPages_below_ceiling api') by exact Hagree. reflexivity. }
  revert Hext Hcap. unfold searchPointWithPagination.
  destruct (fetchAllPages lat lng radius quota) as [[[firstResult fetched] | m] quota'];
    cbn [fst snd businesses total status error] in *; intros Hext Hcap.
  - destruct (deduplicateBusinesses_spec fetched) as (Hnodup & Hlen & _).
    destruct (deduplicateBusinesses_covers fetched) as (Hsub & Hcover).
    pose proof (deduplicateBusinesses_length fetched) as Hcount.
    split; [reflexivity |]. split; [exact Hnodup |].
    split; [| split; [exact Hcap | split; [exact Hq | exact Hext]]].
    destruct (itemsFetched lat lng radius) as [fetched' | message].
    + destruct Hspec as (first & _ & [= _ <-]).
      split; [reflexivity |]. split; [exact Hsub |]. split; [exact Hcover |].
      split; lia.
    + discriminate.
  - split; [reflexivity |]. split; [cbn; apply NoDup_nil_2 |].
    split; [| split; [exact Hcap | split; [exact Hq | exact Hext]]].
    destruct (itemsFetched lat lng radius) as [fetched' | message].
    + destruct Hspec as (first & _ & [=]).
    + injection Hspec as ->. by repeat split.
Qed.

End SearchFacts.

(** C10 over a crowded area: the first page reports 1000 items, the probe
    fetches the 4 pages of 50 items at the offsets 0, 50, 100 and 150, and
    its [total] is 200. *)
Lemma C10_total_is_fetched_count_witness :
  let lat := fst Demo.center7 in
  let lng := snd Demo.center7 in
  let run := YelpSearch.searchPointWithPagination (api := Demo.crowdedApi)
               lat lng 1166 (APIQuotaManager.new 0 5000 50) in
  (exists firstPage,
     YelpSearch.makeYelpSearch (SearchApi := Demo.crowdedApi) lat lng 1166 0
     = Returns firstPage /\
     YelpSearch.page_total firstPage = Some 1000) /\
  (exists fetched,
     YelpSearch.itemsFetched (api := Demo.crowdedApi) lat lng 1166 = Returns fetched /\
     length fetched = 200%nat) /\
  YelpSearch.total run.1 = 200 /\
  YelpSearch.total run.1 <= 200.
Proof.
  intros lat lng run.
  destruct (C10_total_is_fetched_count (api := Demo.crowdedApi) lat lng 1166
              (APIQuotaManager.new 0 5000 50)) as (_ & _ & Hfetched & Hcap & _).
  fold run in Hfetched, Hcap.
  split; [eexists; split; reflexivity |].
  destruct (YelpSearch.itemsFetched (api := Demo.crowdedApi) lat lng 1166)
    as [fetched | message] eqn:Hitems;
    [| vm_compute in Hitems; discriminate].
  assert (Hfetched200 : length fetched = 200%nat /\
                        length (remove_dups (YelpSearch.id <$> fetched)) = 200%nat).
  { vm_compute in Hitems. injection Hitems as <-. split; vm_compute; reflexivity. }
  destruct Hfetched as (_ & _ & _ & Htotal & _).
  split; [exists fetched; split; [reflexivity | exact (proj1 Hfetched200)] |].
  split.
  - rewrite Htotal, (proj2 Hfetched200). reflexivity.
  - apply Hcap. intros offset page items [= <-] [= <-]. vm_compute. lia.
Defined.

(** Over the crowded area the probe books 3 further calls. *)
Example crowded_probe_total :
  let run := YelpSearch.searchPointWithPagination (api := Demo.crowdedApi)
               (fst Demo.center7) (snd Demo.center7) 1166
               (APIQuotaManager.new 0 5000 50) in
  (YelpSearch.total run.1, length (YelpSearch.businesses run.1),
   YelpSearch.status run.1, APIQuotaManager.dailyUsage run.2)
  = (200, 200%nat, "success", 3).
Proof. vm_compute. reflexivity. Qed.

(** * Further properties *)

(** ** hexagonSplitter: the children of a split and the merge of their results *)

Section SplitterExtras.
Import HexagonSplitter.

Lemma map_outcome_returns {A B} (f : A -> outcome B) (xs : list A) (ys : list B) :
  map_outcome f xs = Returns ys -> Forall2 (fun x y => f x = Returns y) xs ys.
Proof.
  revert ys. induction xs as [| x rest IH]; intros ys; cbn.
  - intros [= <-]. constructor.
  - destruct (f x) as [y | m] eqn:Hx; cbn; [| discriminate].
    destruct (map_outcome f rest) as [ys' | m]; cbn; [| discriminate].
    intros [= <-]. constructor; [exact Hx | by apply IH].
Qed.

(** A successful split lists exactly the children the grid enumerates, in
    the grid's order, each linked to the parent, at the target resolution,
    queued, and centered where the grid says; the count reported by the
    result and by [getSplitStats] is the number of children. *)
Theorem splitHexagon_children {grid : H3} {format : NumberFormat} (h3Id : string)
    (currentResolution targetResolution : Z) (result : HexagonSplitResult) :
  splitHexagon h3Id currentResolution targetResolution = Returns result ->
  currentResolution < targetResolution /\
  originalHexagon result = h3Id /\
  cellToChildren h3Id targetResolution
    = Returns (HexagonSplitter.h3Id <$> splitHexagons result) /\
  totalSubHexagons result = Z.of_nat (length (splitHexagons result)) /\
  SplitStats.subHexagonCount (SplitStats.getSplitStats result)
    = Z.of_nat (length (splitHexagons result)) /\
  Forall (fun child =>
            parentH3Id child = h3Id /\
            resolution child = targetResolution /\
            status child = "queued" /\
            cellToLatLng (HexagonSplitter.h3Id child) = Returns (center child))
         (splitHexagons result).
Proof.
  unfold splitHexagon, splitHexagon_body.
  destruct (Z.leb_spec targetResolution currentResolution) as [Hle | Hlt];
    [discriminate |].
  destruct (cellToChildren h3Id targetResolution) as [children | m]; cbn;
    [| discriminate].
  match goal with |- context [map_outcome ?f children] =>
    destruct (map_outcome f children) as [splits | m] eqn:Hmap
  end; cbn; [| discriminate].
  intros [= <-]. cbn.
  apply map_outcome_returns in Hmap.
  assert (Hids : HexagonSplitter.h3Id <$> splits = children /\
                 Forall (fun child =>
                           parentH3Id child = h3Id /\
                           resolution child = targetResolution /\
                           status child = "queued" /\
                           cellToLatLng (HexagonSplitter.h3Id child)
                             = Returns (center child)) splits).
  { induction Hmap as [| childId child rest splits' Hchild _ [IHids IHall]];
      [split; [reflexivity | constructor] |].
    destruct (cellToLatLng childId) as [c | m] eqn:Hc; cbn in Hchild; [| discriminate].
    injection Hchild as <-. cbn. split; [by rewrite IHids |].
    constructor; [| exact IHall]. cbn. by rewrite Hc. }
  destruct Hids as [Hids Hall].
  assert (Hlen : length children = length splits)
    by (rewrite <- Hids; apply length_fmap).
  repeat split; try assumption; try lia; try (by rewrite Hids); by rewrite Hlen.
Qed.

Lemma splitHexagon_children_witness :
  exists result,
    splitHexagon (grid := Demo.grid) (format := Demo.format) Demo.cell7 7 8 = Returns result /\
    cellToChildren (H3 := Demo.grid) Demo.cell7 8
      = Returns (HexagonSplitter.h3Id <$> splitHexagons result) /\
    totalSubHexagons result = 1.
Proof.
  eexists. split; [vm_compute; reflexivity |].
  match goal with |- context [splitHexagons ?r] =>
    assert (H : splitHexagon (grid := Demo.grid) (format := Demo.format) Demo.cell7 7 8 = Returns r)
      by (vm_compute; reflexivity)
  end.
  destruct (splitHexagon_children (grid := Demo.grid) (format := Demo.format) _ _ _ _ H)
    as (_ & _ & Hchildren & Hcount & _).
  split; [exact Hchildren | exact Hcount].
Defined.



(** The [Set] and the array of [mergeSubHexagonResults] stay in step: the
    set holds the ids of the array, and no id occurs twice in the array. *)
Lemma addUnique_invariant (businesses : list Business) :
  forall acc : gset string * list Business,
    (forall i, i ∈ acc.1 <-> i ∈ id <$> acc.2) ->
    NoDup (id <$> acc.2) ->
    let acc' := foldl addUnique acc businesses in
    (forall i, i ∈ acc'.1 <-> i ∈ id <$> acc'.2) /\
    NoDup (id <$> acc'.2) /\
    (forall b, b ∈ acc'.2 -> b ∈ acc.2 \/ b ∈ businesses) /\
    (forall i, i ∈ id <$> acc.2 -> i ∈ id <$> acc'.2) /\
    (forall b, b ∈ businesses -> id b ∈ id <$> acc'.2) /\
    (length acc'.2 <= length acc.2 + length businesses)%nat.
Proof.
  induction businesses as [| b rest IH]; intros [ids all] Hset Hnodup; cbn.
  - repeat split; auto; try apply Hset; try lia.
    intros b Hb. by apply elem_of_nil in Hb.
  - cbn in Hset, Hnodup.
    destruct (decide (id b ∈ ids)) as [Hseen | Hnew].
    + destruct (IH (ids, all) Hset Hnodup) as (H1 & H2 & H3 & H4 & H5 & H6).
      cbn in *. repeat split; auto; try apply H1; try lia.
      * intros b' Hb'. destruct (H3 b' Hb'); [by left | right].
        apply elem_of_cons. by right.
      * intros b' [-> | Hb']%elem_of_cons; [| by apply H5].
        apply H4, Hset, Hseen.
    + assert (Hset' : forall i, i ∈ ({[id b]} ∪ ids : gset string)
                               <-> i ∈ id <$> (all ++ [b])%list).
      { intros i. rewrite fmap_app, elem_of_app, elem_of_union, elem_of_singleton.
        cbn. rewrite list_elem_of_singleton, Hset. tauto. }
      assert (Hnodup' : NoDup (id <$> (all ++ [b])%list)).
      { rewrite fmap_app. apply NoDup_app. split; [exact Hnodup |]. split.
        - intros i Hi [-> | []%elem_of_nil]%elem_of_cons. by apply Hnew, Hset.
        - cbn. apply NoDup_singleton. }
      destruct (IH ({[id b]} ∪ ids, (all ++ [b])%list) Hset' Hnodup')
        as (H1 & H2 & H3 & H4 & H5 & H6).
      cbn in *. rewrite length_app in H6. cbn in H6.
      repeat split; auto; try apply H1; try lia.
      * intros b' Hb'. destruct (H3 b' Hb') as [Hold | Hrest].
        -- apply elem_of_app in Hold as [Hold | ->%list_elem_of_singleton];
             [by left | right; apply elem_of_cons; by left].
        -- right. apply elem_of_cons. by right.
      * intros i Hi. apply H4. rewrite fmap_app, elem_of_app. by left.
      * intros b' [-> | Hb']%elem_of_cons; [| by apply H5].
        apply H4. rewrite fmap_app, elem_of_app. right. cbn.
        by apply list_elem_of_singleton.
Qed.

Lemma mergeStep_invariant (splitResults : list SubResult) :
  forall st : MergeLoop,
    (forall i, i ∈ (loop_seen st).1 <-> i ∈ id <$> (loop_seen st).2) ->
    NoDup (id <$> (loop_seen st).2) ->
    let st' := foldl mergeStep st splitResults in
    NoDup (id <$> (loop_seen st').2) /\
    (forall b, b ∈ (loop_seen st').2 ->
       b ∈ (loop_seen st).2 \/ b ∈ splitResults ≫= businesses) /\
    (forall i, i ∈ id <$> (loop_seen st).2 -> i ∈ id <$> (loop_seen st').2) /\
    (forall b, b ∈ splitResults ≫= businesses -> id b ∈ id <$> (loop_seen st').2) /\
    (length (loop_seen st').2
     <= length (loop_seen st).2 + length (splitResults ≫= businesses))%nat /\
    loop_total st' = loop_total st + foldr Z.add 0 (total <$> splitResults) /\
    loop_status st' = (loop_status st ++ (statusLine <$> splitResults))%list.
Proof.
  induction splitResults as [| r rest IH]; intros st Hset Hnodup; cbn.
  - repeat split; auto; try lia.
    + intros b Hb. by apply elem_of_nil in Hb.
    + by rewrite app_nil_r.
  - destruct (addUnique_invariant (businesses r) (loop_seen st) Hset Hnodup)
      as (A1 & A2 & A3 & A4 & A5 & A6).
    destruct (IH (mergeStep st r) A1 A2) as (H1 & H2 & H3 & H4 & H5 & H6 & H7).
    cbn in *. repeat split; auto.
    + intros b Hb. destruct (H2 b Hb) as [Hold | Hrest].
      * destruct (A3 b Hold) as [Hst | Hr]; [by left | right].
        apply elem_of_app. by left.
      * right. apply elem_of_app. by right.
    + intros b [Hr | Hrest]%elem_of_app; [apply H3, A5, Hr | by apply H4].
    + rewrite length_app. lia.
    + lia.
    + rewrite H7, <- app_assoc. reflexivity.
Qed.

(** Merging child results never lists a business id twice, lists only
    businesses of the children, and represents every id of the children;
    [totalBusinesses] is the sum of the totals the children report (not the
    number of unique businesses), and there is one status line per child. *)
Theorem mergeSubHexagonResults_accounting (originalH3Id : string)
    (splitResults : list SubResult) :
  let merged := mergeSubHexagonResults originalH3Id splitResults in
  let all := splitResults ≫= businesses in
  NoDup (id <$> uniqueBusinesses merged) /\
  (forall b, b ∈ uniqueBusinesses merged -> b ∈ all) /\
  (forall b, b ∈ all -> id b ∈ id <$> uniqueBusinesses merged) /\
  (length (uniqueBusinesses merged) <= length all)%nat /\
  totalBusinesses merged = foldr Z.add 0 (total <$> splitResults) /\
  subHexagonStatus merged = statusLine <$> splitResults.
Proof.
  cbv zeta. unfold mergeSubHexagonResults. cbn [uniqueBusinesses totalBusinesses subHexagonStatus].
  match goal with |- context [foldl mergeStep ?st0 _] =>
    destruct (mergeStep_invariant splitResults st0) as (H1 & H2 & H3 & H4 & H5 & H6 & H7)
  end.
  - intros i. cbn. rewrite elem_of_empty. split; [tauto | by intros ?%elem_of_nil].
  - cbn. apply NoDup_nil_2.
  - cbn in *. repeat split; auto.
    + intros b Hb. destruct (H2 b Hb) as [[]%elem_of_nil | Hall]. exact Hall.
Qed.

End SplitterExtras.

(** ** hexagonCoverage: what every generated plan looks like *)

Section CoverageExtras.
Import HexagonCoverage.
Context {grid : H3} {turf : Turf} {format : NumberFormat}.

Lemma plan_types (center : LatLng) (boundary : list LatLng) (primaryRadius hexagonArea : Q) :
  type <$> generateAdaptiveSearchPoints center boundary primaryRadius hexagonArea
  = "primary" ::
    (if Qgtb hexagonArea 8 then
       replicate (Nat.min 3 (length boundary)) "corner"
       ++ replicate (Nat.min 2 (length boundary)) "edge"
     else if Qgtb hexagonArea 3 then replicate (Nat.min 2 (length boundary)) "corner"
     else [])%list.
Proof.
  unfold generateAdaptiveSearchPoints.
  destruct (Qgtb hexagonArea 8); [| destruct (Qgtb hexagonArea 3)].
  - rewrite !fmap_app, generateCornerSearches_types, generateEdgeSearches_types.
    reflexivity.
  - rewrite fmap_app, generateCornerSearches_types. reflexivity.
  - reflexivity.
Qed.

Lemma count_by_type (t : string) (points : list SearchPoint) :
  length (List.filter (isType t) points)
  = length (List.filter (fun s => bool_decide (s = t)) (type <$> points)).
Proof.
  induction points as [| p rest IH]; [reflexivity |].
  cbn. unfold isType at 1. destruct (bool_decide (type p = t)); cbn; by rewrite IH.
Qed.

Lemma count_replicate_same (t : string) (n : nat) :
  length (List.filter (fun s => bool_decide (s = t)) (replicate n t)) = n.
Proof.
  induction n as [| n IH]; [reflexivity |].
  cbn. rewrite bool_decide_eq_true_2 by reflexivity. cbn. by rewrite IH.
Qed.

Lemma count_replicate_other (t u : string) (n : nat) :
  u <> t -> List.filter (fun s => bool_decide (s = t)) (replicate n u) = [].
Proof.
  intros Hne. induction n as [| n IH]; [reflexivity |].
  cbn. rewrite bool_decide_eq_false_2 by exact Hne. exact IH.
Qed.

Lemma filter_app_list {A} (f : A -> bool) (l1 l2 : list A) :
  List.filter f (l1 ++ l2) = (List.filter f l1 ++ List.filter f l2)%list.
Proof.
  induction l1 as [| x l1 IH]; [reflexivity |].
  cbn. destruct (f x); cbn; by rewrite IH.
Qed.

(** The number of corner probes of a generated plan. *)
Lemma plan_corner_count (center : LatLng) (boundary : list LatLng)
    (primaryRadius hexagonArea : Q) :
  length (List.filter (isType "corner")
            (generateAdaptiveSearchPoints center boundary primaryRadius hexagonArea))
  = if Qgtb hexagonArea 8 then Nat.min 3 (length boundary)
    else if Qgtb hexagonArea 3 then Nat.min 2 (length boundary)
    else 0%nat.
Proof.
  rewrite count_by_type, plan_types. cbn [List.filter].
  rewrite bool_decide_eq_false_2 by discriminate.
  destruct (Qgtb hexagonArea 8); [| destruct (Qgtb hexagonArea 3)].
  - rewrite filter_app_list, length_app, count_replicate_same,
      (count_replicate_other "corner" "edge") by discriminate.
    cbn [length]. lia.
  - apply count_replicate_same.
  - reflexivity.
Qed.

(** A plan the planner returns passes [validateCoverage] unless the cell is
    larger than 10 km2 and its boundary has fewer than 2 vertices: for the
    cells of the grid, which have at least 5 vertices, the callers' error
    'Invalid hexagon coverage generated' cannot occur. *)
Theorem generated_plan_validates (h3Id : string) (coverage : HexagonCoverage)
    (boundary : list LatLng) :
  generateSearchPoints h3Id = Returns coverage ->
  cellToBoundary h3Id = Returns boundary ->
  validateCoverage coverage = true
  <-> ((calculateHexagonArea h3Id <= 10)%Q \/ (2 <= length boundary)%nat).
Proof.
  intros Hgen Hb.
  destruct (generateSearchPoints_returns _ _ Hgen) as (center & boundary' & Hc & Hb' & ->).
  assert (boundary' = boundary) as -> by congruence.
  unfold validateCoverage; cbn [searchPoints HexagonCoverage.h3Id].
  set (area := calculateHexagonArea h3Id).
  set (r := calculateOptimalRadius center boundary).
  rewrite plan_corner_count.
  assert (Hfirst : exists rest,
            generateAdaptiveSearchPoints center boundary r area
            = primaryProbe center r :: rest).
  { unfold generateAdaptiveSearchPoints.
    destruct (Qgtb area 8); [| destruct (Qgtb area 3)]; eexists; reflexivity. }
  destruct Hfirst as [rest ->]. cbn [length Nat.eqb find].
  unfold isType at 1. cbn [type primaryProbe].
  rewrite bool_decide_eq_true_2 by reflexivity.
  destruct (Qgtb area 10) eqn:H10; cbn [andb].
  - apply Qgtb_true_iff in H10.
    assert (Qgtb area 8 = true) as ->.
    { apply Qgtb_true_iff. eapply Qlt_trans; [| exact H10]. reflexivity. }
    destruct (Nat.ltb_spec (Nat.min 3 (length boundary)) 2) as [Hfew | Hmany].
    + split; [discriminate |]. intros [Hle | Hlen]; [| lia].
      exfalso. eapply Qlt_not_le; eassumption.
    + split; [| reflexivity]. intros _. right. lia.
  - apply Qgtb_false_iff in H10. split; [| reflexivity]. intros _. by left.
Qed.

Lemma Forall_imap {A B} (P : B -> Prop) (f : nat -> A -> B) (l : list A) :
  (forall i x, P (f i x)) -> Forall P (imap f l).
Proof.
  revert f. induction l as [| x l IH]; intros f Hf; cbn; constructor.
  - apply Hf.
  - apply IH. intros i y. apply Hf.
Qed.

(** Every probe of a returned plan has a radius between 0 and 1166 m; a
    corner probe has 0.6 times and an edge probe 0.8 times the primary
    radius, so the cap of 954 m on these radii is never the smaller
    bound. *)
Theorem plan_radii (h3Id : string) (coverage : HexagonCoverage) :
  generateSearchPoints h3Id = Returns coverage ->
  (0 <= totalRadius coverage)%Q /\ (totalRadius coverage <= 1166)%Q /\
  Forall (fun p =>
            (0 <= radius p)%Q /\ (radius p <= 1166)%Q /\
            (type p = "primary" -> radius p = totalRadius coverage) /\
            (type p = "corner" -> (radius p == (6 # 10) * totalRadius coverage)%Q) /\
            (type p = "edge" -> (radius p == (8 # 10) * totalRadius coverage)%Q))
         (searchPoints coverage).
Proof.
  intros Hgen.
  destruct (generateSearchPoints_returns _ _ Hgen) as (center & boundary & Hc & Hb & ->).
  cbn [totalRadius searchPoints].
  destruct (calculateOptimalRadius_bounds center boundary) as [H0 H1].
  set (r := calculateOptimalRadius center boundary) in *.
  split; [exact H0 |]. split; [exact H1 |].
  assert (Hcorner : (Qmin (r * (6 # 10)) (1060 * (9 # 10)) == (6 # 10) * r)%Q).
  { rewrite Q.min_l by lra. ring. }
  assert (Hedge : (Qmin (r * (8 # 10)) (1060 * (9 # 10)) == (8 # 10) * r)%Q).
  { rewrite Q.min_l by lra. ring. }
  assert (Hprimary : Forall (fun p =>
            (0 <= radius p)%Q /\ (radius p <= 1166)%Q /\
            (type p = "primary" -> radius p = r) /\
            (type p = "corner" -> (radius p == (6 # 10) * r)%Q) /\
            (type p = "edge" -> (radius p == (8 # 10) * r)%Q)) [primaryProbe center r]).
  { constructor; [| constructor]. cbn. repeat split; auto; discriminate. }
  assert (Hcorners : forall n, Forall (fun p =>
            (0 <= radius p)%Q /\ (radius p <= 1166)%Q /\
            (type p = "primary" -> radius p = r) /\
            (type p = "corner" -> (radius p == (6 # 10) * r)%Q) /\
            (type p = "edge" -> (radius p == (8 # 10) * r)%Q))
            (generateCornerSearches center boundary r n)).
  { intros n. apply Forall_imap. intros i corner. cbn.
    repeat split; try discriminate; try (intros _; exact Hcorner);
      rewrite Hcorner; lra. }
  assert (Hedges : forall n, Forall (fun p =>
            (0 <= radius p)%Q /\ (radius p <= 1166)%Q /\
            (type p = "primary" -> radius p = r) /\
            (type p = "corner" -> (radius p == (6 # 10) * r)%Q) /\
            (type p = "edge" -> (radius p == (8 # 10) * r)%Q))
            (generateEdgeSearches center boundary r n)).
  { intros n. apply Forall_imap. intros i corner. cbn.
    repeat split; try discriminate; try (intros _; exact Hedge);
      rewrite Hedge; lra. }
  unfold generateAdaptiveSearchPoints.
  destruct (Qgtb _ 8); [| destruct (Qgtb _ 3)].
  - apply Forall_app. split; [exact Hprimary |].
    apply Forall_app. split; [apply Hcorners | apply Hedges].
  - apply Forall_app. split; [exact Hprimary | apply Hcorners].
  - exact Hprimary.
Qed.

(** Where the probes are.  The primary probe is at the center of the
    cell.  A corner probe takes its [lat] from index 0 and its [lng] from
    index 1 of an entry of the boundary; the entries being [[lng, lat]]
    positions, the [lat] of the probe is the longitude of the vertex and
    its [lng] the latitude of the vertex.  An edge probe holds, index by
    index, the mean of two consecutive entries. *)
Theorem plan_positions (h3Id : string) (coverage : HexagonCoverage)
    (b0 b1 b2 : LngLat) (others : list LngLat) :
  generateSearchPoints h3Id = Returns coverage ->
  cellToBoundary h3Id = Returns (b0 :: b1 :: b2 :: others) ->
  let area := calculateHexagonArea h3Id in
  let primary (p : SearchPoint) :=
    lat p = fst (center coverage) /\ lng p = snd (center coverage) in
  let corner (vertex : LngLat) (p : SearchPoint) :=
    lat p = longitude vertex /\ lng p = latitude vertex in
  let edge (vertex next : LngLat) (p : SearchPoint) :=
    lat p = ((longitude vertex + longitude next) / 2)%Q /\
    lng p = ((latitude vertex + latitude next) / 2)%Q in
  ((area <= 3)%Q -> exists p, searchPoints coverage = [p] /\ primary p) /\
  ((3 < area)%Q /\ (area <= 8)%Q ->
     exists p c0 c1,
       searchPoints coverage = [p; c0; c1] /\
       primary p /\ corner b0 c0 /\ corner b1 c1) /\
  ((8 < area)%Q ->
     exists p c0 c1 c2 e0 e1,
       searchPoints coverage = [p; c0; c1; c2; e0; e1] /\
       primary p /\ corner b0 c0 /\ corner b1 c1 /\ corner b2 c2 /\
       edge b0 b1 e0 /\ edge b1 b2 e1).
Proof.
  intros Hgen Hb area primary corner edge.
  destruct (generateSearchPoints_returns _ _ Hgen) as (c & boundary & Hc & Hb' & ->).
  assert (boundary = b0 :: b1 :: b2 :: others) as -> by congruence.
  subst primary corner edge. cbn [searchPoints center]. fold area.
  unfold generateAdaptiveSearchPoints.
  assert (H1 : (1 mod S (S (S (length others))) = 1)%nat) by (apply Nat.mod_small; lia).
  assert (H2 : (2 mod S (S (S (length others))) = 2)%nat) by (apply Nat.mod_small; lia).
  split; [| split].
  - intros Hle.
    assert (Qgtb area 3 = false) as E3 by (by apply Qgtb_false_iff).
    assert (Qgtb area 8 = false) as E8 by (apply Qgtb_false_iff; lra).
    rewrite E8, E3. eexists. split; [reflexivity |]. by split.
  - intros [Hgt Hle].
    apply Qgtb_true_iff in Hgt. apply Qgtb_false_iff in Hle. rewrite Hle, Hgt.
    do 3 eexists. split; [reflexivity |]. by repeat split.
  - intros Hgt. apply Qgtb_true_iff in Hgt. rewrite Hgt.
    unfold generateCornerSearches, generateEdgeSearches.
    cbn [length Nat.min take imap fmap list_fmap app Nat.add compose].
    rewrite H1, H2.
    do 6 eexists. split; [reflexivity |]. by repeat split.
Qed.

(** [getCoverageStats] on a returned plan (boundary of at least 3
    vertices): 1, 3 or 6 points, rated "poor", "good" or "excellent" by
    area, never "fair"; the primary radius it reports is that of the
    plan. *)
Theorem generated_plan_stats (h3Id : string) (coverage : HexagonCoverage)
    (boundary : list LatLng) :
  generateSearchPoints h3Id = Returns coverage ->
  cellToBoundary h3Id = Returns boundary ->
  (3 <= length boundary)%nat ->
  let area := calculateHexagonArea h3Id in
  let stats := CoverageStats.getCoverageStats coverage in
  (CoverageStats.primaryRadius stats == totalRadius coverage)%Q /\
  (CoverageStats.totalPoints stats, CoverageStats.cornerPoints stats,
   CoverageStats.edgePoints stats, CoverageStats.estimatedCoverage stats)
  = if Qgtb area 8 then (6, 3, 2, "excellent")%nat
    else if Qgtb area 3 then (3, 2, 0, "good")%nat
    else (1, 0, 0, "poor")%nat.
Proof.
  intros Hgen Hb Hlen area stats.
  destruct (generateSearchPoints_returns _ _ Hgen) as (c & boundary' & Hc & Hb' & ->).
  assert (boundary' = boundary) as -> by congruence.
  subst stats. unfold CoverageStats.getCoverageStats.
  cbn [searchPoints totalRadius CoverageStats.primaryRadius CoverageStats.totalPoints
       CoverageStats.cornerPoints CoverageStats.edgePoints
       CoverageStats.estimatedCoverage].
  fold area. set (r := calculateOptimalRadius c boundary).
  split.
  - assert (Hfirst : exists rest,
              generateAdaptiveSearchPoints c boundary r area = primaryProbe c r :: rest).
    { unfold generateAdaptiveSearchPoints.
      destruct (Qgtb area 8); [| destruct (Qgtb area 3)]; eexists; reflexivity. }
    destruct Hfirst as [rest ->]. cbn [find].
    unfold isType at 1. cbn [type primaryProbe radius].
    rewrite bool_decide_eq_true_2 by reflexivity.
    change (radius (primaryProbe c r)) with r.
    destruct (Qeq_bool r 0) eqn:Hz; [| reflexivity].
    apply Qeq_bool_iff in Hz. by rewrite Hz.
  - rewrite !count_by_type.
    assert (Hcount : length (generateAdaptiveSearchPoints c boundary r area)
                     = length (type <$> generateAdaptiveSearchPoints c boundary r area))
      by (symmetry; apply length_fmap).
    rewrite Hcount, plan_types.
    rewrite (Nat.min_l 3), (Nat.min_l 2) by lia.
    destruct (Qgtb area 8); [| destruct (Qgtb area 3)]; reflexivity.
Qed.

Lemma plan_length (center : LatLng) (boundary : list LatLng) (primaryRadius hexagonArea : Q) :
  (1 <= length (generateAdaptiveSearchPoints center boundary primaryRadius hexagonArea)
     <= 6)%nat.
Proof.
  set (plan := generateAdaptiveSearchPoints _ _ _ _).
  assert (E : length plan = length (type <$> plan)) by (symmetry; apply length_fmap).
  rewrite E. subst plan. rewrite plan_types.
  destruct (Qgtb _ 8); [| destruct (Qgtb _ 3)]; cbn [length];
    rewrite ?length_app, ?length_replicate; lia.
Qed.

(** A returned plan never has more than 6 probes, so the quality
    assessment of the search engine, which asks for 7 probes, never rates a
    hexagon "excellent". *)
Theorem generated_plan_never_excellent (h3Id : string) (coverage : HexagonCoverage)
    (totalBusinesses : Z) :
  generateSearchPoints h3Id = Returns coverage ->
  (1 <= length (searchPoints coverage) <= 6)%nat /\
  YelpEngine.assessCoverageQuality coverage totalBusinesses <> "excellent".
Proof.
  intros Hgen.
  destruct (generateSearchPoints_returns _ _ Hgen) as (c & boundary & Hc & Hb & ->).
  cbn [searchPoints].
  pose proof (plan_length c boundary (calculateOptimalRadius c boundary)
                (calculateHexagonArea h3Id)) as Hlen.
  set (plan := generateAdaptiveSearchPoints _ _ _ _) in *.
  split; [exact Hlen |].
  unfold YelpEngine.assessCoverageQuality. cbn [searchPoints]. fold plan.
  destruct (Nat.leb_spec 7 (length plan)); [lia |]. cbn [andb].
  repeat match goal with |- context [if ?b then _ else _] => destruct b end;
    discriminate.
Qed.

End CoverageExtras.

Section CoverageExtrasWitnesses.
Import HexagonCoverage.

Lemma generated_plan_validates_witness :
  exists coverage boundary,
    Demo.plan Demo.cell5 = Returns coverage /\
    cellToBoundary (H3 := Demo.grid) Demo.cell5 = Returns boundary /\
    (2 <= length boundary)%nat /\
    validateCoverage (grid := Demo.grid) coverage = true.
Proof.
  do 2 eexists.
  split; [vm_compute; reflexivity |].
  split; [vm_compute; reflexivity |].
  split; [vm_compute; lia |].
  apply (generated_plan_validates (grid := Demo.grid) (turf := Demo.turf)
           (format := Demo.format) Demo.cell5 _ (Demo.boundary5)).
  - vm_compute; reflexivity.
  - vm_compute; reflexivity.
  - right. vm_compute; lia.
Defined.

Lemma plan_radii_witness :
  exists coverage,
    Demo.plan Demo.cell5 = Returns coverage /\
    (totalRadius coverage <= 1166)%Q /\
    Forall (fun p => (radius p <= 1166)%Q) (searchPoints coverage).
Proof.
  eexists. split; [vm_compute; reflexivity |].
  match goal with |- (totalRadius ?c <= _)%Q /\ _ =>
    assert (H : Demo.plan Demo.cell5 = Returns c) by (vm_compute; reflexivity)
  end.
  destruct (plan_radii (grid := Demo.grid) (turf := Demo.turf) (format := Demo.format)
              _ _ H) as (_ & Hle & Hall).
  split; [exact Hle |].
  eapply Forall_impl; [exact Hall |]. intros p Hp. apply Hp.
Defined.

(** On the resolution-5 cell of the sample the first entry of the boundary
    is the position [[-121.9151, 37.2714]], and the first corner probe has
    [lat = -121.9151] and [lng = 37.2714]. *)
Lemma plan_positions_witness :
  exists coverage corner,
    Demo.plan Demo.cell5 = Returns coverage /\
    searchPoints coverage !! 1%nat = Some corner /\
    head Demo.boundary5 = Some (Demo.deg (-1219151), Demo.deg 372714) /\
    lat corner = Demo.deg (-1219151) /\ lng corner = Demo.deg 372714.
Proof.
  assert (H : exists coverage, Demo.plan Demo.cell5 = Returns coverage)
    by (eexists; vm_compute; reflexivity).
  destruct H as [coverage H].
  assert (Hb : cellToBoundary (H3 := Demo.grid) Demo.cell5 = Returns Demo.boundary5)
    by (vm_compute; reflexivity).
  assert (Harea : (8 < calculateHexagonArea (grid := Demo.grid) Demo.cell5)%Q)
    by (vm_compute; reflexivity).
  destruct (proj2 (proj2
    (plan_positions (grid := Demo.grid) (turf := Demo.turf) (format := Demo.format)
       Demo.cell5 coverage _ _ _ _ H Hb)) Harea)
    as (p & c0 & c1 & c2 & e0 & e1 & Hpoints & _ & [Hlat Hlng] & _).
  exists coverage, c0.
  split; [exact H |]. split; [by rewrite Hpoints |]. split; [reflexivity |].
  split; [exact Hlat | exact Hlng].
Defined.

Lemma generated_plan_stats_witness :
  exists coverage,
    Demo.plan Demo.cell7 = Returns coverage /\
    CoverageStats.estimatedCoverage (CoverageStats.getCoverageStats coverage) = "good".
Proof.
  eexists. split; [vm_compute; reflexivity |].
  match goal with |- context [CoverageStats.getCoverageStats ?c] =>
    assert (H : Demo.plan Demo.cell7 = Returns c) by (vm_compute; reflexivity)
  end.
  assert (Hb : cellToBoundary (H3 := Demo.grid) Demo.cell7
               = Returns (Demo.boundary7)) by (vm_compute; reflexivity).
  assert (Hlen : (3 <= length (Demo.boundary7))%nat) by (vm_compute; lia).
  pose proof (proj2 (generated_plan_stats (grid := Demo.grid) (turf := Demo.turf)
                       (format := Demo.format) _ _ _ H Hb Hlen)) as Hstats.
  cbv zeta in Hstats.
  replace (Qgtb (calculateHexagonArea (grid := Demo.grid) Demo.cell7) 8) with false
    in Hstats by (vm_compute; reflexivity).
  replace (Qgtb (calculateHexagonArea (grid := Demo.grid) Demo.cell7) 3) with true
    in Hstats by (vm_compute; reflexivity).
  congruence.
Defined.

Lemma generated_plan_never_excellent_witness :
  exists coverage,
    Demo.plan Demo.cell5 = Returns coverage /\
    YelpEngine.assessCoverageQuality coverage 500 <> "excellent".
Proof.
  eexists. split; [vm_compute; reflexivity |].
  match goal with |- YelpEngine.assessCoverageQuality ?c _ <> _ =>
    assert (H : Demo.plan Demo.cell5 = Returns c) by (vm_compute; reflexivity)
  end.
  exact (proj2 (generated_plan_never_excellent (grid := Demo.grid) (turf := Demo.turf)
                  (format := Demo.format) _ _ 500 H)).
Defined.

End CoverageExtrasWitnesses.

(** ** apiQuotaManager: an unguarded counter and its planning helpers *)

Section QuotaExtras.
Import APIQuotaManager QuotaPlanning.

Lemma iter_trackAPICall (n : nat) (q : APIQuotaManager) :
  dailyUsage (Nat.iter n trackAPICall q) = dailyUsage q + Z.of_nat n /\
  currentSecondUsage (Nat.iter n trackAPICall q) = currentSecondUsage q + Z.of_nat n /\
  dailyLimit (Nat.iter n trackAPICall q) = dailyLimit q /\
  perSecondLimit (Nat.iter n trackAPICall q) = perSecondLimit q.
Proof.
  induction n as [| n (IH1 & IH2 & IH3 & IH4)]; [cbn; lia |].
  rewrite !Nat.iter_succ. set (q' := Nat.iter n trackAPICall q) in *.
  unfold trackAPICall at 1 2 3 4.
  cbn [dailyUsage currentSecondUsage dailyLimit perSecondLimit].
  lia.
Qed.

(** [trackAPICall] never refuses a call: [n] tracked calls raise the daily
    and per-second usage by exactly [n], past the limits if need be, so the
    remaining quota reported can be negative; used and remaining always add
    up to the limit, and a single further call is judged processable
    exactly while the usage is below the daily limit. *)
Theorem trackAPICall_unguarded (n : nat) (q : APIQuotaManager) :
  let q' := Nat.iter n trackAPICall q in
  let s := getQuotaStatus q' in
  dailyUsed s = dailyUsage q + Z.of_nat n /\
  dailyRemaining s = dailyLimit q - dailyUsage q - Z.of_nat n /\
  perSecondUsed s = currentSecondUsage q + Z.of_nat n /\
  perSecondRemaining s = perSecondLimit q - currentSecondUsage q - Z.of_nat n /\
  dailyUsed s + dailyRemaining s = dailyLimit q /\
  (canProcess q' 1 = true <-> dailyUsage q + Z.of_nat n < dailyLimit q).
Proof.
  cbv zeta. destruct (iter_trackAPICall n q) as (H1 & H2 & H3 & H4).
  unfold getQuotaStatus, canProcess; cbn. rewrite H1, H2, H3, H4.
  repeat split; try lia.
  - rewrite Qle_bool_iff. change 1%Q with (inject_Z 1). rewrite <- Zle_Qle. lia.
  - rewrite Qle_bool_iff. change 1%Q with (inject_Z 1). rewrite <- Zle_Qle. lia.
Qed.

(** The processing plan fits the remaining quota: at 7 calls per hexagon,
    [maxHexagonsPerDay] hexagons use at most what remains and one more
    would not fit; the batch size is the smaller of that number and 50; a
    finite time estimate exists unless the batch size or the per-second
    limit is 0, as when fewer than 7 calls remain. *)
Theorem optimizeProcessingStrategy_fits (q : APIQuotaManager)
    (totalHexagons targetCompletionTime : Z) :
  let plan := optimizeProcessingStrategy q totalHexagons targetCompletionTime in
  let remaining := dailyLimit q - dailyUsage q in
  7 * maxHexagonsPerDay plan <= remaining < 7 * (maxHexagonsPerDay plan + 1) /\
  recommendedBatchSize plan = Z.min 50 (maxHexagonsPerDay plan) /\
  recommendedBatchSize plan <= 50 /\
  (estimatedProcessingTime plan = None
   <-> recommendedBatchSize plan = 0 \/ perSecondLimit q = 0) /\
  (0 <= remaining < 7 -> estimatedProcessingTime plan = None) /\
  (costEfficiency plan == 1 # 7)%Q.
Proof.
  cbv zeta. unfold optimizeProcessingStrategy; cbn.
  set (remaining := dailyLimit q - dailyUsage q).
  pose proof (Z.div_mod remaining 7 ltac:(lia)) as Hdiv.
  pose proof (Z.mod_pos_bound remaining 7 ltac:(lia)) as Hmod.
  repeat split; try lia.
  - destruct (Z.eqb_spec (Z.min 50 (remaining / 7)) 0);
      destruct (Z.eqb_spec (perSecondLimit q) 0); cbn; intros; auto; discriminate.
  - intros [Hb | Hp].
    + rewrite Hb. reflexivity.
    + rewrite Hp, Z.eqb_refl, orb_true_r. reflexivity.
  - intros Hsmall.
    assert (remaining / 7 = 0) as -> by (apply Z.div_small; lia).
    reflexivity.
Qed.

(** Asking for more hexagons never lowers the risk level and never turns a
    request that cannot be processed into one that can. *)
Theorem estimate_monotone (q : APIQuotaManager) (hexagons1 hexagons2 : Z)
    (points pages : Q) :
  (0 <= points * pages)%Q ->
  hexagons1 <= hexagons2 ->
  let est1 := estimateQuotaForCity q hexagons1 points pages in
  let est2 := estimateQuotaForCity q hexagons2 points pages in
  (riskRank (riskLevel est1) <= riskRank (riskLevel est2))%nat /\
  (canProcessRequest est2 = true -> canProcessRequest est1 = true).
Proof.
  intros Hpos Hle est1 est2. subst est1 est2.
  rewrite !canProcessRequest_estimate.
  pose proof (riskLevel_estimate q hexagons1 points pages) as R1.
  pose proof (riskLevel_estimate q hexagons2 points pages) as R2.
  cbv zeta in R1, R2. rewrite R1, R2. clear R1 R2.
  set (r := dailyLimit q - dailyUsage q).
  assert (Hh : (inject_Z hexagons1 <= inject_Z hexagons2)%Q) by (by rewrite <- Zle_Qle).
  assert (He : (Double.mul (Double.mul (inject_Z hexagons1) points) pages
                <= Double.mul (Double.mul (inject_Z hexagons2) points) pages)%Q).
  { unfold Double.mul.
    set (h1 := inject_Z hexagons1) in *. set (h2 := inject_Z hexagons2) in *.
    clearbody h1 h2.
    destruct (Qlt_le_dec 0 points) as [Hp | Hp].
    - assert (Hg : (0 <= pages)%Q) by nra.
      pose proof (round_monotone (h1 * points) (h2 * points) ltac:(nra)) as Hx.
      apply round_monotone. nra.
    - destruct (Qlt_le_dec points 0) as [Hn | Hz].
      + assert (Hg : (pages <= 0)%Q) by nra.
        pose proof (round_monotone (h2 * points) (h1 * points) ltac:(nra)) as Hx.
        apply round_monotone. nra.
      + assert (H0 : (points == 0)%Q) by lra.
        rewrite (round_proper (h1 * points) 0) by (rewrite H0; ring).
        rewrite (round_proper (h2 * points) 0) by (rewrite H0; ring).
        apply Qle_refl. }
  set (e1 := Double.mul (Double.mul (inject_Z hexagons1) points) pages) in *.
  set (e2 := Double.mul (Double.mul (inject_Z hexagons2) points) pages) in *.
  clearbody e1 e2.
  set (t8 := quotaShare r (8 # 10)). set (t6 := quotaShare r (6 # 10)).
  set (t4 := quotaShare r (4 # 10)). clearbody t8 t6 t4.
  assert (Rlow : riskRank "low" = 0%nat) by reflexivity.
  assert (Rmedium : riskRank "medium" = 1%nat) by reflexivity.
  assert (Rhigh : riskRank "high" = 2%nat) by reflexivity.
  assert (Rcritical : riskRank "critical" = 3%nat) by reflexivity.
  split.
  - destruct (Qgtb e1 t8) eqn:A8; [apply Qgtb_true_iff in A8 | apply Qgtb_false_iff in A8];
    (destruct (Qgtb e1 t6) eqn:A6; [apply Qgtb_true_iff in A6 | apply Qgtb_false_iff in A6]);
    (destruct (Qgtb e1 t4) eqn:A4; [apply Qgtb_true_iff in A4 | apply Qgtb_false_iff in A4]);
    (destruct (Qgtb e2 t8) eqn:B8; [apply Qgtb_true_iff in B8 | apply Qgtb_false_iff in B8]);
    (destruct (Qgtb e2 t6) eqn:B6; [apply Qgtb_true_iff in B6 | apply Qgtb_false_iff in B6]);
    (destruct (Qgtb e2 t4) eqn:B4; [apply Qgtb_true_iff in B4 | apply Qgtb_false_iff in B4]);
    rewrite ?Rlow, ?Rmedium, ?Rhigh, ?Rcritical; try lia; exfalso; lra.
  - rewrite !Qle_bool_iff. intros H2. lra.
Qed.

Lemma estimate_monotone_witness :
  let q := new 0 100 50 in
  (0 <= 7 * (15 # 10))%Q /\ 1 <= 9 /\
  (riskRank (riskLevel (estimateQuotaForCity q 1 7 (15 # 10)))
   <= riskRank (riskLevel (estimateQuotaForCity q 9 7 (15 # 10))))%nat.
Proof.
  intros q.
  assert (H1 : (0 <= 7 * (15 # 10))%Q) by (vm_compute; discriminate).
  assert (H2 : 1 <= 9) by lia.
  split; [exact H1 |]. split; [exact H2 |].
  exact (proj1 (estimate_monotone q 1 9 7 (15 # 10) H1 H2)).
Defined.

(** The usage projection: the time to the next reset and the time since the
    last one add up to 24 hours; the hourly rate is the usage divided by
    the hours elapsed, but by no less than 1, so it never exceeds the usage,
    and during the first hour the projection for the day is 24 times the
    usage so far. *)
Theorem getUsageTrends_projection (now : Z) (q : APIQuotaManager) :
  lastReset q <= now ->
  0 <= dailyUsage q ->
  let trends := getUsageTrends now q in
  timeToQuotaReset trends + (now - lastReset q) = 86400000 /\
  0 <= currentHour trends /\
  (0 <= estimatedHourlyRate trends)%Q /\
  (estimatedHourlyRate trends <= inject_Z (dailyUsage q))%Q /\
  (projectedDailyUsage trends == 24 * estimatedHourlyRate trends)%Q /\
  (now - lastReset q <= 3600000 ->
     (projectedDailyUsage trends == 24 * inject_Z (dailyUsage q))%Q).
Proof.
  intros Hnow Husage trends. subst trends. unfold getUsageTrends.
  cbn [timeToQuotaReset currentHour estimatedHourlyRate projectedDailyUsage].
  change (1000 * 60 * 60) with 3600000.
  set (hours := (inject_Z (now - lastReset q) / inject_Z 3600000)%Q).
  assert (Hhours : (0 <= hours)%Q).
  { subst hours. apply Qle_shift_div_l; [reflexivity |].
    rewrite Qmult_0_l. change 0%Q with (inject_Z 0). rewrite <- Zle_Qle. lia. }
  assert (Hmax : (1 <= Qmax hours 1)%Q) by apply Q.le_max_r.
  assert (Hu : (0 <= inject_Z (dailyUsage q))%Q)
    by (change 0%Q with (inject_Z 0); by rewrite <- Zle_Qle).
  set (u := inject_Z (dailyUsage q)) in *.
  set (m := Qmax hours 1) in *.
  assert (Hrate0 : (0 <= u / m)%Q).
  { apply Qle_shift_div_l; [lra |]. lra. }
  assert (Hrate1 : (u / m <= u)%Q).
  { apply Qle_shift_div_r; [lra |]. nra. }
  repeat split; try lia; try assumption.
  - change 0 with (Qfloor 0). by apply Qfloor_resp_le.
  - ring.
  - intros Hfirst.
    assert (Hle1 : (hours <= 1)%Q).
    { subst hours. apply Qle_shift_div_r; [reflexivity |].
      rewrite Qmult_1_l. rewrite <- Zle_Qle. lia. }
    assert (Hm : (m == 1)%Q) by (subst m; apply Q.max_r; exact Hle1).
    rewrite Hm. field.
Qed.

Lemma getUsageTrends_projection_witness :
  let q := Nat.iter 10 trackAPICall (new 0 5000 50) in
  lastReset q <= 1800000 /\ 0 <= dailyUsage q /\
  (projectedDailyUsage (getUsageTrends 1800000 q) == 240)%Q.
Proof.
  intros q.
  assert (H1 : lastReset q <= 1800000) by (vm_compute; discriminate).
  assert (H2 : 0 <= dailyUsage q) by (vm_compute; discriminate).
  split; [exact H1 |]. split; [exact H2 |].
  destruct (getUsageTrends_projection 1800000 q H1 H2) as (_ & _ & _ & _ & _ & Hfirst).
  rewrite Hfirst by (vm_compute; discriminate).
  vm_compute. reflexivity.
Defined.

End QuotaExtras.

(** ** rateLimiter: what every schedule of tasks keeps *)

Section LimiterExtras.
Import RateLimiter LimiterStatus.

(** The per-second counterpart of the daily budget. *)
Lemma loopTurn_second (w : World) :
  0 <= perSecondCalls (limiter w) <= maxPerSecond (limiter w) ->
  0 <= perSecondCalls (limiter (loopTurn w)) <= maxPerSecond (limiter (loopTurn w)).
Proof.
  intros Hinv. unfold loopTurn.
  destruct (requestQueue (limiter w)) as [| next rest]; cbn; [exact Hinv |].
  destruct (canMakeRequest (limiter w)) eqn:Hcan; cbn; [| exact Hinv].
  apply canMakeRequest_true in Hcan. lia.
Qed.

Lemma processQueue_second (w : World) :
  0 <= perSecondCalls (limiter w) <= maxPerSecond (limiter w) ->
  0 <= perSecondCalls (limiter (processQueue w))
    <= maxPerSecond (limiter (processQueue w)).
Proof.
  intros Hinv. unfold processQueue.
  destruct (isProcessing (limiter w) || _); [exact Hinv |].
  apply loopTurn_second. exact Hinv.
Qed.

Lemma step_second (t : task) (w w' : World) :
  step t w = Some w' ->
  0 <= perSecondCalls (limiter w) <= maxPerSecond (limiter w) ->
  0 <= perSecondCalls (limiter w') <= maxPerSecond (limiter w').
Proof.
  destruct t; cbn.
  - intros [= <-] Hinv. unfold waitForSlot.
    destruct (canMakeRequest (limiter w)) eqn:Hcan.
    + apply canMakeRequest_true in Hcan. cbn. lia.
    + apply processQueue_second. exact Hinv.
  - destruct (isProcessing (limiter w)); [| discriminate].
    intros [= <-]. apply loopTurn_second.
  - destruct (retryTimers w) as [| n]; [discriminate |].
    intros [= <-] Hinv. apply processQueue_second. exact Hinv.
  - intros [= <-] Hinv. exact Hinv.
  - intros [= <-] Hinv. cbn. lia.
  - intros [= <-] Hinv. exact Hinv.
Qed.

Lemma step_keeps_maxPerSecond (t : task) (w w' : World) :
  step t w = Some w' -> maxPerSecond (limiter w') = maxPerSecond (limiter w).
Proof.
  destruct t; cbn.
  - intros [= <-]. unfold waitForSlot, processQueue, loopTurn.
    repeat (match goal with |- context [if ?b then _ else _] => destruct b end
            || match goal with |- context [match ?l with [] => _ | _ :: _ => _ end] =>
                 destruct l
               end); reflexivity.
  - destruct (isProcessing (limiter w)); [| discriminate].
    intros [= <-]. unfold loopTurn.
    destruct (requestQueue (limiter w)); [reflexivity |].
    destruct (canMakeRequest (limiter w)); reflexivity.
  - destruct (retryTimers w) as [| n]; [discriminate |].
    intros [= <-]. unfold processQueue, loopTurn; cbn.
    destruct (isProcessing (limiter w) || _); [reflexivity |].
    destruct (requestQueue (limiter w)); [reflexivity |]. cbn.
    match goal with |- context [if ?b then _ else _] => destruct b end; reflexivity.
  - intros [= <-]. reflexivity.
  - intros [= <-]. reflexivity.
  - intros [= <-]. reflexivity.
Qed.

Lemma run_second (schedule : list task) (w : World) :
  0 <= perSecondCalls (limiter w) <= maxPerSecond (limiter w) ->
  0 <= perSecondCalls (limiter (run schedule w))
    <= maxPerSecond (limiter (run schedule w)) /\
  maxPerSecond (limiter (run schedule w)) = maxPerSecond (limiter w).
Proof.
  revert w. induction schedule as [| t rest IH]; intros w Hinv; [by split |].
  cbn. destruct (step t w) as [w' |] eqn:Hstep; cbn; [| by apply IH].
  destruct (IH w' (step_second _ _ _ Hstep Hinv)) as [H1 H2].
  split; [exact H1 |]. rewrite H2. eapply step_keeps_maxPerSecond. exact Hstep.
Qed.

(** After any schedule the status of a limiter created with non-negative
    ceilings reports usages within the ceilings and remaining quotas that
    are never negative; used and remaining add up to the ceilings. *)
Theorem limiter_status_within_ceilings (now maxPerSecond maxPerDay : Z)
    (schedule : list task) :
  0 <= maxPerSecond -> 0 <= maxPerDay ->
  let status := getQuotaStatus (limiter (run schedule (boot now maxPerSecond maxPerDay))) in
  0 <= perSecondUsed status <= maxPerSecond /\
  0 <= dailyUsed status <= maxPerDay /\
  0 <= perSecondRemaining status /\
  0 <= dailyRemaining status /\
  perSecondUsed status + perSecondRemaining status = maxPerSecond /\
  dailyUsed status + dailyRemaining status = maxPerDay.
Proof.
  intros Hs Hd status. subst status. unfold getQuotaStatus; cbn.
  set (w := run schedule (boot now maxPerSecond maxPerDay)).
  destruct (run_second schedule (boot now maxPerSecond maxPerDay)) as [Hsec Hmax];
    [cbn; lia |].
  fold w in Hsec, Hmax. cbn in Hmax.
  assert (Hday : withinDailyBudget (limiter w)).
  { apply run_preserves_budget. unfold withinDailyBudget; cbn. lia. }
  pose proof (run_keeps_maxPerDay schedule (boot now maxPerSecond maxPerDay)) as Hmd.
  fold w in Hmd. cbn in Hmd. unfold withinDailyBudget in Hday.
  rewrite Hmax in *. rewrite Hmd in *. lia.
Qed.

Lemma limiter_status_within_ceilings_witness :
  let schedule := [CallWaitForSlot 1%nat; CallWaitForSlot 2%nat; CallWaitForSlot 3%nat] in
  let status := getQuotaStatus (limiter (run schedule (boot 0 2 5))) in
  0 <= 2 /\ 0 <= 5 /\
  perSecondUsed status = 2 /\ perSecondRemaining status = 0 /\
  0 <= dailyRemaining status.
Proof.
  intros schedule status.
  assert (H2 : 0 <= 2) by lia. assert (H5 : 0 <= 5) by lia.
  split; [exact H2 |]. split; [exact H5 |].
  split; [vm_compute; reflexivity |]. split; [vm_compute; reflexivity |].
  exact (proj1 (proj2 (proj2 (proj2
    (limiter_status_within_ceilings 0 2 5 schedule H2 H5))))).
Defined.

(** Running the loop of [processQueue] moves callers from the head of the
    queue to the resolved promises and changes nothing else of the two
    lists. *)
Lemma loopTurn_conserves (w : World) :
  (resolved (loopTurn w) ++ requestQueue (limiter (loopTurn w)))%list
  = (resolved w ++ requestQueue (limiter w))%list.
Proof.
  unfold loopTurn.
  destruct (requestQueue (limiter w)) as [| next rest] eqn:Hq; cbn.
  - by rewrite Hq.
  - destruct (canMakeRequest (limiter w)); cbn.
    + by rewrite <- app_assoc.
    + by rewrite Hq.
Qed.

Lemma processQueue_conserves (w : World) :
  (resolved (processQueue w) ++ requestQueue (limiter (processQueue w)))%list
  = (resolved w ++ requestQueue (limiter w))%list.
Proof.
  unfold processQueue.
  destruct (isProcessing (limiter w) || _); [reflexivity |].
  rewrite loopTurn_conserves. reflexivity.
Qed.

Lemma step_conserves (t : task) (w w' : World) :
  step t w = Some w' ->
  (resolved w' ++ requestQueue (limiter w'))%list
  ≡ₚ (resolved w ++ requestQueue (limiter w) ++ callersOf [t])%list.
Proof.
  destruct t; cbn.
  - intros [= <-]. unfold waitForSlot.
    destruct (canMakeRequest (limiter w)); cbn.
    + rewrite <- !app_assoc. apply Permutation_app_head, Permutation_app_comm.
    + rewrite processQueue_conserves. cbn. reflexivity.
  - destruct (isProcessing (limiter w)); [| discriminate].
    intros [= <-]. rewrite loopTurn_conserves, app_nil_r. reflexivity.
  - destruct (retryTimers w) as [| n]; [discriminate |].
    intros [= <-]. rewrite processQueue_conserves, app_nil_r. reflexivity.
  - intros [= <-]. cbn. by rewrite app_nil_r.
  - intros [= <-]. cbn. by rewrite app_nil_r.
  - intros [= <-]. cbn. by rewrite app_nil_r.
Qed.

Lemma run_conserves (schedule : list task) (w : World) :
  (resolved (run schedule w) ++ requestQueue (limiter (run schedule w)))%list
  ≡ₚ (resolved w ++ requestQueue (limiter w) ++ callersOf schedule)%list.
Proof.
  revert w. induction schedule as [| t rest IH]; intros w.
  - cbn. by rewrite app_nil_r.
  - cbn [run].
    assert (Hcons : callersOf (t :: rest) = (callersOf [t] ++ callersOf rest)%list).
    { unfold callersOf. cbn. destruct t; reflexivity. }
    rewrite Hcons.
    destruct (step t w) as [w' |] eqn:Hstep; cbn [default].
    + rewrite IH. rewrite !app_assoc. apply Permutation_app_tail.
      rewrite <- app_assoc. by apply step_conserves.
    + rewrite IH.
      assert (callersOf [t] = []) as ->.
      { destruct t; try reflexivity. cbn in Hstep. discriminate. }
      reflexivity.
Qed.

(** No caller is lost and none is admitted twice: after any schedule the
    resolved promises together with the queue are exactly the callers of
    [waitForSlot], each as often as it called. *)
Theorem limiter_conserves_callers (now maxPerSecond maxPerDay : Z)
    (schedule : list task) :
  let w := run schedule (boot now maxPerSecond maxPerDay) in
  (resolved w ++ requestQueue (limiter w))%list ≡ₚ callersOf schedule.
Proof.
  cbv zeta. rewrite run_conserves. reflexivity.
Qed.

(** A caller in the queue always has somebody to wake it: either the loop
    of [processQueue] is parked or a retry timer is pending. *)
Lemma loopTurn_wakeup (w : World) :
  requestQueue (limiter (loopTurn w)) <> [] ->
  isProcessing (limiter w) = true ->
  isProcessing (limiter (loopTurn w)) = true \/ (0 < retryTimers (loopTurn w))%nat.
Proof.
  unfold loopTurn.
  destruct (requestQueue (limiter w)) as [| next rest] eqn:Hq; cbn.
  - rewrite Hq. congruence.
  - destruct (canMakeRequest (limiter w)); cbn; intros _ Hp; [by left | right; lia].
Qed.

Lemma processQueue_wakeup (w : World) :
  requestQueue (limiter (processQueue w)) <> [] ->
  isProcessing (limiter (processQueue w)) = true \/ (0 < retryTimers (processQueue w))%nat.
Proof.
  unfold processQueue.
  destruct (isProcessing (limiter w)) eqn:Hp; cbn [orb]; [by left |].
  destruct (Nat.eqb_spec (length (requestQueue (limiter w))) 0) as [Hnil | Hsome].
  - apply nil_length_inv in Hnil. congruence.
  - intros Hq. by apply loopTurn_wakeup.
Qed.

Lemma step_wakeup (t : task) (w w' : World) :
  step t w = Some w' ->
  (requestQueue (limiter w) <> [] ->
   isProcessing (limiter w) = true \/ (0 < retryTimers w)%nat) ->
  requestQueue (limiter w') <> [] ->
  isProcessing (limiter w') = true \/ (0 < retryTimers w')%nat.
Proof.
  destruct t; cbn.
  - intros [= <-] Hinv. unfold waitForSlot.
    destruct (canMakeRequest (limiter w)); [exact Hinv |].
    apply processQueue_wakeup.
  - destruct (isProcessing (limiter w)) eqn:Hp; [| discriminate].
    intros [= <-] _ Hq. by apply loopTurn_wakeup.
  - destruct (retryTimers w) as [| n]; [discriminate |].
    intros [= <-] _. apply processQueue_wakeup.
  - intros [= <-] Hinv. exact Hinv.
  - intros [= <-] Hinv. exact Hinv.
  - intros [= <-] Hinv. exact Hinv.
Qed.

(** No lost wake-up: after any schedule, if callers are queued then the
    loop of [processQueue] is parked at its pause or a retry timer is
    pending, so one of the two tasks that serve the queue can run. *)
Theorem limiter_queue_is_served (now maxPerSecond maxPerDay : Z)
    (schedule : list task) :
  let w := run schedule (boot now maxPerSecond maxPerDay) in
  requestQueue (limiter w) <> [] ->
  is_Some (step LoopResumes w) \/ is_Some (step RetryFires w).
Proof.
  cbv zeta.
  assert (Hrun : forall s w,
            (requestQueue (limiter w) <> [] ->
             isProcessing (limiter w) = true \/ (0 < retryTimers w)%nat) ->
            requestQueue (limiter (run s w)) <> [] ->
            isProcessing (limiter (run s w)) = true \/ (0 < retryTimers (run s w))%nat).
  { induction s as [| t rest IH]; intros w Hinv; [exact Hinv |].
    cbn. destruct (step t w) as [w' |] eqn:Hstep; cbn; [| by apply IH].
    apply IH. eapply step_wakeup; eassumption. }
  intros Hq.
  destruct (Hrun schedule (boot now maxPerSecond maxPerDay)) as [Hp | Ht];
    [cbn; congruence | exact Hq | |].
  - left. cbn. rewrite Hp. eauto.
  - right. cbn. destruct (retryTimers _); [lia | eauto].
Qed.

Lemma limiter_queue_is_served_witness :
  let w := run [CallWaitForSlot 1%nat; CallWaitForSlot 2%nat] (boot 0 1 5) in
  requestQueue (limiter w) = [2%nat] /\
  (is_Some (step LoopResumes w) \/ is_Some (step RetryFires w)).
Proof.
  intros w. split; [vm_compute; reflexivity |].
  apply (limiter_queue_is_served 0 1 5 [CallWaitForSlot 1%nat; CallWaitForSlot 2%nat]).
  vm_compute. discriminate.
Defined.

(** Every admission is counted once. *)
Lemma loopTurn_accounting (w : World) :
  dailyCalls (limiter (loopTurn w)) - Z.of_nat (length (resolved (loopTurn w)))
  = dailyCalls (limiter w) - Z.of_nat (length (resolved w)).
Proof.
  unfold loopTurn.
  destruct (requestQueue (limiter w)) as [| next rest]; cbn; [reflexivity |].
  destruct (canMakeRequest (limiter w)); cbn; [| reflexivity].
  rewrite length_app. cbn. lia.
Qed.

Lemma processQueue_accounting (w : World) :
  dailyCalls (limiter (processQueue w)) - Z.of_nat (length (resolved (processQueue w)))
  = dailyCalls (limiter w) - Z.of_nat (length (resolved w)).
Proof.
  unfold processQueue.
  destruct (isProcessing (limiter w) || _); [reflexivity |].
  rewrite loopTurn_accounting. reflexivity.
Qed.

Lemma step_accounting (t : task) (w w' : World) :
  step t w = Some w' ->
  (noDailyReset [t] = true ->
   dailyCalls (limiter w') - Z.of_nat (length (resolved w'))
   = dailyCalls (limiter w) - Z.of_nat (length (resolved w))) /\
  (dailyCalls (limiter w) <= Z.of_nat (length (resolved w)) ->
   dailyCalls (limiter w') <= Z.of_nat (length (resolved w'))).
Proof.
  destruct t; cbn.
  - intros [= <-]. unfold waitForSlot.
    destruct (canMakeRequest (limiter w)); cbn.
    + rewrite length_app. cbn. lia.
    + match goal with |- context [processQueue ?w0] =>
        pose proof (processQueue_accounting w0) as H
      end.
      cbn in H. lia.
  - destruct (isProcessing (limiter w)); [| discriminate].
    intros [= <-]. pose proof (loopTurn_accounting w). lia.
  - destruct (retryTimers w) as [| n]; [discriminate |].
    intros [= <-].
    match goal with |- context [processQueue ?w0] =>
      pose proof (processQueue_accounting w0) as H
    end.
    cbn in H. lia.
  - intros [= <-]. cbn. split; [discriminate | lia].
  - intros [= <-]. cbn. lia.
  - intros [= <-]. cbn. split; [discriminate | lia].
Qed.

(** The daily counter never counts more than the promises resolved, and
    while no daily reset runs it counts exactly the promises resolved:
    every admitted caller is booked once. *)
Theorem limiter_accounting (now maxPerSecond maxPerDay : Z) (schedule : list task) :
  let w := run schedule (boot now maxPerSecond maxPerDay) in
  dailyCalls (limiter w) <= Z.of_nat (length (resolved w)) /\
  (noDailyReset schedule = true ->
   dailyCalls (limiter w) = Z.of_nat (length (resolved w))).
Proof.
  cbv zeta.
  assert (Hrun : forall s w,
            (dailyCalls (limiter w) <= Z.of_nat (length (resolved w)) ->
             dailyCalls (limiter (run s w)) <= Z.of_nat (length (resolved (run s w)))) /\
            (noDailyReset s = true ->
             dailyCalls (limiter (run s w)) - Z.of_nat (length (resolved (run s w)))
             = dailyCalls (limiter w) - Z.of_nat (length (resolved w)))).
  { induction s as [| t rest IH]; intros w; [by split |].
    cbn [run]. destruct (step t w) as [w' |] eqn:Hstep.
    - change (default w (Some w')) with w'.
      destruct (step_accounting _ _ _ Hstep) as [Heq Hle].
      destruct (IH w') as [IHle IHeq]. split.
      + intros H. apply IHle, Hle, H.
      + intros Hno. cbn in Hno. apply andb_prop in Hno as [Ht Hrest].
        etransitivity; [apply IHeq, Hrest |]. apply Heq. cbn. by rewrite Ht.
    - change (default w None) with w.
      destruct (IH w) as [IHle IHeq]. split; [exact IHle |].
      intros Hno. cbn in Hno. apply andb_prop in Hno as [_ Hrest]. by apply IHeq. }
  destruct (Hrun schedule (boot now maxPerSecond maxPerDay)) as [Hle Heq].
  split; [apply Hle; cbn; lia |].
  intros Hno. specialize (Heq Hno). cbn in Heq. cbn. lia.
Qed.

(** Once the daily ceiling is reached nobody is admitted until a daily
    reset: every schedule without one leaves the resolved promises and the
    counter as they are, and every new caller waits in the queue, in call
    order. *)
Theorem limiter_exhausted_blocks (schedule : list task) (w : World) :
  noDailyReset schedule = true ->
  maxPerDay (limiter w) <= dailyCalls (limiter w) ->
  let w' := run schedule w in
  resolved w' = resolved w /\
  dailyCalls (limiter w') = dailyCalls (limiter w) /\
  requestQueue (limiter w') = (requestQueue (limiter w) ++ callersOf schedule)%list.
Proof.
  revert w. induction schedule as [| t rest IH]; intros w Hno Hfull.
  - cbn. by rewrite app_nil_r.
  - cbn in Hno. apply andb_prop in Hno as [Ht Hrest].
    assert (Hcan : forall r, maxPerDay r <= dailyCalls r -> canMakeRequest r = false).
    { intros r Hr. unfold canMakeRequest.
      destruct (Z.leb_spec (maxPerDay r) (dailyCalls r)); [reflexivity | lia]. }
    assert (Hloop : forall w0, maxPerDay (limiter w0) <= dailyCalls (limiter w0) ->
              resolved (loopTurn w0) = resolved w0 /\
              dailyCalls (limiter (loopTurn w0)) = dailyCalls (limiter w0) /\
              maxPerDay (limiter (loopTurn w0)) = maxPerDay (limiter w0) /\
              requestQueue (limiter (loopTurn w0)) = requestQueue (limiter w0)).
    { intros w0 H0. unfold loopTurn.
      destruct (requestQueue (limiter w0)) as [| next others] eqn:Hq; cbn; [by rewrite Hq |].
      rewrite (Hcan _ H0). cbn. by rewrite Hq. }
    assert (Hpq : forall w0, maxPerDay (limiter w0) <= dailyCalls (limiter w0) ->
              resolved (processQueue w0) = resolved w0 /\
              dailyCalls (limiter (processQueue w0)) = dailyCalls (limiter w0) /\
              maxPerDay (limiter (processQueue w0)) = maxPerDay (limiter w0) /\
              requestQueue (limiter (processQueue w0)) = requestQueue (limiter w0)).
    { intros w0 H0. unfold processQueue.
      destruct (isProcessing (limiter w0) || _); [by repeat split |].
      match goal with |- context [loopTurn ?w1] =>
        destruct (Hloop w1) as (A & B & C & D); [exact H0 |]
      end.
      by repeat split. }
    assert (Hstep : forall w1, step t w = Some w1 ->
              resolved w1 = resolved w /\
              dailyCalls (limiter w1) = dailyCalls (limiter w) /\
              maxPerDay (limiter w1) = maxPerDay (limiter w) /\
              requestQueue (limiter w1) = (requestQueue (limiter w) ++ callersOf [t])%list).
    { intros w1. destruct t; cbn; try discriminate.
      - intros [= <-]. unfold waitForSlot. rewrite (Hcan _ Hfull).
        match goal with |- context [processQueue ?w0] =>
          destruct (Hpq w0) as (A & B & C & D); [exact Hfull |]
        end.
        by repeat split.
      - destruct (isProcessing (limiter w)); [| discriminate].
        intros [= <-]. destruct (Hloop w Hfull) as (A & B & C & D).
        rewrite app_nil_r. by repeat split.
      - destruct (retryTimers w) as [| n]; [discriminate |].
        intros [= <-].
        match goal with |- context [processQueue ?w0] =>
          destruct (Hpq w0) as (A & B & C & D); [exact Hfull |]
        end.
        rewrite app_nil_r. by repeat split.
      - intros [= <-]. cbn. rewrite app_nil_r. by repeat split. }
    assert (Hcons : callersOf (t :: rest) = (callersOf [t] ++ callersOf rest)%list).
    { unfold callersOf. cbn. destruct t; reflexivity. }
    cbn [run]. destruct (step t w) as [w1 |] eqn:Hs;
      [change (default w (Some w1)) with w1 | change (default w None) with w].
    + destruct (Hstep w1 eq_refl) as (A & B & C & D).
      destruct (IH w1 Hrest) as (A' & B' & C'); [lia |].
      cbv zeta in *. rewrite A', B', C', A, B, D, Hcons, app_assoc. by repeat split.
    + destruct (IH w Hrest Hfull) as (A' & B' & C').
      cbv zeta in *. rewrite A', B', C', Hcons.
      assert (callersOf [t] = []) as ->.
      { destruct t; try reflexivity. cbn in Hs. discriminate. }
      by repeat split.
Qed.

Lemma limiter_exhausted_blocks_witness :
  let w := run [CallWaitForSlot 1%nat; CallWaitForSlot 2%nat] (boot 0 50 2) in
  let schedule := [CallWaitForSlot 3%nat; RetryFires; SecondInterval 1000;
                   CallWaitForSlot 4%nat; RetryFires] in
  noDailyReset schedule = true /\
  maxPerDay (limiter w) <= dailyCalls (limiter w) /\
  resolved (run schedule w) = [1; 2]%nat /\
  requestQueue (limiter (run schedule w)) = [3; 4]%nat.
Proof.
  intros w schedule.
  assert (H1 : noDailyReset schedule = true) by reflexivity.
  assert (H2 : maxPerDay (limiter w) <= dailyCalls (limiter w))
    by (vm_compute; discriminate).
  split; [exact H1 |]. split; [exact H2 |].
  destruct (limiter_exhausted_blocks schedule w H1 H2) as (A & _ & C).
  split; [rewrite A | rewrite C]; vm_compute; reflexivity.
Defined.

(** Admission is not in arrival order: a caller that arrives when quota is
    available is admitted at once, ahead of a caller that has been queued
    since the per-second ceiling was hit and is still waiting for the
    retry timer. *)
Theorem limiter_overtaking (now now' maxPerDay : Z) (a b c : caller) :
  2 <= maxPerDay ->
  let schedule :=
    [CallWaitForSlot a; CallWaitForSlot b; SecondInterval now'; CallWaitForSlot c] in
  let w := run schedule (boot now 1 maxPerDay) in
  resolved w = [a; c] /\ requestQueue (limiter w) = [b] /\
  canMakeRequest (limiter w) = false /\ retryTimers w = 1%nat.
Proof.
  intros Hmax. cbv zeta.
  assert (E0 : (maxPerDay <=? 0) = false) by (apply Z.leb_gt; lia).
  assert (E1 : (maxPerDay <=? 1) = false) by (apply Z.leb_gt; lia).
  cbn [run].
  assert (Ha : step (CallWaitForSlot a) (boot now 1 maxPerDay)
               = Some {| limiter := makeRequest (new now 1 maxPerDay);
                         resolved := [a]; retryTimers := 0 |}).
  { unfold step, waitForSlot, canMakeRequest, boot, new.
    cbn [limiter dailyCalls perSecondCalls maxPerSecond RateLimiter.maxPerDay].
    rewrite E0. reflexivity. }
  rewrite Ha. cbn [from_option id]. clear Ha.
  assert (Hb : step (CallWaitForSlot b)
                 {| limiter := makeRequest (new now 1 maxPerDay);
                    resolved := [a]; retryTimers := 0 |}
               = Some {| limiter := setQueue [b] (makeRequest (new now 1 maxPerDay));
                         resolved := [a]; retryTimers := 1 |}).
  { unfold step, waitForSlot, processQueue, loopTurn, canMakeRequest,
      setProcessing, setQueue, makeRequest, new.
    cbn [limiter dailyCalls perSecondCalls maxPerSecond RateLimiter.maxPerDay
         requestQueue isProcessing resolved retryTimers].
    change (0 + 1) with 1. rewrite E1. reflexivity. }
  rewrite Hb. cbn [from_option id]. clear Hb.
  assert (Hs : step (SecondInterval now')
                 {| limiter := setQueue [b] (makeRequest (new now 1 maxPerDay));
                    resolved := [a]; retryTimers := 1 |}
               = Some {| limiter := resetPerSecondCounter now'
                                      (setQueue [b] (makeRequest (new now 1 maxPerDay)));
                         resolved := [a]; retryTimers := 1 |}) by reflexivity.
  rewrite Hs. cbn [from_option id]. clear Hs.
  assert (Hc : step (CallWaitForSlot c)
                 {| limiter := resetPerSecondCounter now'
                                 (setQueue [b] (makeRequest (new now 1 maxPerDay)));
                    resolved := [a]; retryTimers := 1 |}
               = Some {| limiter := makeRequest
                                      (resetPerSecondCounter now'
                                         (setQueue [b] (makeRequest (new now 1 maxPerDay))));
                         resolved := [a; c]; retryTimers := 1 |}).
  { unfold step, waitForSlot, canMakeRequest, resetPerSecondCounter,
      setQueue, makeRequest, new.
    cbn [limiter dailyCalls perSecondCalls maxPerSecond RateLimiter.maxPerDay
         requestQueue isProcessing resolved retryTimers].
    change (0 + 1) with 1. rewrite E1. reflexivity. }
  rewrite Hc. cbn [from_option id]. clear Hc.
  repeat split.
  unfold canMakeRequest, resetPerSecondCounter, setQueue, makeRequest, new.
  cbn [limiter dailyCalls perSecondCalls maxPerSecond RateLimiter.maxPerDay].
  destruct (maxPerDay <=? 0 + 1 + 1); reflexivity.
Qed.

Lemma limiter_overtaking_witness :
  2 <= 5 /\
  resolved (run [CallWaitForSlot 1%nat; CallWaitForSlot 2%nat; SecondInterval 1000;
                 CallWaitForSlot 3%nat] (boot 0 1 5)) = [1; 3]%nat.
Proof.
  assert (H : 2 <= 5) by lia.
  split; [exact H |].
  exact (proj1 (limiter_overtaking 0 1000 5 1%nat 2%nat 3%nat H)).
Defined.

End LimiterExtras.

(** ** yelpSearch: deduplication and the search of one hexagon *)

Section EngineExtras.
Import YelpSearch.


End EngineExtras.

Section SearchHexagonExtras.
Import YelpEngine.
Context {grid : H3} {index : H3Index} {turf : Turf} {format : NumberFormat}
        {api : YelpSearch.SearchApi}.

Lemma searchPointWithPagination_quota (lat lng radius : Q)
    (quota : APIQuotaManager.APIQuotaManager) :
  0 <= APIQuotaManager.dailyUsage (YelpSearch.searchPointWithPagination lat lng radius quota).2
       - APIQuotaManager.dailyUsage quota <= 3.
Proof.
  pose proof (fetchAllPages_quota lat lng radius quota) as H. cbv zeta in H.
  unfold YelpSearch.searchPointWithPagination.
  destruct (YelpSearch.fetchAllPages lat lng radius quota) as [[[first fetched] | m] q'];
    exact H.
Qed.

(** One probe: one more result, between 1 and 4 calls booked. *)
Lemma searchOnePoint_quota (h3Id : string)
    (results : list (HexagonCoverage.SearchPoint * YelpSearch.YelpSearchResult))
    (quota : APIQuotaManager.APIQuotaManager) (p : HexagonCoverage.SearchPoint) :
  let out := searchOnePoint h3Id (results, quota) p in
  length out.1 = S (length results) /\
  1 <= APIQuotaManager.dailyUsage out.2 - APIQuotaManager.dailyUsage quota <= 4.
Proof.
  cbv zeta. unfold searchOnePoint.
  pose proof (searchPointWithPagination_quota (HexagonCoverage.lat p)
                (HexagonCoverage.lng p) (HexagonCoverage.radius p)
                (APIQuotaManager.trackAPICall quota)) as H.
  destruct (YelpSearch.searchPointWithPagination _ _ _ _) as [result quota'].
  cbn in *. rewrite length_app. cbn. lia.
Qed.

Lemma searchPoints_quota (h3Id : string) (points : list HexagonCoverage.SearchPoint) :
  forall (results : list (HexagonCoverage.SearchPoint * YelpSearch.YelpSearchResult))
         (quota : APIQuotaManager.APIQuotaManager),
    let out := foldl (searchOnePoint h3Id) (results, quota) points in
    length out.1 = (length results + length points)%nat /\
    Z.of_nat (length points)
      <= APIQuotaManager.dailyUsage out.2 - APIQuotaManager.dailyUsage quota
      <= 4 * Z.of_nat (length points).
Proof.
  induction points as [| p rest IH]; intros results quota; cbn [foldl length].
  - cbn [fst snd]. lia.
  - pose proof (searchOnePoint_quota h3Id results quota p) as [H1 H2].
    destruct (searchOnePoint h3Id (results, quota) p) as [results' quota'].
    destruct (IH results' quota') as [H3 H4]. cbn [fst snd] in *. lia.
Qed.

(** The three ways [searchHexagon] can end, and what holds then: the count
    is the number of unique businesses listed, no id is listed twice, every
    business listed passed the boundary check and was returned for a probe
    of the hexagon; the state of the processor changes only on a split. *)
Theorem searchHexagon_result (h3Id : string)
    (quota : APIQuotaManager.APIQuotaManager)
    (processor : HexagonProcessor.HexagonProcessor) :
  let out := searchHexagon h3Id quota processor in
  let result := out.1.1 in
  YelpEngine.h3Id result = h3Id /\
  totalBusinesses result = Z.of_nat (length (uniqueBusinesses result)) /\
  NoDup (YelpSearch.id <$> uniqueBusinesses result) /\
  Forall (fun b => keptByBoundary h3Id b = true /\
                   exists r, r ∈ searchResults result /\ b ∈ YelpSearch.businesses r.2)
         (uniqueBusinesses result) /\
  ((status result = "fetched" /\ totalBusinesses result <= 240 /\
    splitResult result = None /\ error result = None /\ out.2 = processor)
   \/
   (status result = "split" /\ 240 < totalBusinesses result /\
    (exists split, splitResult result = Some split /\
                   HexagonSplitter.splitHexagon h3Id 7 8 = Returns split) /\
    error result = None /\
    out.2 = (HexagonProcessor.handleDenseHexagons h3Id (totalBusinesses result) 7 processor).2)
   \/
   (status result = "failed" /\ totalBusinesses result = 0 /\
    uniqueBusinesses result = [] /\ searchResults result = [] /\
    is_Some (error result) /\ out.2 = processor)).
Proof.
  cbv zeta. unfold searchHexagon.
  assert (Hfail : forall (m : string) (q : APIQuotaManager.APIQuotaManager),
            let out := (failedResult h3Id m, q, processor) in
            let result := out.1.1 in
            YelpEngine.h3Id result = h3Id /\
            totalBusinesses result = Z.of_nat (length (uniqueBusinesses result)) /\
            NoDup (YelpSearch.id <$> uniqueBusinesses result) /\
            Forall (fun b => keptByBoundary h3Id b = true /\
                     exists r, r ∈ searchResults result /\ b ∈ YelpSearch.businesses r.2)
                   (uniqueBusinesses result) /\
            ((status result = "fetched" /\ totalBusinesses result <= 240 /\
              splitResult result = None /\ error result = None /\ out.2 = processor)
             \/
             (status result = "split" /\ 240 < totalBusinesses result /\
              (exists split, splitResult result = Some split /\
                             HexagonSplitter.splitHexagon h3Id 7 8 = Returns split) /\
              error result = None /\
              out.2 = (HexagonProcessor.handleDenseHexagons h3Id
                         (totalBusinesses result) 7 processor).2)
             \/
             (status result = "failed" /\ totalBusinesses result = 0 /\
              uniqueBusinesses result = [] /\ searchResults result = [] /\
              is_Some (error result) /\ out.2 = processor))).
  { intros m q. cbn. repeat split; auto; try apply NoDup_nil_2.
    right; right. repeat split; eauto. }
  destruct (negb (APIQuotaManager.canProcessRequest _)); [apply Hfail |].
  destruct (HexagonCoverage.generateSearchPoints h3Id) as [coverage | m]; [| apply Hfail].
  destruct (negb (HexagonCoverage.validateCoverage coverage)); [apply Hfail |].
  destruct (searchAllPoints coverage quota) as [results quota'].
  unfold processSearchResults.
  set (all := results ≫= (fun r => YelpSearch.businesses r.2)).
  set (validated := validateBusinessBoundaries h3Id all).
  set (unique := YelpSearch.deduplicateBusinesses validated).
  destruct (deduplicateBusinesses_spec validated) as (Hnodup & _ & Hin).
  fold unique in Hnodup, Hin.
  assert (Hkept : Forall (fun b => keptByBoundary h3Id b = true /\
                    exists r, r ∈ results /\ b ∈ YelpSearch.businesses r.2) unique).
  { apply Forall_forall. intros b Hb. apply Hin in Hb.
    apply list_elem_of_In, filter_In in Hb as [Hall Hk]. split; [exact Hk |].
    apply list_elem_of_In in Hall. subst all.
    apply list_elem_of_bind in Hall as (r & Hbr & Hr). exists r. by split. }
  unfold HexagonSplitter.detectDenseHexagon.
  destruct (Z.ltb_spec 240 (Z.of_nat (length unique))) as [Hdense | Hsparse].
  - destruct (HexagonSplitter.splitHexagon h3Id 7 8) as [sr | m] eqn:Hsplit;
      [| apply Hfail].
    cbn. repeat split; auto. right; left. repeat split; eauto.
  - cbn. repeat split; auto. left. by repeat split.
Qed.

(** What the search of a hexagon books: nothing when fewer than 11 calls
    remain of the daily quota, in which case it fails at once with the
    recommendations of the critical risk level; otherwise at most 24 calls
    (4 for each of at most 6 probes), whatever the remaining quota. *)
Theorem searchHexagon_quota (h3Id : string)
    (quota : APIQuotaManager.APIQuotaManager)
    (processor : HexagonProcessor.HexagonProcessor) :
  let out := searchHexagon h3Id quota processor in
  let remaining := APIQuotaManager.dailyLimit quota - APIQuotaManager.dailyUsage quota in
  0 <= APIQuotaManager.dailyUsage out.1.2 - APIQuotaManager.dailyUsage quota <= 24 /\
  Z.of_nat (length (searchResults out.1.1))
    <= APIQuotaManager.dailyUsage out.1.2 - APIQuotaManager.dailyUsage quota /\
  (remaining < 11 ->
   out = (failedResult h3Id
            ("Insufficient quota: Request exceeds 80% of remaining quota, "
               +:+ "Consider processing in smaller batches, Wait for daily quota reset"),
          quota, processor)).
Proof.
  cbv zeta. unfold searchHexagon.
  rewrite canProcessRequest_estimate.
  set (remaining := APIQuotaManager.dailyLimit quota - APIQuotaManager.dailyUsage quota).
  assert (He : (Double.mul (Double.mul (inject_Z 1) 7) (15 # 10) == 21 # 2)%Q)
    by (vm_compute; reflexivity).
  set (e := Double.mul (Double.mul (inject_Z 1) 7) (15 # 10)) in *.
  destruct (Qle_bool e (inject_Z remaining)) eqn:Hcan; cbn [negb].
  - apply Qle_bool_iff in Hcan.
    assert (Hrem : 11 <= remaining).
    { destruct (Z_lt_le_dec remaining 11) as [Hlt | Hge]; [| exact Hge].
      exfalso. assert (Hq : (inject_Z remaining <= inject_Z 10)%Q)
        by (rewrite <- Zle_Qle; lia).
      change (inject_Z 10) with 10%Q in Hq. lra. }
    destruct (HexagonCoverage.generateSearchPoints h3Id) as [coverage | m] eqn:Hgen;
      [| cbn; repeat split; lia].
    destruct (negb (HexagonCoverage.validateCoverage coverage));
      [cbn; repeat split; lia |].
    unfold searchAllPoints.
    pose proof (searchPoints_quota (HexagonCoverage.h3Id coverage)
                  (HexagonCoverage.searchPoints coverage) [] quota) as [Hlen Hq].
    destruct (foldl _ _ _) as [results quota'] eqn:Hrun.
    cbn [fst snd length Nat.add] in Hlen, Hq.
    assert (Hsix : (length (HexagonCoverage.searchPoints coverage) <= 6)%nat).
    { destruct (generateSearchPoints_returns _ _ Hgen) as (c & b & _ & _ & ->). cbn.
      apply plan_length. }
    unfold processSearchResults.
    destruct (HexagonSplitter.detectDenseHexagon _);
      [destruct (HexagonSplitter.splitHexagon h3Id 7 8) |]; cbn; repeat split; lia.
  - cbn. repeat split; try lia.
    intros _.
    assert (Hlt : (inject_Z remaining < e)%Q).
    { apply Qnot_le_lt. intros Hle. apply Qle_bool_iff in Hle. congruence. }
    assert (Hshare : (APIQuotaManager.quotaShare remaining (8 # 10) <= Qmax 0 (inject_Z remaining))%Q).
    { destruct (Z_lt_le_dec 0 remaining) as [Hpos | Hneg].
      - eapply Qle_trans; [| apply Q.le_max_r].
        apply quotaShare_below; [exact Hpos | vm_compute; discriminate | apply Qle_refl].
      - eapply Qle_trans; [| apply Q.le_max_l].
        unfold APIQuotaManager.quotaShare, Double.mul. apply round_nonpos.
        assert (HR : (inject_Z remaining <= 0)%Q)
          by (change 0%Q with (inject_Z 0); by rewrite <- Zle_Qle).
        pose proof (round_nonneg (8 # 10) ltac:(vm_compute; discriminate)) as Hc.
        nra. }
    assert (Hcrit : Qgtb e (APIQuotaManager.quotaShare remaining (8 # 10)) = true).
    { apply Qgtb_true_iff.
      eapply Qle_lt_trans; [exact Hshare |].
      apply Q.max_lub_lt; [lra | exact Hlt]. }
    unfold APIQuotaManager.estimateQuotaForCity. fold remaining. fold e. rewrite Hcrit.
    reflexivity.
Qed.

End SearchHexagonExtras.

(** The resolution-7 cell of the sample has three probes; when each
    returns 200 restaurants of its own the hexagon is dense: it is split,
    12 calls are booked, and its child waits in the subdivision queue. *)
Example busy_hexagon_is_split :
  let out := DemoSearch.search DemoSearch.busyApi Demo.cell7 in
  (YelpEngine.status out.1.1, YelpEngine.totalBusinesses out.1.1,
   length (YelpEngine.searchResults out.1.1),
   APIQuotaManager.dailyUsage out.1.2,
   size (HexagonProcessor.subdivisionQueue out.2))
  = ("split", 600, 3%nat, 12, 1%nat).
Proof. vm_compute. reflexivity. Qed.

(** ** hexagonProcessor: statuses, splits and batches *)

Section ProcessorExtras.
Import HexagonProcessor ProcessorOps.

Lemma filter_length_le {A} (f : A -> bool) (l : list A) :
  (length (List.filter f l) <= length l)%nat.
Proof.
  induction l as [| x l IH]; [cbn; lia |].
  cbn. destruct (f x); cbn; lia.
Qed.

Lemma filter_disjoint_length {A} (f g : A -> bool) (l : list A) :
  (forall x, f x = true -> g x = false) ->
  (length (List.filter f l) + length (List.filter g l) <= length l)%nat.
Proof.
  intros Hfg. induction l as [| x l IH]; [cbn; lia |].
  cbn. destruct (f x) eqn:Hf; [rewrite (Hfg x Hf) |]; destruct (g x); cbn; lia.
Qed.

Lemma countValues_bounds pred (m : gmap string HexagonProcessingStatus) :
  0 <= countValues pred m <= Z.of_nat (size m).
Proof.
  unfold countValues.
  pose proof (filter_length_le pred (map_to_list m).*2) as H.
  rewrite length_fmap, length_map_to_list in H. lia.
Qed.

Lemma countValues_disjoint pred1 pred2 (m : gmap string HexagonProcessingStatus) :
  (forall h, pred1 h = true -> pred2 h = false) ->
  countValues pred1 m + countValues pred2 m <= Z.of_nat (size m).
Proof.
  intros Hd. unfold countValues.
  pose proof (filter_disjoint_length pred1 pred2 (map_to_list m).*2 Hd) as H.
  rewrite length_fmap, length_map_to_list in H. lia.
Qed.

(** The statistics are consistent with the maps: no counter is negative,
    [total] is the sum of its four parts, the split hexagons and the
    hexagons of resolutions 7 and 8 are among the completed ones, and the
    queued and processing ones are distinct entries of the queue. *)
Theorem getProcessingStats_consistent (p : HexagonProcessor) :
  let stats := getProcessingStats p in
  0 <= queued stats /\ 0 <= processing stats /\ 0 <= completed stats /\
  0 <= failed stats /\ 0 <= split stats /\
  0 <= resolution7 stats /\ 0 <= resolution8 stats /\
  stats_total stats = queued stats + processing stats + completed stats + failed stats /\
  split stats <= completed stats /\
  resolution7 stats + resolution8 stats <= completed stats /\
  queued stats + processing stats <= Z.of_nat (size (processingQueue p)).
Proof.
  cbv zeta. unfold getProcessingStats; cbn.
  pose proof (countValues_bounds (fun h => bool_decide (status h = "queued"))
                (processingQueue p)).
  pose proof (countValues_bounds (fun h => bool_decide (status h = "processing"))
                (processingQueue p)).
  pose proof (countValues_bounds (fun h => bool_decide (status h = "split"))
                (completedHexagons p)).
  pose proof (countValues_bounds (fun h => resolution h =? 7) (completedHexagons p)).
  pose proof (countValues_bounds (fun h => resolution h =? 8) (completedHexagons p)).
  pose proof (countValues_disjoint (fun h => resolution h =? 7) (fun h => resolution h =? 8)
                (completedHexagons p)) as H78.
  pose proof (countValues_disjoint (fun h => bool_decide (status h = "queued"))
                (fun h => bool_decide (status h = "processing")) (processingQueue p)) as Hqp.
  assert (Hd78 : forall h, (resolution h =? 7) = true -> (resolution h =? 8) = false)
    by (intros h H7%Z.eqb_eq; apply Z.eqb_neq; lia).
  assert (Hdqp : forall h, bool_decide (status h = "queued") = true ->
                           bool_decide (status h = "processing") = false).
  { intros h Hq%bool_decide_eq_true. apply bool_decide_eq_false. rewrite Hq. discriminate. }
  specialize (H78 Hd78). specialize (Hqp Hdqp). lia.
Qed.

Section WithGrid.
Context {grid : H3} {format : NumberFormat}.

(** The loop that queues the children of a split. *)
Lemma queueChildren_spec (parent : string) (target : Z)
    (children : list HexagonSplitter.SplitHexagon) :
  forall p : HexagonProcessor,
    let p' := foldl (queueChild parent target) p children in
    processingQueue p' = processingQueue p /\
    completedHexagons p' = completedHexagons p /\
    failedHexagons p' = failedHexagons p /\
    parentChildRelationships p' = parentChildRelationships p /\
    (forall c, c ∉ HexagonSplitter.h3Id <$> children ->
       childParentRelationships p' !! c = childParentRelationships p !! c /\
       subdivisionQueue p' !! c = subdivisionQueue p !! c) /\
    (forall c, c ∈ HexagonSplitter.h3Id <$> children ->
       childParentRelationships p' !! c = Some parent /\
       exists entry,
         subdivisionQueue p' !! c = Some entry /\
         HexagonProcessor.h3Id entry = c /\
         status entry = "queued" /\
         parentH3Id entry = Some parent /\
         resolution entry = target).
Proof.
  induction children as [| x rest IH]; intros p; cbn [foldl fmap list_fmap].
  - cbv zeta. do 4 (split; [reflexivity |]).
    split; [intros c _; by split | intros c Hc; by apply elem_of_nil in Hc].
  - cbv zeta.
    destruct (IH (queueChild parent target p x)) as (H1 & H2 & H3 & H4 & Hout & Hin).
    split; [exact H1 |]. split; [exact H2 |]. split; [exact H3 |]. split; [exact H4 |].
    split.
    + intros c Hc.
      assert (Hne : c <> HexagonSplitter.h3Id x).
      { intros ->. apply Hc, elem_of_cons. by left. }
      destruct (Hout c) as [A B].
      { intros Hrest. apply Hc, elem_of_cons. by right. }
      rewrite A, B. cbn. split; by apply lookup_insert_ne.
    + intros c Hc.
      destruct (decide (c ∈ HexagonSplitter.h3Id <$> rest)) as [Hrest | Hnot];
        [by apply Hin |].
      apply elem_of_cons in Hc as [-> | Hc]; [| contradiction].
      destruct (Hout _ Hnot) as [A B]. rewrite A, B. cbn.
      rewrite !lookup_insert_eq. split; [reflexivity |].
      eexists. split; [reflexivity |]. by repeat split.
Qed.

Lemma length_omap_total {A B} (f : A -> option B) (l : list A) :
  (forall x, x ∈ l -> is_Some (f x)) -> length (omap f l) = length l.
Proof.
  induction l as [| x l IH]; intros Hall; [reflexivity |].
  cbn. destruct (Hall x) as [y Hy]; [apply elem_of_cons; by left |].
  rewrite Hy. cbn. f_equal. apply IH. intros z Hz. apply Hall, elem_of_cons. by right.
Qed.

(** A dense hexagon that the grid can split: the hexagon is recorded as
    split and completed, its children are registered in both directions of
    the parent-child index and wait, queued, in the subdivision queue at
    the next resolution; [getChildHexagons] then finds every child. *)
Theorem handleDenseHexagons_split (h3Id : string) (total currentResolution : Z)
    (p : HexagonProcessor) (split : HexagonSplitter.HexagonSplitResult) :
  240 < total ->
  HexagonSplitter.splitHexagon h3Id currentResolution (currentResolution + 1)
    = Returns split ->
  let out := handleDenseHexagons h3Id total currentResolution p in
  let children := HexagonSplitter.h3Id <$> HexagonSplitter.splitHexagons split in
  status out.1 = "split" /\
  childH3Ids out.1 = Some children /\
  totalBusinesses out.1 = Some total /\
  completedHexagons out.2 !! h3Id = Some out.1 /\
  parentChildRelationships out.2 !! h3Id = Some children /\
  failedHexagons out.2 = failedHexagons p /\
  (forall c, c ∈ children ->
     childParentRelationships out.2 !! c = Some h3Id /\
     exists entry,
       subdivisionQueue out.2 !! c = Some entry /\
       HexagonProcessor.h3Id entry = c /\
       status entry = "queued" /\
       parentH3Id entry = Some h3Id /\
       resolution entry = currentResolution + 1) /\
  length (getChildHexagons out.2 h3Id) = length children.
Proof.
  intros Hdense Hsplit. cbv zeta. unfold handleDenseHexagons.
  unfold HexagonSplitter.detectDenseHexagon.
  destruct (Z.ltb_spec 240 total) as [_ | Hno]; [| lia]. cbn [negb].
  rewrite Hsplit. cbn [fst snd].
  match goal with |- context [foldl (queueChild ?a ?b) ?p0 ?cs] =>
    destruct (queueChildren_spec a b cs p0) as (H1 & H2 & H3 & H4 & Hout & Hin);
    set (p' := foldl (queueChild a b) p0 cs) in *
  end.
  cbn in H2, H3, H4.
  repeat split; try reflexivity.
  - rewrite H2. apply lookup_insert_eq.
  - rewrite H4. apply lookup_insert_eq.
  - rewrite H3. reflexivity.
  - by apply Hin.
  - by apply Hin.
  - unfold getChildHexagons. rewrite H4, lookup_insert_eq. cbn [default].
    apply length_omap_total. intros c Hc.
    destruct (Hin c Hc) as (_ & entry & Hentry & _).
    unfold getHexagonStatus.
    destruct (processingQueue p' !! c); [eauto |].
    destruct (completedHexagons p' !! c); [eauto |].
    destruct (failedHexagons p' !! c); [eauto |].
    rewrite Hentry. eauto.
Qed.

(** A hexagon that is not dense, or that the grid cannot split, is recorded
    as failed with the reason; nothing is queued for subdivision and the
    parent-child index and the completed hexagons stay as they are. *)
Theorem handleDenseHexagons_failure (h3Id : string) (total currentResolution : Z)
    (p : HexagonProcessor) :
  total <= 240 \/
  returned (HexagonSplitter.splitHexagon h3Id currentResolution (currentResolution + 1))
    = false ->
  let out := handleDenseHexagons h3Id total currentResolution p in
  status out.1 = "failed" /\
  (total <= 240 ->
   error out.1 = Some ("Hexagon " +:+ h3Id +:+ " is not dense ("
                         +:+ pretty total +:+ " businesses)")) /\
  is_Some (error out.1) /\
  failedHexagons out.2 !! h3Id = Some out.1 /\
  (exists entry, processingQueue out.2 !! h3Id = Some entry /\ status entry = "failed") /\
  completedHexagons out.2 = completedHexagons p /\
  subdivisionQueue out.2 = subdivisionQueue p /\
  parentChildRelationships out.2 = parentChildRelationships p /\
  childParentRelationships out.2 = childParentRelationships p.
Proof.
  intros Hwhy. cbv zeta. unfold handleDenseHexagons.
  unfold HexagonSplitter.detectDenseHexagon.
  destruct (Z.ltb_spec 240 total) as [Hdense | Hsparse]; cbn [negb].
  - destruct Hwhy as [Hle | Hthrows]; [lia |].
    destruct (HexagonSplitter.splitHexagon _ _ _) as [split | m]; [discriminate |].
    cbn. repeat split; eauto; try lia.
    + apply lookup_insert_eq.
    + rewrite lookup_insert_eq. eexists. split; [reflexivity |]. reflexivity.
  - cbn. repeat split; eauto.
    + apply lookup_insert_eq.
    + rewrite lookup_insert_eq. eexists. split; [reflexivity |]. reflexivity.
Qed.

End WithGrid.

End ProcessorExtras.

Section ProcessorExtrasWitnesses.
Import HexagonProcessor ProcessorOps.

Lemma handleDenseHexagons_split_witness :
  exists split,
    240 < 241 /\
    HexagonSplitter.splitHexagon (grid := Demo.grid) (format := Demo.format) Demo.cell7 7 (7 + 1) = Returns split /\
    status (handleDenseHexagons (grid := Demo.grid) (format := Demo.format) Demo.cell7 241 7 new).1 = "split" /\
    parentChildRelationships
      (handleDenseHexagons (grid := Demo.grid) (format := Demo.format) Demo.cell7 241 7 new).2 !! Demo.cell7
    = Some (HexagonSplitter.h3Id <$> HexagonSplitter.splitHexagons split).
Proof.
  eexists.
  assert (Hdense : 240 < 241) by lia.
  split; [exact Hdense |]. split; [vm_compute; reflexivity |].
  match goal with |- context [HexagonSplitter.splitHexagons ?r] =>
    assert (H : HexagonSplitter.splitHexagon (grid := Demo.grid) (format := Demo.format) Demo.cell7 7 (7 + 1)
                = Returns r)
      by (vm_compute; reflexivity)
  end.
  destruct (handleDenseHexagons_split (grid := Demo.grid) (format := Demo.format) Demo.cell7 241 7 new _ Hdense H)
    as (Hstatus & _ & _ & _ & Hchildren & _).
  split; [exact Hstatus | exact Hchildren].
Defined.

Lemma handleDenseHexagons_failure_witness :
  100 <= 240 /\
  status (handleDenseHexagons (grid := Demo.grid) (format := Demo.format) Demo.cell7 100 7 new).1 = "failed" /\
  subdivisionQueue (handleDenseHexagons (grid := Demo.grid) (format := Demo.format) Demo.cell7 100 7 new).2 = ∅.
Proof.
  assert (H : 100 <= 240) by lia.
  split; [exact H |].
  destruct (handleDenseHexagons_failure (grid := Demo.grid) (format := Demo.format) Demo.cell7 100 7 new
              (or_introl H)) as (Hst & _ & _ & _ & _ & _ & Hq & _).
  split; [exact Hst | exact Hq].
Defined.

End ProcessorExtrasWitnesses.

(** ** hexagonProcessor: processing one hexagon, phase 1 and batches *)

Section ProcessorFlowExtras.
Import HexagonProcessor ProcessorOps.
Context {grid : H3} {turf : Turf} {format : NumberFormat}.

(** What [processHexagonWithCoverage] leaves behind, shared by the
    properties below. *)
Lemma processHexagonWithCoverage_maps (h3Id : string) (resolution : Z)
    (yelpResult : option YelpSummary) (elapsed : Z) (p : HexagonProcessor) :
  let out := processHexagonWithCoverage h3Id resolution yelpResult elapsed p in
  processingQueue out.2 !! h3Id
    = Some (withStatus (status out.1) resolution
              (withStatus "processing" resolution
                 (default {| h3Id := h3Id; resolution := resolution;
                             parentH3Id := None; childH3Ids := None;
                             status := "queued"; coverageQuality := "unknown";
                             searchPointsCount := 0; totalBusinesses := None;
                             error := None; splitResult := None; processingTime := None;
                             needsSubdivision := false; subdivisionResult := None |}
                          (processingQueue p !! h3Id)))) /\
  (forall other, other <> h3Id ->
     processingQueue out.2 !! other = processingQueue p !! other /\
     completedHexagons out.2 !! other = completedHexagons p !! other /\
     failedHexagons out.2 !! other = failedHexagons p !! other) /\
  (if returned (planWithStats h3Id)
   then completedHexagons out.2 = <[h3Id := out.1]> (completedHexagons p) /\
        failedHexagons out.2 = failedHexagons p
   else failedHexagons out.2 = <[h3Id := out.1]> (failedHexagons p) /\
        completedHexagons out.2 = completedHexagons p) /\
  subdivisionQueue out.2 = subdivisionQueue p /\
  parentChildRelationships out.2 = parentChildRelationships p /\
  childParentRelationships out.2 = childParentRelationships p.
Proof.
  cbv zeta. unfold processHexagonWithCoverage.
  destruct (planWithStats h3Id) as [stats | m]; cbn [returned fst snd];
    unfold updateProcessingStatus;
    cbn [processingQueue completedHexagons failedHexagons subdivisionQueue
         parentChildRelationships childParentRelationships];
    rewrite !lookup_insert_eq; cbn [default from_option id];
    (split; [reflexivity |]);
    (split; [intros other Hne; by rewrite !lookup_insert_ne by done |]);
    by repeat split.
Qed.

(** [processHexagonWithCoverage] ends in one of three states and never
    leaves the hexagon "processing": the status is "failed" exactly when
    no valid plan could be generated, "split" exactly when the caller
    reported a split, "fetched" otherwise; the flag [needsSubdivision]
    follows the reported count alone.  A failure is recorded beside, not
    instead of, an earlier completed record, and nothing is ever queued for
    subdivision. *)
Theorem processHexagonWithCoverage_outcome (h3Id : string) (resolution : Z)
    (yelpResult : option YelpSummary) (elapsed : Z) (p : HexagonProcessor) :
  let out := processHexagonWithCoverage h3Id resolution yelpResult elapsed p in
  let planned := returned (planWithStats h3Id) in
  let reportedSplit := bool_decide (yelp_status <$> yelpResult = Some "split") in
  let reportedCount := default 0 (yelp_totalBusinesses <$> yelpResult) in
  status out.1 = (if planned then if reportedSplit then "split" else "fetched"
                  else "failed") /\
  needsSubdivision out.1 = planned && (240 <? reportedCount) /\
  totalBusinesses out.1 = (if planned then Some reportedCount else None) /\
  (planned = false -> is_Some (error out.1)) /\
  (exists entry, processingQueue out.2 !! h3Id = Some entry /\
                 status entry = status out.1 /\
                 status entry <> "processing") /\
  (if planned
   then completedHexagons out.2 !! h3Id = Some out.1 /\
        failedHexagons out.2 = failedHexagons p
   else failedHexagons out.2 !! h3Id = Some out.1 /\
        completedHexagons out.2 = completedHexagons p) /\
  subdivisionQueue out.2 = subdivisionQueue p /\
  parentChildRelationships out.2 = parentChildRelationships p /\
  childParentRelationships out.2 = childParentRelationships p.
Proof.
  cbv zeta.
  destruct (processHexagonWithCoverage_maps h3Id resolution yelpResult elapsed p)
    as (Hqueue & _ & Hmaps & Hsub & Hpc & Hcp).
  assert (Hfields :
    status (processHexagonWithCoverage h3Id resolution yelpResult elapsed p).1
      = (if returned (planWithStats h3Id)
         then if bool_decide (yelp_status <$> yelpResult = Some "split")
              then "split" else "fetched"
         else "failed") /\
    needsSubdivision (processHexagonWithCoverage h3Id resolution yelpResult elapsed p).1
      = returned (planWithStats h3Id)
        && (240 <? default 0 (yelp_totalBusinesses <$> yelpResult)) /\
    totalBusinesses (processHexagonWithCoverage h3Id resolution yelpResult elapsed p).1
      = (if returned (planWithStats h3Id)
         then Some (default 0 (yelp_totalBusinesses <$> yelpResult)) else None) /\
    (returned (planWithStats h3Id) = false ->
     is_Some (error (processHexagonWithCoverage h3Id resolution yelpResult elapsed p).1))).
  { unfold processHexagonWithCoverage.
    destruct (planWithStats h3Id) as [stats | m]; cbn [returned fst snd andb];
      cbn [status needsSubdivision totalBusinesses error].
    - repeat split; [| discriminate].
      destruct yelpResult as [y |]; cbn [fmap option_fmap option_map].
      + destruct (decide (yelp_status y = "split")) as [Hs | Hs].
        * rewrite !bool_decide_eq_true_2; [reflexivity | by rewrite Hs | exact Hs].
        * rewrite !bool_decide_eq_false_2; [reflexivity | congruence | exact Hs].
      + rewrite bool_decide_eq_false_2 by discriminate. reflexivity.
    - repeat split. eauto. }
  destruct Hfields as (Hstatus & Hneeds & Htotal & Herror).
  split; [exact Hstatus |]. split; [exact Hneeds |]. split; [exact Htotal |].
  split; [exact Herror |]. split.
  { eexists. split; [exact Hqueue |]. split; [reflexivity |].
    cbn [status withStatus]. rewrite Hstatus.
    destruct (returned _); [destruct (bool_decide _) |]; discriminate. }
  split.
  { destruct (returned (planWithStats h3Id)); destruct Hmaps as [Hin Hkeep];
      (split; [rewrite Hin; apply lookup_insert_eq | exact Hkeep]). }
  by repeat split.
Qed.

(** Looking up a hexagon that was not in the processing queue after it was
    processed finds the entry of the queue, which shadows the record that
    was returned and stored: it has the final status but no business
    count, no processing time, no error message and the coverage quality
    "unknown". *)
Theorem getHexagonStatus_after_processing (h3Id : string) (resolution : Z)
    (yelpResult : option YelpSummary) (elapsed : Z) (p : HexagonProcessor) :
  processingQueue p !! h3Id = None ->
  let out := processHexagonWithCoverage h3Id resolution yelpResult elapsed p in
  exists entry,
    getHexagonStatus out.2 h3Id = Some entry /\
    status entry = status out.1 /\
    HexagonProcessor.resolution entry = resolution /\
    totalBusinesses entry = None /\
    processingTime entry = None /\
    error entry = None /\
    coverageQuality entry = "unknown" /\
    entry <> out.1.
Proof.
  intros Hfresh. cbv zeta.
  destruct (processHexagonWithCoverage_maps h3Id resolution yelpResult elapsed p)
    as (Hqueue & _).
  rewrite Hfresh in Hqueue. cbn [default from_option id] in Hqueue.
  eexists. split; [unfold getHexagonStatus; rewrite Hqueue; reflexivity |].
  repeat split.
  intros Heq. apply (f_equal processingTime) in Heq. revert Heq.
  unfold processHexagonWithCoverage.
  destruct (planWithStats h3Id); cbn; discriminate.
Qed.

(** Phase 1 of [processTwoPhaseAlgorithm] calls [processHexagonWithCoverage]
    without search results, so it never finds a dense hexagon: one result
    per hexagon, in order, each "fetched" or "failed" at resolution 7 with
    [needsSubdivision] false, and the subdivision queue and the
    parent-child index are left as they were. *)
Theorem phase1_never_splits (clock : nat -> Z) (hexagons : list string) :
  forall (i : nat) (p : HexagonProcessor),
    let out := phase1 clock i hexagons p in
    HexagonProcessor.h3Id <$> out.1 = hexagons /\
    Forall (fun r => (status r = "fetched" \/ status r = "failed") /\
                     resolution r = 7 /\
                     needsSubdivision r = false /\
                     childH3Ids r = None) out.1 /\
    subdivisionQueue out.2 = subdivisionQueue p /\
    parentChildRelationships out.2 = parentChildRelationships p /\
    childParentRelationships out.2 = childParentRelationships p.
Proof.
  induction hexagons as [| h3Id rest IH]; intros i p; cbn [phase1].
  - cbv zeta. cbn. repeat split; auto.
  - cbv zeta.
    destruct (processHexagonWithCoverage_maps h3Id 7 None (clock i) p)
      as (_ & _ & _ & Hsub & Hpc & Hcp).
    assert (Hresult :
      let r := (processHexagonWithCoverage h3Id 7 None (clock i) p).1 in
      HexagonProcessor.h3Id r = h3Id /\
      (status r = "fetched" \/ status r = "failed") /\
      resolution r = 7 /\ needsSubdivision r = false /\ childH3Ids r = None /\
      (totalBusinesses r = Some 0 \/ totalBusinesses r = None)).
    { cbv zeta. unfold processHexagonWithCoverage.
      destruct (planWithStats h3Id); cbn; repeat split; auto. }
    cbv zeta in Hresult.
    destruct (processHexagonWithCoverage h3Id 7 None (clock i) p) as [result p1].
    cbn [fst snd] in *.
    destruct Hresult as (Hid & Hstatus & Hres & Hneeds & Hchildren & Htotal).
    set (p2 := match totalBusinesses result with
               | Some total =>
                   if needsSubdivision result && negb (total =? 0) && (240 <? total)
                   then (handleDenseHexagons h3Id total 7 p1).2
                   else p1
               | None => p1
               end).
    assert (Hp2 : p2 = p1).
    { subst p2. rewrite Hneeds. destruct (totalBusinesses result); reflexivity. }
    rewrite Hp2. clear p2 Hp2.
    specialize (IH (S i) p1). cbv zeta in IH.
    destruct (phase1 clock (S i) rest p1) as [results p3]. cbn [fst snd] in *.
    destruct IH as (Hids & Hall & Hsub' & Hpc' & Hcp').
    split; [cbn; by rewrite Hid, Hids |].
    split; [constructor; [by repeat split | exact Hall] |].
    repeat split; congruence.
Qed.

(** The calls of [processBatch], one hexagon after the other. *)
Lemma processEach_spec (clock : nat -> Z) (hexagons : list string) (resolution : Z) :
  forall (i : nat) (p : HexagonProcessor),
    let out := processEach clock i hexagons resolution p in
    (forall h, h ∈ hexagons ->
       exists entry,
         processingQueue out.2 !! h = Some entry /\
         (status entry = "fetched" \/ status entry = "failed") /\
         HexagonProcessor.resolution entry = resolution /\
         (is_Some (completedHexagons out.2 !! h) \/ is_Some (failedHexagons out.2 !! h))) /\
    (forall h, h ∉ hexagons ->
       processingQueue out.2 !! h = processingQueue p !! h /\
       completedHexagons out.2 !! h = completedHexagons p !! h /\
       failedHexagons out.2 !! h = failedHexagons p !! h) /\
    subdivisionQueue out.2 = subdivisionQueue p /\
    parentChildRelationships out.2 = parentChildRelationships p /\
    childParentRelationships out.2 = childParentRelationships p.
Proof.
  induction hexagons as [| h3Id rest IH]; intros i p; cbn [processEach].
  - cbv zeta. cbn [fst snd]. split; [intros h Hh; by apply elem_of_nil in Hh |].
    by repeat split.
  - cbv zeta.
    destruct (processHexagonWithCoverage_maps h3Id resolution None (clock i) p)
      as (Hqueue & Hother & Hmaps & Hsub & Hpc & Hcp).
    assert (Hstatus :
      status (processHexagonWithCoverage h3Id resolution None (clock i) p).1
      = if returned (planWithStats h3Id) then "fetched" else "failed").
    { unfold processHexagonWithCoverage. destruct (planWithStats h3Id); reflexivity. }
    destruct (processHexagonWithCoverage h3Id resolution None (clock i) p) as [result p1].
    cbn [fst snd] in *.
    specialize (IH (S i) p1). cbv zeta in IH.
    destruct (processEach clock (S i) rest resolution p1) as [results p2].
    cbn [fst snd] in *.
    destruct IH as (Hin & Hout & Hsub' & Hpc' & Hcp').
    split; [| split; [| repeat split; congruence]].
    + intros h Hh.
      destruct (decide (h ∈ rest)) as [Hrest | Hnot]; [by apply Hin |].
      apply elem_of_cons in Hh as [-> | Hh]; [| contradiction].
      destruct (Hout _ Hnot) as (Hq & Hc & Hf).
      eexists. split; [rewrite Hq; exact Hqueue |].
      split; [cbn [status withStatus]; rewrite Hstatus;
              destruct (returned _); auto |].
      split; [reflexivity |].
      rewrite Hc, Hf.
      destruct (returned (planWithStats h3Id)); destruct Hmaps as [-> _];
        rewrite lookup_insert_eq; eauto.
    + intros h Hh.
      assert (Hne : h <> h3Id) by (intros ->; apply Hh, elem_of_cons; by left).
      assert (Hnot : h ∉ rest) by (intros Hrest; apply Hh, elem_of_cons; by right).
      destruct (Hout _ Hnot) as (Hq & Hc & Hf).
      destruct (Hother _ Hne) as (Hq' & Hc' & Hf').
      repeat split; congruence.
Qed.

(** [processBatch] passes the resolution where the estimate expects the
    number of search points of a hexagon, so the quota it asks for is
    [hexagons.length * resolution * 1.5], a product of doubles that is
    exact as long as [hexagons.length * resolution] stays below 2^51.  A
    batch that does not fit the remaining quota changes nothing; otherwise
    every hexagon of the batch ends "fetched" or "failed" at that
    resolution and is recorded as completed or failed, the hexagons
    outside the batch keep their records, and nothing is queued for
    subdivision. *)
Theorem processBatch_gate (clock : nat -> Z) (hexagons : list string) (resolution : Z)
    (quota : APIQuotaManager.APIQuotaManager) (p : HexagonProcessor) :
  let out := processBatch clock hexagons resolution quota p in
  let needed :=
    (inject_Z (Z.of_nat (length hexagons)) * inject_Z resolution * (15 # 10))%Q in
  let asked :=
    Double.mul (Double.mul (inject_Z (Z.of_nat (length hexagons))) (inject_Z resolution))
               (15 # 10) in
  let remaining := APIQuotaManager.dailyLimit quota - APIQuotaManager.dailyUsage quota in
  ProcessorOps.hexagons out.1 = hexagons /\
  estimatedQuota out.1 = asked /\
  (Z.abs (Z.of_nat (length hexagons) * resolution) < 2 ^ 51 -> (asked == needed)%Q) /\
  canProcess out.1 = Qle_bool asked (inject_Z remaining) /\
  (canProcess out.1 = false -> out.2 = p) /\
  (canProcess out.1 = true ->
   forall h, h ∈ hexagons ->
     exists entry,
       getHexagonStatus out.2 h = Some entry /\
       (status entry = "fetched" \/ status entry = "failed") /\
       HexagonProcessor.resolution entry = resolution /\
       (is_Some (completedHexagons out.2 !! h) \/ is_Some (failedHexagons out.2 !! h))) /\
  (forall h, h ∉ hexagons -> getHexagonStatus out.2 h = getHexagonStatus p h) /\
  subdivisionQueue out.2 = subdivisionQueue p /\
  parentChildRelationships out.2 = parentChildRelationships p /\
  childParentRelationships out.2 = childParentRelationships p.
Proof.
  cbv zeta. unfold processBatch.
  cbn [canProcess estimatedQuota ProcessorOps.hexagons].
  rewrite estimatedCalls_estimate, canProcessRequest_estimate.
  assert (Hexact : Z.abs (Z.of_nat (length hexagons) * resolution) < 2 ^ 51 ->
            (Double.mul (Double.mul (inject_Z (Z.of_nat (length hexagons)))
                                    (inject_Z resolution)) (15 # 10)
             == inject_Z (Z.of_nat (length hexagons)) * inject_Z resolution * (15 # 10))%Q).
  { intros Hsmall. unfold Double.mul.
    set (n := Z.of_nat (length hexagons) * resolution) in *.
    assert (Hn : (inject_Z (Z.of_nat (length hexagons)) * inject_Z resolution
                  == inject_Z n)%Q) by (subst n; by rewrite inject_Z_mult).
    rewrite (round_proper _ _ Hn), Hn.
    assert (Hint : (Double.round (inject_Z n) == inject_Z n)%Q)
      by (apply round_integer; lia).
    rewrite (round_proper (Double.round (inject_Z n) * (15 # 10))
                          (inject_Z (3 * n) * 2 ^ (-1))).
    - rewrite round_representable by lia.
      rewrite inject_Z_mult. change (2 ^ (-1))%Q with (1 # 2). change (inject_Z 3) with 3%Q.
      field.
    - rewrite Hint, inject_Z_mult. change (2 ^ (-1))%Q with (1 # 2).
      change (inject_Z 3) with 3%Q. field. }
  destruct (processEach_spec clock hexagons resolution 0%nat p)
    as (Hin & Hout & Hsub & Hpc & Hcp).
  destruct (Qle_bool _ _) eqn:Hfits; cbn [negb fst snd];
    cbn [canProcess estimatedQuota ProcessorOps.hexagons];
    rewrite ?estimatedCalls_estimate, ?canProcessRequest_estimate, ?Hfits.
  - split; [reflexivity |]. split; [reflexivity |]. split; [exact Hexact |].
    split; [reflexivity |].
    split; [discriminate |]. split.
    + intros _ h Hh. destruct (Hin h Hh) as (entry & Hentry & Hrest).
      exists entry. split; [| exact Hrest].
      unfold getHexagonStatus. by rewrite Hentry.
    + split; [| by repeat split].
      intros h Hh. destruct (Hout h Hh) as (Hq & Hc & Hf).
      unfold getHexagonStatus. by rewrite Hq, Hc, Hf, Hsub.
  - split; [reflexivity |]. split; [reflexivity |]. split; [exact Hexact |].
    split; [reflexivity |].
    split; [reflexivity |]. split; [discriminate |]. by repeat split.
Qed.

End ProcessorFlowExtras.

Section ProcessorFlowWitnesses.
Import HexagonProcessor ProcessorOps.

Lemma getHexagonStatus_after_processing_witness :
  processingQueue new !! Demo.cell7 = None /\
  exists entry,
    getHexagonStatus
      (processHexagonWithCoverage (grid := Demo.grid) (turf := Demo.turf)
         (format := Demo.format) Demo.cell7 7 None 5 new).2 Demo.cell7 = Some entry /\
    totalBusinesses entry = None.
Proof.
  assert (H : processingQueue new !! Demo.cell7 = None) by reflexivity.
  split; [exact H |].
  destruct (getHexagonStatus_after_processing (grid := Demo.grid) (turf := Demo.turf)
              (format := Demo.format) Demo.cell7 7 None 5 new H)
    as (entry & Hentry & _ & _ & Htotal & _).
  exists entry. split; [exact Hentry | exact Htotal].
Defined.

End ProcessorFlowWitnesses.

(** ** hexagonProcessor: parents and children *)

Section FamilyExtras.
Import HexagonProcessor ProcessorOps.

(** Predicates of which at most one holds select disjoint parts of a list. *)
Lemma filter4_length {A} (f1 f2 f3 f4 : A -> bool) (l : list A) :
  (forall x, (Nat.b2n (f1 x) + Nat.b2n (f2 x) + Nat.b2n (f3 x) + Nat.b2n (f4 x) <= 1)%nat) ->
  (length (List.filter f1 l) + length (List.filter f2 l)
   + length (List.filter f3 l) + length (List.filter f4 l) <= length l)%nat.
Proof.
  intros Hone. induction l as [| x l IH]; [cbn; lia |].
  specialize (Hone x). cbn [List.filter].
  destruct (f1 x), (f2 x), (f3 x), (f4 x); cbn in Hone |- *; lia.
Qed.

Lemma status_exclusive (h : HexagonProcessingStatus) :
  (Nat.b2n (bool_decide (status h = "queued"))
   + Nat.b2n (bool_decide (status h = "processing"))
   + Nat.b2n (bool_decide (status h = "fetched") || bool_decide (status h = "split"))
   + Nat.b2n (bool_decide (status h = "failed")) <= 1)%nat.
Proof.
  repeat case_bool_decide; cbn; try lia; congruence.
Qed.

Lemma status_exclusive_terminal (h : HexagonProcessingStatus) :
  (Nat.b2n (bool_decide (status h = "fetched"))
   + Nat.b2n (bool_decide (status h = "failed"))
   + Nat.b2n (bool_decide (status h = "split")) + Nat.b2n false <= 1)%nat.
Proof.
  repeat case_bool_decide; cbn; try lia; congruence.
Qed.

(** A list of processed statuses is exhausted by the three terminal ones. *)
Lemma terminal_count (l : list HexagonProcessingStatus) :
  Forall (fun h => isProcessed h = true) l ->
  (length (List.filter (fun h => bool_decide (status h = "fetched")) l)
   + length (List.filter (fun h => bool_decide (status h = "failed")) l)
   + length (List.filter (fun h => bool_decide (status h = "split")) l) = length l)%nat.
Proof.
  induction 1 as [| h l Hh _ IH]; [reflexivity |].
  pose proof (status_exclusive_terminal h) as Hone.
  unfold isProcessed in Hh. cbn [List.filter].
  destruct (bool_decide (status h = "fetched")),
           (bool_decide (status h = "failed")),
           (bool_decide (status h = "split"));
    cbn in Hh, Hone |- *; try lia; discriminate.
Qed.

Lemma every_child_found {A B} (f : A -> option B) (P : B -> bool) (l : list A) :
  forallb (fun x => match f x with Some y => P y | None => false end) l = true ->
  length (omap f l) = length l /\ Forall (fun y => P y = true) (omap f l).
Proof.
  induction l as [| x l IH]; cbn [forallb omap list_omap]; [by split |].
  intros [Hx Hl]%andb_true_iff. destruct (IH Hl) as [Hlen Hall].
  cbn. destruct (f x) as [y |]; [| discriminate].
  cbn. split; [by rewrite Hlen | by constructor].
Qed.

Lemma length_omap_le {A B} (f : A -> option B) (l : list A) :
  (length (omap f l) <= length l)%nat.
Proof.
  induction l as [| x l IH]; [reflexivity |].
  cbn. destruct (f x); cbn; lia.
Qed.

(** The summary of the children of a split hexagon: the three counters
    select disjoint children, the quality is "poor" exactly when a child
    failed and "excellent" exactly when every child found is "fetched"
    (also when there is none), and it is never left "unknown".  When
    [areAllChildrenProcessed] answers true, every registered child is
    found and counted once. *)
Theorem getAggregatedChildResults_consistent (p : HexagonProcessor) (parentH3Id : string) :
  let summary := getAggregatedChildResults p parentH3Id in
  let found := length (getChildHexagons p parentH3Id) in
  let registered := length (default [] (parentChildRelationships p !! parentH3Id)) in
  (completedChildren summary + failedChildren summary + splitChildren summary
   <= found)%nat /\
  (found <= registered)%nat /\
  (agg_coverageQuality summary = "poor" <-> failedChildren summary <> 0%nat) /\
  (agg_coverageQuality summary = "excellent" <-> completedChildren summary = found) /\
  agg_coverageQuality summary <> "unknown" /\
  (areAllChildrenProcessed p parentH3Id = true ->
   (completedChildren summary + failedChildren summary + splitChildren summary
    = registered)%nat).
Proof.
  cbv zeta. unfold getAggregatedChildResults.
  cbn [completedChildren failedChildren splitChildren agg_coverageQuality].
  set (children := getChildHexagons p parentH3Id).
  set (fetched := length (List.filter (fun c => bool_decide (status c = "fetched")) children)).
  set (failed := length (List.filter (fun c => bool_decide (status c = "failed")) children)).
  set (split := length (List.filter (fun c => bool_decide (status c = "split")) children)).
  assert (Hsum : (fetched + failed + split <= length children)%nat).
  { pose proof (filter4_length
                  (fun c => bool_decide (status c = "fetched"))
                  (fun c => bool_decide (status c = "failed"))
                  (fun c => bool_decide (status c = "split"))
                  (fun _ => false) children status_exclusive_terminal) as H.
    subst fetched failed split. lia. }
  split; [exact Hsum |].
  split; [apply length_omap_le |].
  split; [| split; [| split]].
  - destruct (Nat.eqb_spec failed 0) as [Hz | Hnz].
    + split; [| contradiction].
      destruct (fetched =? length children)%nat; [discriminate |].
      destruct (Qgtb _ _); discriminate.
    + split; [by intros _ | reflexivity].
  - destruct (Nat.eqb_spec failed 0) as [Hz | Hnz].
    + destruct (Nat.eqb_spec fetched (length children)) as [Hall | Hsome].
      * by split.
      * split; [| contradiction]. destruct (Qgtb _ _); discriminate.
    + split; [discriminate |]. intros Hall. lia.
  - destruct (failed =? 0)%nat; [| discriminate].
    destruct (fetched =? length children)%nat; [discriminate |].
    destruct (Qgtb _ _); discriminate.
  - unfold areAllChildrenProcessed. subst fetched failed split children.
    unfold getChildHexagons.
    set (childIds := default [] (parentChildRelationships p !! parentH3Id)).
    destruct (Nat.eqb_spec (length childIds) 0) as [Hnone | Hsome].
    + intros _. destruct childIds; [reflexivity | discriminate].
    + intros Hall. apply every_child_found in Hall as [Hlen Hall].
      rewrite <- Hlen. by apply terminal_count.
Qed.

(** The four counters of [getSubdivisionQueueStatus] select disjoint
    entries of the subdivision queue, and its last field agrees with the
    statistics of [getProcessingStats]. *)
Theorem getSubdivisionQueueStatus_consistent (p : HexagonProcessor) :
  let report := getSubdivisionQueueStatus p in
  0 <= queuedCount report /\ 0 <= processingCount report /\
  0 <= completedCount report /\ 0 <= failedCount report /\
  queuedCount report + processingCount report + completedCount report
    + failedCount report <= stats_subdivisionQueue (getProcessingStats p) /\
  totalRelationships report = stats_parentChildRelationships (getProcessingStats p).
Proof.
  cbv zeta. unfold getSubdivisionQueueStatus, getProcessingStats, countValues.
  cbn [queuedCount processingCount completedCount failedCount totalRelationships
       stats_subdivisionQueue stats_parentChildRelationships].
  pose proof (filter4_length
                (fun h => bool_decide (status h = "queued"))
                (fun h => bool_decide (status h = "processing"))
                (fun h => bool_decide (status h = "fetched")
                          || bool_decide (status h = "split"))
                (fun h => bool_decide (status h = "failed"))
                (map_to_list (subdivisionQueue p)).*2 status_exclusive) as H.
  rewrite length_fmap, length_map_to_list in H.
  repeat split; lia.
Qed.

Section WithGrid.
Context {grid : H3} {format : NumberFormat}.

(** The successful branch of [handleDenseHexagons]. *)
Lemma handleDenseHexagons_returns (h3Id : string) (total currentResolution : Z)
    (p : HexagonProcessor) (split : HexagonSplitter.HexagonSplitResult) :
  240 < total ->
  HexagonSplitter.splitHexagon h3Id currentResolution (currentResolution + 1)
    = Returns split ->
  exists status p',
    handleDenseHexagons h3Id total currentResolution p
    = (status, foldl (queueChild h3Id (currentResolution + 1)) p'
                     (HexagonSplitter.splitHexagons split)) /\
    processingQueue p'
    = processingQueue (updateProcessingStatus h3Id "split" currentResolution p).
Proof.
  intros Hdense Hsplit. unfold handleDenseHexagons.
  unfold HexagonSplitter.detectDenseHexagon.
  destruct (Z.ltb_spec 240 total) as [_ | Hno]; [| lia]. cbn [negb].
  rewrite Hsplit. eexists _, _. split; reflexivity.
Qed.

(** After a split, [getParentHexagon] leads from every child back to the
    entry of the parent in the processing queue, now "split" at the
    resolution it was split from; a parent whose id is the empty string is
    registered but never found. *)
Theorem getParentHexagon_after_split (h3Id : string) (total currentResolution : Z)
    (p : HexagonProcessor) (split : HexagonSplitter.HexagonSplitResult) :
  240 < total ->
  HexagonSplitter.splitHexagon h3Id currentResolution (currentResolution + 1)
    = Returns split ->
  let out := handleDenseHexagons h3Id total currentResolution p in
  forall child, child ∈ HexagonSplitter.h3Id <$> HexagonSplitter.splitHexagons split ->
    childParentRelationships out.2 !! child = Some h3Id /\
    if bool_decide (h3Id = "") then getParentHexagon out.2 child = None
    else exists entry,
           getParentHexagon out.2 child = Some entry /\
           processingQueue out.2 !! h3Id = Some entry /\
           status entry = "split" /\
           resolution entry = currentResolution.
Proof.
  intros Hdense Hsplit. cbv zeta. intros child Hchild.
  destruct (handleDenseHexagons_returns h3Id total currentResolution p split Hdense Hsplit)
    as (st & p' & -> & Hqueue).
  cbn [fst snd].
  destruct (queueChildren_spec h3Id (currentResolution + 1)
              (HexagonSplitter.splitHexagons split) p')
    as (Hq & _ & _ & _ & _ & Hin).
  destruct (Hin child Hchild) as (Hparent & _).
  split; [exact Hparent |].
  unfold getParentHexagon. rewrite Hparent.
  destruct (bool_decide (h3Id = "")); [reflexivity |].
  unfold getHexagonStatus. rewrite Hq, Hqueue.
  unfold updateProcessingStatus. cbn [processingQueue].
  rewrite lookup_insert_eq. eexists. by repeat split.
Qed.

End WithGrid.

End FamilyExtras.

Section FamilyWitnesses.
Import HexagonProcessor ProcessorOps.

Lemma getParentHexagon_after_split_witness :
  240 < 241 /\
  childParentRelationships
    (handleDenseHexagons (grid := Demo.grid) (format := Demo.format) Demo.cell7 241 7 new).2 !! Demo.cell8
  = Some Demo.cell7.
Proof.
  assert (Hdense : 240 < 241) by lia.
  split; [exact Hdense |].
  destruct (HexagonSplitter.splitHexagon (grid := Demo.grid) (format := Demo.format) Demo.cell7 7 (7 + 1))
    as [split | m] eqn:Hsplit; [| vm_compute in Hsplit; discriminate].
  refine (proj1 (getParentHexagon_after_split (grid := Demo.grid) (format := Demo.format) Demo.cell7 241 7 new
                   split Hdense Hsplit Demo.cell8 _)).
  vm_compute in Hsplit. injection Hsplit as <-. vm_compute.
  apply elem_of_cons. by left.
Defined.

End FamilyWitnesses.
